(** * The evaluation session controller of the text-to-reverb user study

    A shallow embedding of [streamlit.py]: the sample catalog loader
    ([load_evaluation_samples], [get_demo_text_prompt]), the presentation
    order drawn at session start, the navigation handlers of
    [evaluation_interface] and the result writer [show_completion].

    Python values are modelled as follows: [str] as [string] (names are
    taken to be ASCII), [int] as [Z], a list index that is known to come
    from [range] as [nat], [dict] as [gmap], an exception as [Raise]. *)

From Stdlib Require Import ZArith String Ascii List Lia Permutation.
From stdpp Require Import gmap strings list fin_maps pretty.

Local Open Scope string_scope.
Local Open Scope Z_scope.

(** ** Exceptions *)

(** [UnicodeDecodeError] is a subclass of [ValueError] in Python; the two
    are kept apart here, so that a cause can be told from the other. *)
Inductive PyError :=
| ValueError
| UnicodeDecodeError
| IndexError
| FileNotFoundError
| NotADirectoryError
| IsADirectoryError
| TypeError.

Inductive Result (A : Type) :=
| Ok (a : A)
| Raise (e : PyError).
Arguments Ok {A} a.
Arguments Raise {A} e.

Definition bind {A B} (r : Result A) (k : A -> Result B) : Result B :=
  match r with
  | Ok a => k a
  | Raise e => Raise e
  end.

Notation "'let*' x ':=' r 'in' k" := (bind r (fun x => k))
  (at level 10, x name, r at level 100, k at level 200).

Definition succeeds {A} (r : Result A) : Prop :=
  match r with Ok _ => True | Raise _ => False end.

(** ** Python strings and lists *)

Module Py.

(** [c in s] for a one-character [c]. *)
Fixpoint contains (c : ascii) (s : string) : bool :=
  match s with
  | EmptyString => false
  | String x s' => if Ascii.eqb x c then true else contains c s'
  end.

(** [s.split(sep)] for a one-character separator: never the empty list. *)
Fixpoint split (sep : ascii) (s : string) : list string :=
  match s with
  | EmptyString => [EmptyString]
  | String x s' =>
      if Ascii.eqb x sep then EmptyString :: split sep s'
      else match split sep s' with
           | w :: ws => String x w :: ws
           | [] => [String x EmptyString]
           end
  end.

(** The characters [str.strip] treats as blanks (ASCII part): tab, line
    feed, vertical tab, form feed, carriage return, the separators 28 to 31
    and the space. *)
Definition is_space (c : ascii) : bool :=
  let n := nat_of_ascii c in
  ((9 <=? n)%nat && (n <=? 13)%nat) || ((28 <=? n)%nat && (n <=? 32)%nat).

(** The blanks [int] skips around a literal in an ASCII string: tab to
    carriage return and the space, without the separators 28 to 31. *)
Definition is_int_space (c : ascii) : bool :=
  let n := nat_of_ascii c in
  ((9 <=? n)%nat && (n <=? 13)%nat) || (n =? 32)%nat.

Fixpoint lstrip (blank : ascii -> bool) (s : string) : string :=
  match s with
  | EmptyString => EmptyString
  | String x s' => if blank x then lstrip blank s' else s
  end.

Fixpoint rstrip (blank : ascii -> bool) (s : string) : string :=
  match s with
  | EmptyString => EmptyString
  | String x s' =>
      match rstrip blank s' with
      | EmptyString => if blank x then EmptyString else String x EmptyString
      | r => String x r
      end
  end.

(** [s.strip()] *)
Definition strip (s : string) : string :=
  rstrip is_space (lstrip is_space s).

Definition digit_val (c : ascii) : option Z :=
  let n := nat_of_ascii c in
  if (48 <=? n)%nat && (n <=? 57)%nat then Some (Z.of_nat (n - 48)) else None.

(** The value of a run of decimal digits read left to right, [None] as soon
    as another character is met. *)
Fixpoint digits_val (acc : Z) (s : string) : option Z :=
  match s with
  | EmptyString => Some acc
  | String x s' =>
      match digit_val x with
      | Some d => digits_val (10 * acc + d) s'
      | None => None
      end
  end.

Definition unsigned_val (s : string) : Result Z :=
  match s with
  | EmptyString => Raise ValueError
  | _ => match digits_val 0 s with
         | Some v => Ok v
         | None => Raise ValueError
         end
  end.

(** [int(s)] on a string without underscores (the argument below is a field
    of [split('_')], taken from a directory name, hence far shorter than
    the 4300 digits from which [int] refuses a literal): blanks around the
    literal are skipped, one sign is allowed, at least one digit is
    required; anything else raises [ValueError]. *)
Definition int (s : string) : Result Z :=
  match rstrip is_int_space (lstrip is_int_space s) with
  | String "+" r => unsigned_val r
  | String "-" r => let* v := unsigned_val r in Ok (- v)
  | r => unsigned_val r
  end.

(** [l[i]] with Python's negative indices. *)
Definition index {A} (l : list A) (i : Z) : Result A :=
  let n := Z.of_nat (length l) in
  let j := if i <? 0 then i + n else i in
  if (0 <=? j) && (j <? n)
  then match l !! Z.to_nat j with
       | Some x => Ok x
       | None => Raise IndexError
       end
  else Raise IndexError.

(** [os.path.join(a, b)] of [posixpath]. *)
Definition ends_with_sep (s : string) : bool :=
  match String.rev s with
  | String "/" _ => true
  | _ => false
  end.

Definition path_join (a b : string) : string :=
  match b with
  | String "/" _ => b
  | _ => match a with
         | EmptyString => b
         | _ => if ends_with_sep a then a +:+ b else a +:+ "/" +:+ b
         end
  end.

Arguments path_join : simpl never.

End Py.

(** ** The corpus store, as the [os] calls of the loader see it *)

(** What reading a file in text mode finds: its text, decoded with the
    encoding of the locale and with the line ends translated, or bytes that
    this encoding does not decode. *)
Inductive Content :=
| Text (s : string)
| Undecodable.

Inductive Entry :=
| File (content : Content)
| Directory (names : list string).

Module Os.
Section Store.
Variable fs : gmap string Entry.

Definition path_exists (p : string) : bool :=
  match fs !! p with Some _ => true | None => false end.

Definition path_isdir (p : string) : bool :=
  match fs !! p with Some (Directory _) => true | _ => false end.

Definition listdir (p : string) : Result (list string) :=
  match fs !! p with
  | Some (Directory names) => Ok names
  | Some (File _) => Raise NotADirectoryError
  | None => Raise FileNotFoundError
  end.

(** [open(p, 'r')] followed by [f.read()] *)
Definition read_text (p : string) : Result string :=
  match fs !! p with
  | Some (File (Text s)) => Ok s
  | Some (File Undecodable) => Raise UnicodeDecodeError
  | Some (Directory _) => Raise IsADirectoryError
  | None => Raise FileNotFoundError
  end.
End Store.
End Os.

(** ** Samples *)

Inductive Condition := generated | ground_truth.

Definition condition_tag (c : Condition) : string :=
  match c with
  | generated => "generated"
  | ground_truth => "ground_truth"
  end.

Record Sample := mkSample {
  id : string;
  category : string;
  condition : Condition;
  sample_dir : string;
  text_prompt : string;
  anechoic_path : string;
  reverb_path : string
}.

Definition SAMPLES_DIR : string := "evaluation_samples".
Definition RESULTS_DIR : string := "evaluation_results".

(** Messages shown to the rater. *)
Inductive Msg :=
| st_error (text : string)
| st_warning (text : string)
| st_success (text : string)
| st_info (text : string).

(** ** get_demo_text_prompt *)

Definition prompts : list (string * list string) :=
  [ ("small",
      [ "A small tiled bathroom with hard surfaces and minimal absorption";
        "A compact bedroom with carpet flooring and soft furnishings" ]);
    ("medium",
      [ "A medium-sized classroom with concrete walls and large windows";
        "A living room with wooden floors and moderate furnishing" ]);
    ("large",
      [ "A large cathedral with stone walls and high vaulted ceilings";
        "A spacious concert hall with acoustic treatment panels" ]);
    ("outdoor",
      [ "An open field with no nearby reflective surfaces";
        "A desert landscape with distant rock formations" ]) ].

Fixpoint dict_get {V} (d : list (string * V)) (k : string) : option V :=
  match d with
  | [] => None
  | (k', v) :: d' => if String.eqb k' k then Some v else dict_get d' k
  end.

Definition get_demo_text_prompt (category : string) (sample_num : Z)
  : Result string :=
  match dict_get prompts category with
  | None => Ok ("A " +:+ category +:+ " space")
  | Some prompt_list =>
      if Z.of_nat (length prompt_list) <=? sample_num
      then Py.index prompt_list 0
      else Py.index prompt_list sample_num
  end.

(** ** load_evaluation_samples *)

Section Loader.
Variable fs : gmap string Entry.

(** The fallback position: the last [_] field of the directory name. *)
Definition sample_num_of (sample_dir : string) : Result Z :=
  if Py.contains "_" sample_dir
  then Py.int (List.last (Py.split "_" sample_dir) EmptyString)
  else Ok 0.

Definition resolve_text_prompt (category sample_dir sample_path : string)
  : Result string :=
  let text_prompt_path := Py.path_join sample_path "text_prompt.txt" in
  if Os.path_exists fs text_prompt_path
  then let* content := Os.read_text fs text_prompt_path in
       Ok (Py.strip content)
  else let* sample_num := sample_num_of sample_dir in
       get_demo_text_prompt category sample_num.

Definition make_sample (category sample_dir text_prompt : string)
    (cond : Condition) (anechoic_path reverb_path : string) : Sample :=
  {| id := category +:+ "_" +:+ sample_dir +:+ "_" +:+ condition_tag cond;
     category := category;
     condition := cond;
     sample_dir := sample_dir;
     text_prompt := text_prompt;
     anechoic_path := anechoic_path;
     reverb_path := reverb_path |}.

(** The two [if ... samples.append(...)] statements of one group. *)
Definition emit (category sample_dir sample_path text_prompt : string)
  : list Sample :=
  let anechoic_path := Py.path_join sample_path "anechoic.wav" in
  let generated_path := Py.path_join sample_path "generated_reverb.wav" in
  let ground_truth_path :=
    Py.path_join sample_path "ground_truth_reverb.wav" in
  ((if Os.path_exists fs anechoic_path && Os.path_exists fs generated_path
   then [make_sample category sample_dir text_prompt generated
           anechoic_path generated_path]
   else [])
  ++
  if Os.path_exists fs anechoic_path && Os.path_exists fs ground_truth_path
   then [make_sample category sample_dir text_prompt ground_truth
           anechoic_path ground_truth_path]
   else [])%list.

(** The body of the inner loop. *)
Definition load_group (category category_path sample_dir : string)
  : Result (list Sample) :=
  let sample_path := Py.path_join category_path sample_dir in
  if negb (Os.path_isdir fs sample_path) then Ok []
  else let* text_prompt :=
         resolve_text_prompt category sample_dir sample_path in
       Ok (emit category sample_dir sample_path text_prompt).

(** A [for] loop whose body appends to [samples] or raises. *)
Fixpoint for_each {A B} (body : A -> Result (list B)) (l : list A)
  : Result (list B) :=
  match l with
  | [] => Ok []
  | x :: l' =>
      let* ys := body x in
      let* zs := for_each body l' in
      Ok (ys ++ zs)%list
  end.

(** The body of the outer loop. *)
Definition load_category (category : string) : Result (list Sample) :=
  let category_path := Py.path_join SAMPLES_DIR category in
  if negb (Os.path_isdir fs category_path) then Ok []
  else let* names := Os.listdir fs category_path in
       for_each (load_group category category_path) names.

(** The samples and the messages shown while loading. *)
Definition load_evaluation_samples : Result (list Sample * list Msg) :=
  if negb (Os.path_exists fs SAMPLES_DIR)
  then Ok ([], [st_error ("Evaluation samples directory not found: "
                          +:+ SAMPLES_DIR)])
  else
    let* categories := Os.listdir fs SAMPLES_DIR in
    let* samples := for_each load_category categories in
    Ok (samples,
        match samples with
        | [] => [st_warning
                   "No evaluation samples found in the directory structure."]
        | _ => []
        end).
End Loader.

(** ** What the loader visits *)

(** The audio file of a variant. *)
Definition variant_file (c : Condition) : string :=
  match c with
  | generated => "generated_reverb.wav"
  | ground_truth => "ground_truth_reverb.wav"
  end.

Definition group_path (category sample_dir : string) : string :=
  Py.path_join (Py.path_join SAMPLES_DIR category) sample_dir.

(** [sample_dir] is a group of [category] that the two loops reach: both
    are listed and both are directories. *)
Definition visited (fs : gmap string Entry) (category sample_dir : string)
  : Prop :=
  exists categories names,
    Os.listdir fs SAMPLES_DIR = Ok categories /\
    category ∈ categories /\
    Os.path_isdir fs (Py.path_join SAMPLES_DIR category) = true /\
    Os.listdir fs (Py.path_join SAMPLES_DIR category) = Ok names /\
    sample_dir ∈ names /\
    Os.path_isdir fs (group_path category sample_dir) = true.

(** The dry audio and the audio of variant [c] of a group both exist. *)
Definition resolves (fs : gmap string Entry) (category sample_dir : string)
    (c : Condition) : Prop :=
  Os.path_exists fs
    (Py.path_join (group_path category sample_dir) "anechoic.wav") = true /\
  Os.path_exists fs
    (Py.path_join (group_path category sample_dir) (variant_file c)) = true.

(** The corpus root is missing or is a directory. *)
Definition root_ok (fs : gmap string Entry) : Prop :=
  match fs !! SAMPLES_DIR with
  | Some (File _) => False
  | _ => True
  end.

(** The last character of a string. *)
Fixpoint last_char (s : string) : option ascii :=
  match s with
  | EmptyString => None
  | String x EmptyString => Some x
  | String _ s' => last_char s'
  end.

(** The key a sample is built from. *)
Definition sample_key (s : Sample) : string * string * Condition :=
  (category s, sample_dir s, condition s).

(** [os.listdir] returns every name of a directory once. *)
Definition listings_distinct (fs : gmap string Entry) : Prop :=
  forall p names, fs !! p = Some (Directory names) -> NoDup names.

(** ** Ratings and the session state *)

Module Rating.
Record t := mk {
  sample_id : string;
  category : string;
  condition : Condition;
  quality : Z;
  match_ : Z;
  order_presented : Z
}.
End Rating.

(** [st.session_state], as the first lines of the script initialise it. *)
Record SessionState := mkSession {
  current_sample_idx : Z;
  sample_order : list nat;
  ratings : gmap string Rating.t;
  samples : option (list Sample)
}.

Definition init_session_state : SessionState :=
  {| current_sample_idx := 0;
     sample_order := [];
     ratings := ∅;
     samples := None |}.

(** ** The presentation order

    [random.sample(range(n), n)] is a call into Python's library. With
    [k = n] the library always takes its pool branch:
    [pool = list(population)], then for [i] in [range(k)]:
    [j = randbelow(n - i)], [result[i] = pool[j]],
    [pool[j] = pool[n - i - 1]]. The random source is a stream [rnd] of raw
    draws, [randbelow m] being the [i]-th draw reduced modulo [m]. *)

Fixpoint sample_loop (rnd : nat -> nat) (i remaining : nat) (pool : list nat)
  : list nat :=
  match remaining with
  | O => []
  | S m =>
      let j := (rnd i mod S m)%nat in
      (pool !!! j) :: sample_loop rnd (S i) m (<[j := pool !!! m]> pool)
  end.

Definition random_sample (rnd : nat -> nat) (n : nat) : list nat :=
  sample_loop rnd 0 n (seq 0 n).

(** ** Time stamps *)

Record datetime := mkDatetime {
  year : nat; month : nat; day : nat;
  hour : nat; minute : nat; second : nat;
  microsecond : nat
}.

Definition digit (n : nat) : ascii := ascii_of_nat (48 + n mod 10).

(** [n] written with exactly [w] decimal digits (the zero-padded fields of
    [strftime] and [isoformat]; every field of a [datetime] fits). *)
Fixpoint pad (w n : nat) : string :=
  match w with
  | O => EmptyString
  | S w' => pad w' (n / 10) +:+ String (digit n) EmptyString
  end.

(** [d.strftime('%Y%m%d_%H%M%S')] *)
Definition strftime_stamp (d : datetime) : string :=
  pad 4 (year d) +:+ pad 2 (month d) +:+ pad 2 (day d) +:+ "_" +:+
  pad 2 (hour d) +:+ pad 2 (minute d) +:+ pad 2 (second d).

(** [d.isoformat()] *)
Definition isoformat (d : datetime) : string :=
  pad 4 (year d) +:+ "-" +:+ pad 2 (month d) +:+ "-" +:+ pad 2 (day d) +:+
  "T" +:+ pad 2 (hour d) +:+ ":" +:+ pad 2 (minute d) +:+ ":" +:+
  pad 2 (second d) +:+
  match microsecond d with
  | O => EmptyString
  | us => "." +:+ pad 6 us
  end.

(** The fields of a [datetime] whose year has four digits (where [%Y] is
    the same on every platform), as [datetime.now()] returns it. *)
Definition valid_datetime (d : datetime) : Prop :=
  (1000 <= year d < 10 * 1000 /\ 1 <= month d <= 12 /\ 1 <= day d <= 31 /\
   hour d <= 23 /\ minute d <= 59 /\ second d <= 59 /\
   microsecond d < 1000 * 1000)%nat.

(** The same second of the same day. *)
Definition same_second (d1 d2 : datetime) : Prop :=
  year d1 = year d2 /\ month d1 = month d2 /\ day d1 = day d2 /\
  hour d1 = hour d2 /\ minute d1 = minute d2 /\ second d1 = second d2.

(** ** show_completion *)

(** The dictionary handed to [json.dump]. *)
Record Results := mkResults {
  results_ratings : gmap string Rating.t;
  completion_time : string
}.

(** What a reader finds under a name of the results directory: a file that
    was opened for writing and not yet written in full, or a whole record. *)
Inductive FileContent :=
| Partial
| Whole (r : Results).

(** [open(filename, 'w')] creates or truncates the file under its final
    name; [json.dump] then writes the record into it. *)
Inductive FileOp :=
| OpenW (filename : string)
| Dump (filename : string) (r : Results).

Definition apply_op (store : gmap string FileContent) (op : FileOp)
  : gmap string FileContent :=
  match op with
  | OpenW filename => <[filename := Partial]> store
  | Dump filename r => <[filename := Whole r]> store
  end.

Definition run_ops (store : gmap string FileContent) (ops : list FileOp)
  : gmap string FileContent :=
  foldl apply_op store ops.

(** The two readings of [datetime.now()] made by one [show_completion]. *)
Record Clock := mkClock {
  now_completion : datetime;
  now_filename : datetime
}.

Definition results_filename (d : datetime) : string :=
  RESULTS_DIR +:+ "/evaluation_" +:+ strftime_stamp d +:+ ".json".

(** [Path(filename).stem] of a results file name. *)
Definition reference_id (d : datetime) : string :=
  "evaluation_" +:+ strftime_stamp d.

Definition completion_ops (clock : Clock) (ss : SessionState) : list FileOp :=
  let results := {| results_ratings := ratings ss;
                    completion_time := isoformat (now_completion clock) |} in
  let filename := results_filename (now_filename clock) in
  [OpenW filename; Dump filename results].

Definition completion_msgs (clock : Clock) : list Msg :=
  [ st_success "🎉 Evaluation Complete! Thank you for your participation.";
    st_info ("Your responses have been saved. Reference ID: " +:+
             reference_id (now_filename clock)) ].

Definition show_completion (clock : Clock) (ss : SessionState)
    (store : gmap string FileContent) : gmap string FileContent :=
  run_ops store (completion_ops clock ss).

(** The results directory when the process stops after [k] of the file
    operations of [show_completion]. *)
Definition show_completion_stopped (k : nat) (clock : Clock)
    (ss : SessionState) (store : gmap string FileContent)
  : gmap string FileContent :=
  run_ops store (take k (completion_ops clock ss)).

(** ** evaluation_interface *)

Inductive Button := NoClick | PrevClick | NextClick.

(** What the browser sends with a run of the script: the button pressed,
    if any, and for each slider of the page the value the rater has put it
    on, if the rater has moved it since the page was drawn for this
    sample. *)
Record UI := mkUI {
  clicked : Button;
  quality_input : option Z;
  match_input : option Z
}.

Definition no_input : UI :=
  {| clicked := NoClick; quality_input := None; match_input := None |}.

(** A click on a button of a page whose sliders the rater has not moved
    since the page was drawn. *)
Definition press (b : Button) : UI :=
  {| clicked := b; quality_input := None; match_input := None |}.

(** The sliders are built with [min_value=1] and [max_value=5]: these are
    the only values the rater can move them to. *)
Definition slider_ok (v : option Z) : Prop :=
  match v with Some x => 1 <= x <= 5 | None => True end.

Definition ui_ok (ui : UI) : Prop :=
  slider_ok (quality_input ui) /\ slider_ok (match_input ui).

(** [st.slider(..., min_value, max_value, value=value, key=...)], which is
    also the value held under the slider's key. Streamlit widens the bounds
    so that they include the initial [value]. The slider holds [value] until
    the rater moves it, and it can only be moved within the bounds: a value
    outside them is not taken, the slider stays on [value]. *)
Definition st_slider (min_value max_value value : Z) (moved : option Z)
  : Z :=
  let lowest := Z.min min_value value in
  let highest := Z.max max_value value in
  match moved with
  | Some v => if (lowest <=? v) && (v <=? highest) then v else value
  | None => value
  end.

(** [existing_rating.get(field, 3)] with
    [existing_rating = ratings.get(sample['id'], {})] *)
Definition existing_get (existing_rating : option Rating.t)
    (field : Rating.t -> Z) : Z :=
  match existing_rating with Some r => field r | None => 3 end.

(** The outcome of one execution of the script. *)
Inductive View :=
| ShowSample (sample : Sample) (quality_rating match_rating : Z)
| ShowCompletion
| Rerun.

Record Run := mkRun {
  state : SessionState;
  store : gmap string FileContent;
  shown : list Msg;
  view : View
}.

(** The assignment [st.session_state.ratings[sample['id']] = {...}]. *)
Definition save_rating (sample : Sample) (quality_value match_value : Z)
    (current_idx : Z) (ratings : gmap string Rating.t)
  : gmap string Rating.t :=
  <[ id sample :=
       {| Rating.sample_id := id sample;
          Rating.category := category sample;
          Rating.condition := condition sample;
          Rating.quality := quality_value;
          Rating.match_ := match_value;
          Rating.order_presented := current_idx |} ]> ratings.

(** The body of both button handlers: save, move the cursor, rerun. *)
Definition navigate (ss : SessionState) (sample : Sample)
    (quality_value match_value : Z) (delta : Z) : SessionState :=
  {| current_sample_idx := current_sample_idx ss + delta;
     sample_order := sample_order ss;
     ratings := save_rating sample quality_value match_value
                  (current_sample_idx ss) (ratings ss);
     samples := samples ss |}.

(** [samples[sample_order[current_idx]]] *)
Definition current_sample (ss : SessionState) : Result Sample :=
  let* position := Py.index (sample_order ss) (current_sample_idx ss) in
  match samples ss with
  | Some l => Py.index l (Z.of_nat position)
  | None => Raise TypeError
  end.

(** What a run of the script reads from outside the session state: the
    corpus store, the random source, the clock. *)
Record Env := mkEnv {
  fs : gmap string Entry;
  rnd : nat -> nat;
  clock : Clock
}.

(** The two audio columns: a player, or a warning when the file is gone. *)
Definition audio_warnings (fs : gmap string Entry) (sample : Sample)
  : list Msg :=
  ((if Os.path_exists fs (anechoic_path sample) then []
    else [st_warning ("Anechoic audio file not found: "
                      +:+ anechoic_path sample)])
   ++
   if Os.path_exists fs (reverb_path sample) then []
   else [st_warning ("Reverb audio file not found: "
                     +:+ reverb_path sample)])%list.

(** A run that ends in [st.rerun()] leaves nothing on the page: the page is
    drawn again by the next run. *)
Definition evaluation_interface (env : Env) (ss : SessionState)
    (files : gmap string FileContent) (ui : UI) : Result Run :=
  let current_idx := current_sample_idx ss in
  if Z.of_nat (length (sample_order ss)) <=? current_idx
  then Ok {| state := ss;
             store := show_completion (clock env) ss files;
             shown := completion_msgs (clock env);
             view := ShowCompletion |}
  else
    let* sample := current_sample ss in
    let existing_rating := ratings ss !! id sample in
    let quality_rating :=
      st_slider 1 5 (existing_get existing_rating Rating.quality)
                (quality_input ui) in
    let match_rating :=
      st_slider 1 5 (existing_get existing_rating Rating.match_)
                (match_input ui) in
    let stay := {| state := ss; store := files;
                   shown := audio_warnings (fs env) sample;
                   view := ShowSample sample quality_rating match_rating |} in
    let go delta :=
      {| state := navigate ss sample quality_rating match_rating delta;
         store := files; shown := []; view := Rerun |} in
    if 0 <? current_idx
    then match clicked ui with
         | PrevClick => Ok (go (-1))
         | NextClick => Ok (go 1)
         | NoClick => Ok stay
         end
    else match clicked ui with
         | NextClick => Ok (go 1)
         | _ => Ok stay
         end.

(** ** main: one execution of the script

    The title and the instructions are display only and left out; the
    progress line of the side bar is [sidebar_progress] below. *)

Definition initialize (env : Env) (ss : SessionState)
  : Result (SessionState * list Msg) :=
  match samples ss with
  | None =>
      let* loaded := load_evaluation_samples (fs env) in
      Ok ({| current_sample_idx := current_sample_idx ss;
             sample_order := random_sample (rnd env) (length (fst loaded));
             ratings := ratings ss;
             samples := Some (fst loaded) |}, snd loaded)
  | Some _ => Ok (ss, [])
  end.

Definition main (env : Env) (ss : SessionState)
    (files : gmap string FileContent) (ui : UI) : Result Run :=
  let* init := initialize env ss in
  let* r := evaluation_interface env (fst init) files ui in
  Ok {| state := state r; store := store r;
        shown := (snd init ++ shown r)%list; view := view r |}.

(** One action of the rater: the script runs with the input, and once more
    without input when a handler asked for [st.rerun()]. *)
Definition interact (env : Env) (ss : SessionState)
    (files : gmap string FileContent) (ui : UI) : Result Run :=
  let* r := main env ss files ui in
  match view r with
  | Rerun =>
      let* r' := main env (state r) (store r) no_input in
      Ok {| state := state r'; store := store r';
            shown := (shown r ++ shown r')%list; view := view r' |}
  | _ => Ok r
  end.

(** The session: the page is opened, then the rater acts. Every action
    comes with what the script finds outside when it runs for it: the
    clock is read anew, and the corpus store may have changed. *)
Definition start (env : Env) (files : gmap string FileContent) : Result Run :=
  main env init_session_state files no_input.

Fixpoint actions (r : Run) (steps : list (Env * UI)) : Result Run :=
  match steps with
  | [] => Ok r
  | (env, ui) :: steps' =>
      let* r' := interact env (state r) (store r) ui in
      actions r' steps'
  end.

Definition session (env : Env) (files : gmap string FileContent)
    (steps : list (Env * UI)) : Result Run :=
  let* r := start env files in actions r steps.

(** The environment of the last run of a session that started in [env]. *)
Definition final_env (env : Env) (steps : list (Env * UI)) : Env :=
  List.last (fst <$> steps) env.

(** The results directory after the record of the state [ss] was written
    once for each of [steps], at the time each of them reads. *)
Definition rewritten (ss : SessionState) (steps : list (Env * UI))
    (files : gmap string FileContent) : gmap string FileContent :=
  foldl (fun files step => show_completion (clock (fst step)) ss files)
        files steps.

(** A state is reachable when some session of a rater who uses the sliders
    as they are built arrives in it; [env] is the environment of the first
    run. *)
Definition reachable (env : Env) (ss : SessionState) : Prop :=
  exists files steps r,
    Forall (fun step => ui_ok (snd step)) steps /\
    session env files steps = Ok r /\ state r = ss.

(** The states of the specification. *)
Definition Active (ss : SessionState) (cursor : Z) : Prop :=
  current_sample_idx ss = cursor /\
  0 <= cursor < Z.of_nat (length (sample_order ss)).

Definition Complete (ss : SessionState) : Prop :=
  current_sample_idx ss = Z.of_nat (length (sample_order ss)).

(** ** What else the page shows *)

(** [is_last_sample] and the label of the forward button. *)
Definition is_last_sample (ss : SessionState) : bool :=
  current_sample_idx ss =? Z.of_nat (length (sample_order ss)) - 1.

Definition button_text (ss : SessionState) : string :=
  if is_last_sample ss then "Submit" else "Next →".

(** The progress line of the side bar, drawn at the end of [main] when the
    order is not empty. *)
Definition sidebar_progress (ss : SessionState) : option string :=
  if 0 <? Z.of_nat (length (sample_order ss))
  then Some ("**Progress:** " +:+ pretty (current_sample_idx ss) +:+ "/" +:+
             pretty (length (sample_order ss)))
  else None.

(** ** Invariants of the session state *)

Definition catalog (ss : SessionState) : list Sample :=
  match samples ss with Some l => l | None => [] end.

(** Every sample shown at a position before [c] has a rating. *)
Definition rated_before (ss : SessionState) (c : Z) : Prop :=
  forall j position s,
    0 <= j < c ->
    sample_order ss !! Z.to_nat j = Some position ->
    catalog ss !! position = Some s ->
    is_Some (ratings ss !! id s).

(** The catalog is loaded, the order is a permutation of its indices and
    the cursor lies between 0 and the length of the order. *)
Definition well_formed (ss : SessionState) : Prop :=
  is_Some (samples ss) /\
  sample_order ss ≡ₚ seq 0 (length (catalog ss)) /\
  0 <= current_sample_idx ss <= Z.of_nat (length (sample_order ss)).

(** Every stored rating sits under its own sample id, belongs to a sample
    of the catalog and carries two scores of the slider range. *)
Definition ratings_ok (ss : SessionState) : Prop :=
  forall k r, ratings ss !! k = Some r ->
    Rating.sample_id r = k /\
    (exists s, s ∈ catalog ss /\ id s = k) /\
    1 <= Rating.quality r <= 5 /\ 1 <= Rating.match_ r <= 5.

Definition session_inv (ss : SessionState) : Prop :=
  well_formed ss /\ ratings_ok ss.

(** The scores of two ratings agree. *)
Definition same_scores (r1 r2 : Rating.t) : Prop :=
  Rating.quality r1 = Rating.quality r2 /\
  Rating.match_ r1 = Rating.match_ r2.

(** The state a handler leaves behind: the rating of [sample] saved with
    the values the sliders hold, the cursor moved by [delta]. *)
Definition leave (ss : SessionState) (sample : Sample) (ui : UI)
    (delta : Z) : SessionState :=
  let existing_rating := ratings ss !! id sample in
  navigate ss sample
    (st_slider 1 5 (existing_get existing_rating Rating.quality)
               (quality_input ui))
    (st_slider 1 5 (existing_get existing_rating Rating.match_)
               (match_input ui))
    delta.

(** Two rating dictionaries with the same keys and, under each key, the
    same scores: equal up to [order_presented]. *)
Definition same_content (m1 m2 : gmap string Rating.t) : Prop :=
  forall k, match m1 !! k, m2 !! k with
            | Some r1, Some r2 => same_scores r1 r2
            | None, None => True
            | _, _ => False
            end.

(** ** Example corpora *)

Module Corpus.

Definition dir (category sample_dir : string) : string :=
  Py.path_join (Py.path_join SAMPLES_DIR category) sample_dir.

(** An audio file: bytes that are no text. *)
Definition audio : Entry := File Undecodable.

(** One group [small/room_1] with the dry audio and both variants. *)
Definition both : gmap string Entry :=
  list_to_map
    [ (SAMPLES_DIR, Directory ["small"]);
      (Py.path_join SAMPLES_DIR "small", Directory ["room_1"]);
      (dir "small" "room_1", Directory
         ["anechoic.wav"; "generated_reverb.wav";
          "ground_truth_reverb.wav"]);
      (Py.path_join (dir "small" "room_1") "anechoic.wav", audio);
      (Py.path_join (dir "small" "room_1") "generated_reverb.wav",
       audio);
      (Py.path_join (dir "small" "room_1") "ground_truth_reverb.wav",
       audio) ].

(** One group with the dry audio and the generated variant only. *)
Definition single : gmap string Entry :=
  list_to_map
    [ (SAMPLES_DIR, Directory ["large"]);
      (Py.path_join SAMPLES_DIR "large", Directory ["hall_0"]);
      (dir "large" "hall_0", Directory
         ["anechoic.wav"; "generated_reverb.wav"; "text_prompt.txt"]);
      (Py.path_join (dir "large" "hall_0") "anechoic.wav", audio);
      (Py.path_join (dir "large" "hall_0") "generated_reverb.wav",
       audio);
      (Py.path_join (dir "large" "hall_0") "text_prompt.txt",
       File (Text "A stone hall
")) ].

(** No corpus root at all. *)
Definition missing : gmap string Entry := ∅.

(** A root without any category. *)
Definition empty : gmap string Entry :=
  list_to_map [ (SAMPLES_DIR, Directory []) ].

(** A group directory whose name ends in a field that is not a number,
    with no authored prompt and no audio. *)
Definition odd_name : gmap string Entry :=
  list_to_map
    [ (SAMPLES_DIR, Directory ["small"]);
      (Py.path_join SAMPLES_DIR "small", Directory ["room_a"]);
      (dir "small" "room_a", Directory []) ].

(** Two groups, [a/1_2] and [a_1/2]. *)
Definition underscores : gmap string Entry :=
  list_to_map
    [ (SAMPLES_DIR, Directory ["a"; "a_1"]);
      (Py.path_join SAMPLES_DIR "a", Directory ["1_2"]);
      (Py.path_join SAMPLES_DIR "a_1", Directory ["2"]);
      (dir "a" "1_2", Directory ["anechoic.wav"; "generated_reverb.wav"]);
      (dir "a_1" "2", Directory ["anechoic.wav"; "generated_reverb.wav"]);
      (Py.path_join (dir "a" "1_2") "anechoic.wav", audio);
      (Py.path_join (dir "a" "1_2") "generated_reverb.wav", audio);
      (Py.path_join (dir "a_1" "2") "anechoic.wav", audio);
      (Py.path_join (dir "a_1" "2") "generated_reverb.wav", audio) ].

(** A group [small/room_1] whose [text_prompt.txt] is not text in the
    encoding of the locale. *)
Definition undecodable_prompt : gmap string Entry :=
  list_to_map
    [ (SAMPLES_DIR, Directory ["small"]);
      (Py.path_join SAMPLES_DIR "small", Directory ["room_1"]);
      (dir "small" "room_1", Directory ["text_prompt.txt"]);
      (Py.path_join (dir "small" "room_1") "text_prompt.txt",
       File Undecodable) ].

Definition noon : datetime := mkDatetime 2025 3 9 12 0 0 0.
Definition env_of (fs : gmap string Entry) : Env :=
  {| fs := fs; rnd := fun _ => O; clock := mkClock noon noon |}.

(** The same environment [seconds] seconds after noon. *)
Definition after (seconds : nat) (fs : gmap string Entry) : Env :=
  let later := mkDatetime 2025 3 9 12 0 seconds 0 in
  {| fs := fs; rnd := fun _ => O; clock := mkClock later later |}.

(** Actions that all happen in the environment [env]. *)
Definition during (env : Env) (uis : list UI) : list (Env * UI) :=
  pair env <$> uis.

Definition loaded (fs : gmap string Entry) : list Sample :=
  match load_evaluation_samples fs with
  | Ok (l, _) => l
  | Raise _ => []
  end.

(** The catalogs of [both] and [single]. *)
Definition samples_both : list Sample := Eval vm_compute in loaded both.
Definition samples_single : list Sample := Eval vm_compute in loaded single.

(** The rater looks at the first of two samples, nothing rated yet. *)
Definition at_first : SessionState :=
  {| current_sample_idx := 0; sample_order := [1; 0]%nat;
     ratings := ∅; samples := Some samples_both |}.

(** The rater looks at the second of two samples. *)
Definition at_second : SessionState :=
  {| current_sample_idx := 1; sample_order := [1; 0]%nat;
     ratings := ∅; samples := Some samples_both |}.

(** The rater looks at the only sample of a catalog of one. *)
Definition at_only : SessionState :=
  {| current_sample_idx := 0; sample_order := [0]%nat;
     ratings := ∅; samples := Some samples_single |}.

(** The run a session ends with (the start state if it raised). *)
Definition outcome (result : Result Run) : Run :=
  match result with
  | Ok r => r
  | Raise _ => {| state := init_session_state; store := ∅; shown := [];
                  view := Rerun |}
  end.

Definition run_after (env : Env) (uis : list UI) : Run :=
  outcome (session env ∅ (during env uis)).

Definition rate (b : Button) (quality_value match_value : Z) : UI :=
  {| clicked := b; quality_input := Some quality_value;
     match_input := Some match_value |}.

End Corpus.

(** * Properties *)

(** ** The model on small inputs *)

Example split_ex : Py.split "_" "room_a_12" = ["room"; "a"; "12"].
Proof. reflexivity. Qed.
Example int_ex : Py.int " -12 " = Ok (-12).
Proof. reflexivity. Qed.
Example stamp_ex :
  results_filename (mkDatetime 2025 3 9 14 5 7 120) =
  "evaluation_results/evaluation_20250309_140507.json".
Proof. reflexivity. Qed.
Example iso_ex :
  isoformat (mkDatetime 2025 3 9 14 5 7 120) = "2025-03-09T14:05:07.000120".
Proof. reflexivity. Qed.
Example sample_ex : random_sample (fun i => (7 * i + 3)%nat) 4 = [3; 1; 2; 0]%nat.
Proof. reflexivity. Qed.

(** A catalog of one sample rated 4 and 5: the session completes and the
    record holds that one rating, presented at position 0. *)
Example one_sample_session :
  let r := Corpus.run_after (Corpus.env_of Corpus.single)
             [Corpus.rate NextClick 4 5] in
  view r = ShowCompletion /\
  store r !! results_filename Corpus.noon =
  Some (Whole {| results_ratings :=
                   {[ "large_hall_0_generated" :=
                        Rating.mk "large_hall_0_generated" "large" generated
                                  4 5 0 ]};
                 completion_time := "2025-03-09T12:00:00" |}).
Proof. split; vm_compute; reflexivity. Qed.

(** Two samples: the first is rated 3 and 3, the rater comes back from the
    second (leaving 4 and 4 there), changes the first to 2 and 2 and goes
    through to the end: one rating per sample, the first with the later
    scores. *)
Example two_samples_session :
  let r := Corpus.run_after (Corpus.env_of Corpus.both)
             [Corpus.rate NextClick 3 3; Corpus.rate PrevClick 4 4;
              Corpus.rate NextClick 2 2; press NextClick] in
  view r = ShowCompletion /\
  map_to_list (ratings (state r)) =
  [ ("small_room_1_generated",
     Rating.mk "small_room_1_generated" "small" generated 2 2 0);
    ("small_room_1_ground_truth",
     Rating.mk "small_room_1_ground_truth" "small" ground_truth 4 4 1) ].
Proof. split; vm_compute; reflexivity. Qed.

(** ** Results and Python indexing *)

Lemma bind_Ok {A B} (r : Result A) (k : A -> Result B) (b : B) :
  bind r k = Ok b -> exists a, r = Ok a /\ k a = Ok b.
Proof. destruct r as [a|e]; simpl; [eauto | discriminate]. Qed.

Lemma index_nonneg {A} (l : list A) (i : Z) (x : A) :
  0 <= i -> l !! Z.to_nat i = Some x -> Py.index l i = Ok x.
Proof.
  intros Hi Hx. unfold Py.index.
  pose proof (lookup_lt_Some _ _ _ Hx) as Hlt.
  destruct (Z.ltb_spec i 0); [lia|].
  destruct (Z.leb_spec 0 i); [|lia].
  destruct (Z.ltb_spec i (Z.of_nat (length l))); [|lia].
  simpl. now rewrite Hx.
Qed.

Lemma index_nat {A} (l : list A) (n : nat) (x : A) :
  l !! n = Some x -> Py.index l (Z.of_nat n) = Ok x.
Proof.
  intros Hx. apply index_nonneg; [lia|]. now rewrite Nat2Z.id.
Qed.

(** ** The pool algorithm draws a permutation *)

Lemma pool_step (pool : list nat) (m j : nat) :
  (j < S m)%nat -> (S m <= length pool)%nat ->
  take (S m) pool ≡ₚ (pool !!! j) :: take m (<[j := pool !!! m]> pool).
Proof.
  intros Hj Hm.
  assert (Hlast : pool !! m = Some (pool !!! m))
    by (apply list_lookup_lookup_total_lt; lia).
  rewrite (take_S_r _ _ _ Hlast).
  destruct (decide (j = m)) as [->|Hne].
  - rewrite take_insert_ge by lia.
    symmetry. apply Permutation_cons_append.
  - assert (Hjm : (j < m)%nat) by lia.
    rewrite take_insert_lt by lia.
    assert (Hx : take m pool !! j = Some (pool !!! j)).
    { rewrite lookup_take_lt by lia.
      apply list_lookup_lookup_total_lt; lia. }
    rewrite insert_take_drop by (rewrite length_take; lia).
    rewrite <- (take_drop_middle _ _ _ Hx) at 1.
    set (l1 := take j (take m pool)).
    set (l2 := drop (S j) (take m pool)).
    rewrite <- app_assoc. simpl.
    etransitivity; [symmetry; apply Permutation_middle|].
    constructor. apply Permutation_app_head.
    symmetry. apply Permutation_cons_append.
Qed.

Lemma sample_loop_perm (rnd : nat -> nat) (m : nat) :
  forall (i : nat) (pool : list nat),
    (m <= length pool)%nat -> sample_loop rnd i m pool ≡ₚ take m pool.
Proof.
  induction m as [|m IH]; intros i pool Hm; simpl.
  - rewrite take_0. reflexivity.
  - set (j := (rnd i mod S m)%nat).
    assert (Hj : (j < S m)%nat) by (apply Nat.mod_upper_bound; lia).
    rewrite (pool_step pool m j Hj Hm).
    constructor. apply IH. rewrite length_insert. lia.
Qed.

Lemma random_sample_perm (rnd : nat -> nat) (n : nat) :
  random_sample rnd n ≡ₚ seq 0 n.
Proof.
  unfold random_sample.
  rewrite sample_loop_perm by (rewrite length_seq; lia).
  rewrite take_ge by (rewrite length_seq; lia). reflexivity.
Qed.

Lemma random_sample_length (rnd : nat -> nat) (n : nat) :
  length (random_sample rnd n) = n.
Proof.
  rewrite (Permutation_length (random_sample_perm rnd n)).
  apply length_seq.
Qed.

Lemma perm_seq_lookup (order : list nat) (n i position : nat) :
  order ≡ₚ seq 0 n -> order !! i = Some position -> (position < n)%nat.
Proof.
  intros Hp Hi.
  assert (Hin : position ∈ seq 0 n).
  { rewrite <- Hp. eapply list_elem_of_lookup_2; eauto. }
  apply elem_of_seq in Hin. lia.
Qed.

(** ** The session state machine *)

Lemma current_sample_Ok (ss : SessionState) (c : Z) :
  well_formed ss -> Active ss c ->
  exists sample, current_sample ss = Ok sample /\ sample ∈ catalog ss.
Proof.
  intros (Hs & Hperm & _) [Hc Hrange].
  destruct Hs as [l Hl]. unfold catalog in *. rewrite Hl in *.
  destruct (lookup_lt_is_Some_2 (sample_order ss) (Z.to_nat c))
    as [position Hpos]; [lia|].
  pose proof (perm_seq_lookup _ _ _ _ Hperm Hpos) as Hlt.
  destruct (lookup_lt_is_Some_2 l position Hlt) as [sample Hsample].
  exists sample. split.
  - unfold current_sample. rewrite Hc.
    rewrite (index_nonneg _ _ _ (proj1 Hrange) Hpos). simpl.
    rewrite Hl. now apply index_nat.
  - eapply list_elem_of_lookup_2; eauto.
Qed.

Lemma not_complete_yet (ss : SessionState) (c : Z) :
  Active ss c ->
  (Z.of_nat (length (sample_order ss)) <=? current_sample_idx ss) = false.
Proof. intros [-> H]. apply Z.leb_gt. lia. Qed.

Lemma existing_in_range (ss : SessionState) (k : string) :
  ratings_ok ss ->
  1 <= existing_get (ratings ss !! k) Rating.quality <= 5 /\
  1 <= existing_get (ratings ss !! k) Rating.match_ <= 5.
Proof.
  intros Hok. destruct (ratings ss !! k) as [r|] eqn:Hr; simpl; [|lia].
  destruct (Hok _ _ Hr) as (_ & _ & Hq & Hm). auto.
Qed.

(** A slider drawn on a value of its range returns a value of its range,
    wherever the browser says it was moved to. *)
Lemma st_slider_in_range (min_value max_value value : Z)
    (moved : option Z) :
  min_value <= value <= max_value ->
  min_value <= st_slider min_value max_value value moved <= max_value.
Proof.
  intros H. unfold st_slider.
  rewrite Z.min_l, Z.max_l by lia.
  destruct moved as [v|]; [|exact H].
  destruct (Z.leb_spec min_value v), (Z.leb_spec v max_value);
    cbn [andb]; lia.
Qed.

Lemma st_slider_moved (min_value max_value value v : Z) :
  min_value <= v <= max_value ->
  st_slider min_value max_value value (Some v) = v.
Proof.
  intros H. unfold st_slider.
  destruct (Z.leb_spec (Z.min min_value value) v); [|lia].
  destruct (Z.leb_spec v (Z.max max_value value)); [reflexivity | lia].
Qed.

(** The script up to the buttons: the sample is found and both sliders are
    drawn. *)
Lemma eval_active (env : Env) (ss : SessionState)
    (files : gmap string FileContent) (ui : UI) (c : Z) (sample : Sample) :
  Active ss c -> current_sample ss = Ok sample ->
  evaluation_interface env ss files ui =
  let stay :=
    {| state := ss; store := files;
       shown := audio_warnings (fs env) sample;
       view := ShowSample sample
         (st_slider 1 5 (existing_get (ratings ss !! id sample) Rating.quality)
                    (quality_input ui))
         (st_slider 1 5 (existing_get (ratings ss !! id sample) Rating.match_)
                    (match_input ui)) |} in
  let go delta :=
    {| state := leave ss sample ui delta; store := files; shown := [];
       view := Rerun |} in
  if 0 <? c
  then match clicked ui with
       | PrevClick => Ok (go (-1))
       | NextClick => Ok (go 1)
       | NoClick => Ok stay
       end
  else match clicked ui with
       | NextClick => Ok (go 1)
       | _ => Ok stay
       end.
Proof.
  intros Hact Hcur. unfold evaluation_interface.
  rewrite (not_complete_yet ss c Hact), Hcur. cbn [bind].
  destruct Hact as [-> _]. reflexivity.
Qed.

Lemma eval_next (env : Env) (ss : SessionState)
    (files : gmap string FileContent) (ui : UI) (c : Z) (sample : Sample) :
  Active ss c -> current_sample ss = Ok sample ->
  clicked ui = NextClick ->
  evaluation_interface env ss files ui =
  Ok {| state := leave ss sample ui 1; store := files; shown := [];
        view := Rerun |}.
Proof.
  intros Hact Hcur Hclick.
  rewrite (eval_active env ss files ui c sample Hact Hcur).
  cbv zeta. rewrite Hclick. now destruct (0 <? c).
Qed.

Lemma eval_prev (env : Env) (ss : SessionState)
    (files : gmap string FileContent) (ui : UI) (c : Z) (sample : Sample) :
  Active ss c -> 0 < c -> current_sample ss = Ok sample ->
  clicked ui = PrevClick ->
  evaluation_interface env ss files ui =
  Ok {| state := leave ss sample ui (-1); store := files; shown := [];
        view := Rerun |}.
Proof.
  intros Hact Hpos Hcur Hclick.
  rewrite (eval_active env ss files ui c sample Hact Hcur).
  cbv zeta. rewrite Hclick.
  destruct (Z.ltb_spec 0 c); [reflexivity | lia].
Qed.

Lemma eval_stay (env : Env) (ss : SessionState)
    (files : gmap string FileContent) (ui : UI) (c : Z) (sample : Sample) :
  Active ss c -> current_sample ss = Ok sample ->
  clicked ui = NoClick \/ (clicked ui = PrevClick /\ c = 0) ->
  evaluation_interface env ss files ui =
  Ok {| state := ss; store := files;
        shown := audio_warnings (fs env) sample;
        view := ShowSample sample
          (st_slider 1 5 (existing_get (ratings ss !! id sample)
                            Rating.quality) (quality_input ui))
          (st_slider 1 5 (existing_get (ratings ss !! id sample)
                            Rating.match_) (match_input ui)) |}.
Proof.
  intros Hact Hcur Hclick.
  rewrite (eval_active env ss files ui c sample Hact Hcur).
  cbv zeta. destruct Hclick as [->|[-> ->]]; [|reflexivity].
  now destruct (0 <? c).
Qed.

Lemma eval_complete (env : Env) (ss : SessionState)
    (files : gmap string FileContent) (ui : UI) :
  Z.of_nat (length (sample_order ss)) <= current_sample_idx ss ->
  evaluation_interface env ss files ui =
  Ok {| state := ss; store := show_completion (clock env) ss files;
        shown := completion_msgs (clock env); view := ShowCompletion |}.
Proof.
  intros H. unfold evaluation_interface.
  destruct (Z.leb_spec (Z.of_nat (length (sample_order ss)))
                       (current_sample_idx ss)); [reflexivity | lia].
Qed.

(** C1. In state Active(cursor), the Next handler (advance) stores the
    rating of the displayed sample under that sample's id, with the slider
    values and [order_presented = cursor], and adds 1 to the cursor; the
    Previous handler (retreat) exists only when [cursor > 0], makes the same
    write and subtracts 1; at [cursor = 0] a Previous click changes
    nothing. *)
Theorem advance_retreat_write_and_move (env : Env) (ss : SessionState)
    (files : gmap string FileContent) (ui : UI) (cursor : Z) :
  session_inv ss -> Active ss cursor ->
  exists sample,
    current_sample ss = Ok sample /\
    let existing_rating := ratings ss !! id sample in
    let quality_rating :=
      st_slider 1 5 (existing_get existing_rating Rating.quality)
                (quality_input ui) in
    let match_rating :=
      st_slider 1 5 (existing_get existing_rating Rating.match_)
                (match_input ui) in
    let written :=
      <[ id sample :=
           Rating.mk (id sample) (category sample) (condition sample)
                     quality_rating match_rating cursor ]> (ratings ss) in
    let moved delta :=
      {| state := {| current_sample_idx := cursor + delta;
                     sample_order := sample_order ss;
                     ratings := written;
                     samples := samples ss |};
         store := files; shown := []; view := Rerun |} in
    (clicked ui = NextClick ->
       evaluation_interface env ss files ui = Ok (moved 1)) /\
    (clicked ui = PrevClick -> 0 < cursor ->
       evaluation_interface env ss files ui = Ok (moved (-1))) /\
    (clicked ui = PrevClick -> cursor = 0 ->
       exists r, evaluation_interface env ss files ui = Ok r /\
                 state r = ss /\ store r = files /\
                 view r = ShowSample sample quality_rating match_rating).
Proof.
  intros [Hwf Hok] Hact.
  destruct (current_sample_Ok ss cursor Hwf Hact) as (sample & Hcur & _).
  exists sample. split; [exact Hcur|]. cbv zeta.
  assert (Hidx : current_sample_idx ss = cursor) by apply Hact.
  repeat split.
  - intros Hclick. rewrite (eval_next env ss files ui cursor sample); auto.
    unfold leave, navigate, save_rating. now rewrite Hidx.
  - intros Hclick Hpos.
    rewrite (eval_prev env ss files ui cursor sample); auto.
    unfold leave, navigate, save_rating. now rewrite Hidx.
  - intros Hclick Hzero. eexists.
    split; [apply (eval_stay env ss files ui cursor sample); auto|].
    cbn [state store view]. auto.
Qed.

Lemma at_second_inv : session_inv Corpus.at_second.
Proof.
  split.
  - split; [eexists; reflexivity|]. split; [apply perm_swap | simpl; lia].
  - intros k r. simpl. rewrite lookup_empty. discriminate.
Qed.

Lemma advance_retreat_write_and_move_witness :
  exists sample,
    current_sample Corpus.at_second = Ok sample /\
    id sample = "small_room_1_generated" /\
    evaluation_interface (Corpus.env_of Corpus.both) Corpus.at_second
      ∅ (Corpus.rate PrevClick 2 4) =
    Ok {| state := {| current_sample_idx := 0;
                      sample_order := [1; 0]%nat;
                      ratings := {[ id sample :=
                        Rating.mk (id sample) "small" generated 2 4 1 ]};
                      samples := Some Corpus.samples_both |};
          store := ∅; shown := []; view := Rerun |}.
Proof.
  destruct (advance_retreat_write_and_move
              (Corpus.env_of Corpus.both) Corpus.at_second ∅
              (Corpus.rate PrevClick 2 4) 1 at_second_inv)
    as (sample & Hcur & _ & Hprev & _).
  - split; [reflexivity | simpl; lia].
  - exists sample. split; [exact Hcur|].
    assert (Hid : sample = {|
      id := "small_room_1_generated"; category := "small";
      condition := generated; sample_dir := "room_1";
      text_prompt :=
        "A compact bedroom with carpet flooring and soft furnishings";
      anechoic_path := "evaluation_samples/small/room_1/anechoic.wav";
      reverb_path := "evaluation_samples/small/room_1/generated_reverb.wav"
    |}) by (vm_compute in Hcur; congruence).
    split; [now rewrite Hid|].
    rewrite (Hprev eq_refl ltac:(lia)). subst sample. reflexivity.
Defined.

(** ** Reachable states are well formed *)

Lemma leave_ratings_ok (ss : SessionState) (sample : Sample)
    (ui : UI) (delta : Z) :
  ratings_ok ss -> sample ∈ catalog ss ->
  ratings_ok (leave ss sample ui delta).
Proof.
  intros Hok Hin k r.
  destruct (existing_in_range ss (id sample) Hok) as [Heq Hem].
  unfold leave, navigate, save_rating, catalog.
  cbn [ratings samples].
  destruct (decide (id sample = k)) as [<-|Hne].
  - rewrite lookup_insert_eq. intros [= <-].
    cbn [Rating.sample_id Rating.quality Rating.match_].
    split; [reflexivity|]. split; [eauto|].
    split; now apply st_slider_in_range.
  - rewrite lookup_insert_ne by assumption. apply Hok.
Qed.

Lemma leave_well_formed (ss : SessionState) (sample : Sample) (ui : UI)
    (delta : Z) :
  well_formed ss ->
  0 <= current_sample_idx ss + delta
    <= Z.of_nat (length (sample_order ss)) ->
  well_formed (leave ss sample ui delta).
Proof.
  intros (Hs & Hperm & _) Hrange.
  unfold well_formed, leave, navigate, catalog. simpl. auto.
Qed.

(** The invariant is kept by every run, whatever the browser sends. *)
Lemma evaluation_interface_inv (env : Env) (ss : SessionState)
    (files : gmap string FileContent) (ui : UI) (r : Run) :
  session_inv ss ->
  evaluation_interface env ss files ui = Ok r -> session_inv (state r).
Proof.
  intros [Hwf Hok].
  destruct (Z.le_gt_cases (Z.of_nat (length (sample_order ss)))
                          (current_sample_idx ss)) as [Hdone|Hlt].
  { rewrite eval_complete by assumption. intros [= <-]. now split. }
  assert (Hact : Active ss (current_sample_idx ss)).
  { split; [reflexivity|]. destruct Hwf as (_ & _ & H). lia. }
  destruct (current_sample_Ok ss _ Hwf Hact) as (sample & Hcur & Hin).
  rewrite (eval_active env ss files ui _ sample Hact Hcur). cbv zeta.
  assert (Hgo : forall delta,
    0 <= current_sample_idx ss + delta
      <= Z.of_nat (length (sample_order ss)) ->
    session_inv (leave ss sample ui delta)).
  { intros delta Hd. split;
      [now apply leave_well_formed | now apply leave_ratings_ok]. }
  destruct Hact as [_ Hrange].
  destruct (Z.ltb_spec 0 (current_sample_idx ss)), (clicked ui);
    intros [= <-]; simpl; try (now split); apply Hgo; lia.
Qed.

(** On a state that satisfies the invariant the script never raises,
    whatever the input. *)
Lemma evaluation_interface_total (env : Env) (ss : SessionState)
    (files : gmap string FileContent) (ui : UI) :
  session_inv ss -> succeeds (evaluation_interface env ss files ui).
Proof.
  intros [Hwf Hok].
  destruct (Z.le_gt_cases (Z.of_nat (length (sample_order ss)))
                          (current_sample_idx ss)) as [Hdone|Hlt].
  { rewrite eval_complete by assumption. exact I. }
  assert (Hact : Active ss (current_sample_idx ss)).
  { split; [reflexivity|]. destruct Hwf as (_ & _ & H). lia. }
  destruct (current_sample_Ok ss _ Hwf Hact) as (sample & Hcur & _).
  rewrite (eval_active env ss files ui _ sample Hact Hcur). cbv zeta.
  now destruct (0 <? current_sample_idx ss), (clicked ui).
Qed.

Lemma succeeds_Ok {A} (r : Result A) : succeeds r -> exists a, r = Ok a.
Proof. destruct r; simpl; [eauto | tauto]. Qed.

Lemma initialize_loaded (env : Env) (ss : SessionState) :
  is_Some (samples ss) -> initialize env ss = Ok (ss, []).
Proof. intros [l Hl]. unfold initialize. now rewrite Hl. Qed.

Lemma main_loaded (env : Env) (ss : SessionState)
    (files : gmap string FileContent) (ui : UI) :
  is_Some (samples ss) ->
  main env ss files ui =
  let* r := evaluation_interface env ss files ui in
  Ok {| state := state r; store := store r; shown := shown r;
        view := view r |}.
Proof. intros Hs. unfold main. now rewrite initialize_loaded. Qed.

Lemma main_inv (env : Env) (ss : SessionState)
    (files : gmap string FileContent) (ui : UI) (r : Run) :
  session_inv ss ->
  main env ss files ui = Ok r -> session_inv (state r).
Proof.
  intros Hinv. rewrite main_loaded by apply Hinv.
  intros H. apply bind_Ok in H as (r0 & Hr0 & [= <-]). simpl.
  eapply evaluation_interface_inv; eauto.
Qed.

Lemma interact_inv (env : Env) (ss : SessionState)
    (files : gmap string FileContent) (ui : UI) (r : Run) :
  session_inv ss ->
  interact env ss files ui = Ok r -> session_inv (state r).
Proof.
  intros Hinv H. unfold interact in H.
  apply bind_Ok in H as (r1 & Hr1 & H).
  pose proof (main_inv _ _ _ _ _ Hinv Hr1) as Hinv1.
  destruct (view r1); try (injection H as <-; exact Hinv1).
  apply bind_Ok in H as (r2 & Hr2 & [= <-]). simpl.
  exact (main_inv _ _ _ _ _ Hinv1 Hr2).
Qed.

(** The state in which the first run of a session finds the catalog [l]. *)
Lemma loaded_state_inv (rnd : nat -> nat) (l : list Sample) :
  session_inv {| current_sample_idx := 0;
                 sample_order := random_sample rnd (length l);
                 ratings := ∅;
                 samples := Some l |}.
Proof.
  split.
  - split; [eexists; reflexivity|]. simpl.
    split; [apply random_sample_perm | lia].
  - intros k r. simpl. rewrite lookup_empty. discriminate.
Qed.

Lemma start_after_load (env : Env) (files : gmap string FileContent)
    (l : list Sample) (msgs : list Msg) :
  load_evaluation_samples (fs env) = Ok (l, msgs) ->
  let ss := {| current_sample_idx := 0;
               sample_order := random_sample (rnd env) (length l);
               ratings := ∅;
               samples := Some l |} in
  exists r0,
    evaluation_interface env ss files no_input = Ok r0 /\
    state r0 = ss /\
    start env files =
    Ok {| state := ss; store := store r0;
          shown := (msgs ++ shown r0)%list; view := view r0 |}.
Proof.
  intros Hload ss.
  pose proof (loaded_state_inv (rnd env) l) as Hinv. fold ss in Hinv.
  destruct (succeeds_Ok _ (evaluation_interface_total env ss files
                             no_input Hinv)) as [r0 Hr0].
  assert (Hst : state r0 = ss).
  { destruct (Z.le_gt_cases (Z.of_nat (length (sample_order ss)))
                            (current_sample_idx ss)) as [Hdone|Hlt].
    - rewrite eval_complete in Hr0 by assumption. now injection Hr0 as <-.
    - assert (Hact : Active ss 0) by (split; [reflexivity | simpl in *; lia]).
      destruct (current_sample_Ok ss _ (proj1 Hinv) Hact)
        as (sample & Hcur & _).
      rewrite (eval_stay env ss files no_input 0 sample) in Hr0;
        [now injection Hr0 as <- | assumption | assumption | now left]. }
  exists r0. split; [exact Hr0|]. split; [exact Hst|].
  unfold start, main, initialize. simpl. rewrite Hload. simpl.
  fold ss. rewrite Hr0. simpl. now rewrite Hst.
Qed.

Lemma start_loads (env : Env) (files : gmap string FileContent) (r : Run) :
  start env files = Ok r ->
  exists l msgs,
    load_evaluation_samples (fs env) = Ok (l, msgs) /\
    state r = {| current_sample_idx := 0;
                 sample_order := random_sample (rnd env) (length l);
                 ratings := ∅;
                 samples := Some l |}.
Proof.
  intros H.
  destruct (load_evaluation_samples (fs env)) as [[l msgs]|e] eqn:Hload.
  - destruct (start_after_load env files l msgs Hload) as (r0 & _ & _ & Hs).
    rewrite Hs in H. injection H as <-. eauto.
  - unfold start, main, initialize in H. simpl in H.
    rewrite Hload in H. discriminate H.
Qed.

Lemma start_inv (env : Env) (files : gmap string FileContent) (r : Run) :
  start env files = Ok r -> session_inv (state r).
Proof.
  intros H. destruct (start_loads _ _ _ H) as (l & msgs & _ & ->).
  apply loaded_state_inv.
Qed.

Lemma actions_inv (steps : list (Env * UI)) :
  forall r r', session_inv (state r) ->
    actions r steps = Ok r' -> session_inv (state r').
Proof.
  induction steps as [|[env ui] steps IH]; intros r r' Hinv; cbn [actions].
  - now intros [= <-].
  - intros H. apply bind_Ok in H as (r1 & Hr1 & H).
    eapply IH; [|exact H]. eapply interact_inv; eauto.
Qed.

(** The invariant holds at the end of every session, whatever the browser
    sent on the way. *)
Lemma session_state_inv (env : Env) (files : gmap string FileContent)
    (steps : list (Env * UI)) (r : Run) :
  session env files steps = Ok r -> session_inv (state r).
Proof.
  unfold session. intros Hs. apply bind_Ok in Hs as (r0 & Hr0 & Hs).
  eapply actions_inv; eauto using start_inv.
Qed.

Lemma reachable_inv (env : Env) (ss : SessionState) :
  reachable env ss -> session_inv ss.
Proof.
  intros (files & steps & r & _ & Hs & <-).
  eapply session_state_inv; eauto.
Qed.

(** ** The presentation order *)

Lemma seq_count_once (n i : nat) :
  (i < n)%nat -> count_occ Nat.eq_dec (seq 0 n) i = 1%nat.
Proof.
  intros Hi. apply NoDup_count_occ'; [apply List.seq_NoDup|].
  apply in_seq. lia.
Qed.

(** C2. For a catalog of any size N the order drawn at session start is a
    permutation of the indices below N: it has N elements and every index
    below N occurs exactly once. For N = 0 the order is empty and the
    session shows the completion screen at once, without raising. *)
Theorem presentation_order_is_permutation (env : Env)
    (files : gmap string FileContent) (l : list Sample) (msgs : list Msg) :
  load_evaluation_samples (fs env) = Ok (l, msgs) ->
  exists r,
    start env files = Ok r /\
    samples (state r) = Some l /\
    sample_order (state r) = random_sample (rnd env) (length l) /\
    sample_order (state r) ≡ₚ seq 0 (length l) /\
    length (sample_order (state r)) = length l /\
    (forall i, (i < length l)%nat ->
       count_occ Nat.eq_dec (sample_order (state r)) i = 1%nat) /\
    (forall i, i ∈ sample_order (state r) -> (i < length l)%nat) /\
    (l = [] ->
       sample_order (state r) = [] /\ view r = ShowCompletion /\
       Complete (state r)).
Proof.
  intros Hload.
  destruct (start_after_load env files l msgs Hload)
    as (r0 & Hr0 & Hst & Hstart).
  eexists. split; [exact Hstart|]. simpl.
  pose proof (random_sample_perm (rnd env) (length l)) as Hperm.
  split; [reflexivity|]. split; [reflexivity|]. split; [exact Hperm|].
  split; [apply random_sample_length|]. split; [|split].
  - intros i Hi.
    rewrite (proj1 (Permutation_count_occ Nat.eq_dec _ _) Hperm).
    now apply seq_count_once.
  - intros i Hi. rewrite Hperm in Hi. apply elem_of_seq in Hi. lia.
  - intros ->. split; [reflexivity|]. split; [|reflexivity].
    rewrite eval_complete in Hr0 by (simpl; lia). now injection Hr0 as <-.
Qed.

Lemma presentation_order_is_permutation_witness :
  exists r,
    start (Corpus.env_of Corpus.both) ∅ = Ok r /\
    sample_order (state r) ≡ₚ [0; 1]%nat.
Proof.
  destruct (presentation_order_is_permutation (Corpus.env_of Corpus.both) ∅
              Corpus.samples_both [])
    as (r & Hstart & _ & _ & Hperm & _).
  - vm_compute. reflexivity.
  - exists r. split; [exact Hstart | exact Hperm].
Defined.

(** ** One rating per sample *)

Lemma size_list_to_set_le (l : list string) :
  (size (list_to_set l : gset string) <= length l)%nat.
Proof.
  induction l as [|x l IH].
  - now rewrite list_to_set_nil, size_empty.
  - rewrite list_to_set_cons, size_union_alt, size_singleton. simpl.
    assert (Hd : (size (list_to_set l ∖ {[x]} : gset string)
                  <= size (list_to_set l : gset string))%nat).
    { apply subseteq_size. apply subseteq_difference_l. reflexivity. }
    lia.
Qed.

Lemma ratings_size_bound (ss : SessionState) :
  ratings_ok ss -> (size (ratings ss) <= length (catalog ss))%nat.
Proof.
  intros Hok.
  rewrite <- (size_dom (D := gset string)).
  etransitivity; [|etransitivity;
    [apply (size_list_to_set_le (id <$> catalog ss))|]].
  - apply subseteq_size. intros k Hk.
    apply elem_of_dom in Hk as [r Hr].
    destruct (Hok _ _ Hr) as (_ & (s & Hs & <-) & _).
    apply elem_of_list_to_set, list_elem_of_fmap. eauto.
  - now rewrite length_fmap.
Qed.

(** A run without input draws the page of the state it finds and leaves
    the state alone. *)
Lemma main_no_input (env : Env) (ss : SessionState)
    (files : gmap string FileContent) :
  session_inv ss ->
  exists r, main env ss files no_input = Ok r /\ state r = ss /\
            view r <> Rerun.
Proof.
  intros [Hwf Hok]. rewrite main_loaded by apply Hwf.
  destruct (Z.le_gt_cases (Z.of_nat (length (sample_order ss)))
                          (current_sample_idx ss)) as [Hdone|Hlt].
  - rewrite eval_complete by assumption. eexists.
    split; [reflexivity|]. split; [reflexivity | discriminate].
  - assert (Hact : Active ss (current_sample_idx ss)).
    { split; [reflexivity|]. destruct Hwf as (_ & _ & H). lia. }
    destruct (current_sample_Ok ss _ Hwf Hact) as (sample & Hcur & _).
    rewrite (eval_stay env ss files no_input _ sample Hact Hcur
               ltac:(now left)).
    eexists. split; [reflexivity|]. split; [reflexivity | discriminate].
Qed.

(** A click on a button the page has: the handler saves the rating of the
    sample on display and moves the cursor, and the rerun leaves the state
    the handler built. *)
Lemma interact_leave (env : Env) (ss : SessionState)
    (files : gmap string FileContent) (ui : UI) (c delta : Z) :
  session_inv ss -> Active ss c ->
  (clicked ui = NextClick /\ delta = 1 \/
   clicked ui = PrevClick /\ delta = -1 /\ 0 < c) ->
  exists sample r,
    current_sample ss = Ok sample /\ sample ∈ catalog ss /\
    interact env ss files ui = Ok r /\
    state r = leave ss sample ui delta /\ view r <> Rerun.
Proof.
  intros [Hwf Hok] Hact Hclick.
  destruct (current_sample_Ok _ _ Hwf Hact) as (sample & Hcur & Hcat).
  assert (Hrun : evaluation_interface env ss files ui =
    Ok {| state := leave ss sample ui delta; store := files; shown := [];
          view := Rerun |}).
  { destruct Hclick as [[Hc ->]|(Hc & -> & Hpos)].
    - eapply eval_next; eauto.
    - eapply eval_prev; eauto. }
  assert (Hinv' : session_inv (leave ss sample ui delta)).
  { split; [|now apply leave_ratings_ok].
    apply leave_well_formed; [assumption|].
    destruct Hact as [-> Hrange].
    destruct Hclick as [[_ ->]|(_ & -> & Hpos)]; lia. }
  destruct (main_no_input env _ files Hinv') as (r2 & Hr2 & Hst2 & Hview2).
  exists sample. eexists. split; [exact Hcur|]. split; [exact Hcat|].
  split.
  - unfold interact. rewrite main_loaded by apply Hwf.
    rewrite Hrun. cbn [bind state store view shown].
    rewrite Hr2. cbn [bind]. reflexivity.
  - cbn [state view]. split; assumption.
Qed.

(** C3. In every reachable state the ratings hold at most one entry per
    sample id: each entry sits under the id of a sample of the catalog and
    records that id, so the dictionary is never larger than the catalog. A
    click on Next, or on Previous above position 0, leaves under the id of
    the sample on display exactly one entry, with the values of the two
    sliders (the values they were moved to, when moved within the range)
    and the position of the cursor: for a sample that was rated before, the
    entry is replaced and the number of entries stays the same (the later
    scores win, no entry is added), for one that was not, one entry is
    added; the entries of the other ids stay as they are. *)
Theorem one_rating_per_sample (env : Env) (ss : SessionState) :
  reachable env ss ->
  (forall k r, ratings ss !! k = Some r ->
     Rating.sample_id r = k /\ exists s, s ∈ catalog ss /\ id s = k) /\
  (size (ratings ss) <= length (catalog ss))%nat /\
  (forall env' files ui c,
     Active ss c ->
     clicked ui = NextClick \/ (clicked ui = PrevClick /\ 0 < c) ->
     exists sample r,
       current_sample ss = Ok sample /\
       interact env' ss files ui = Ok r /\
       ratings (state r) !! id sample =
         Some (Rating.mk (id sample) (category sample) (condition sample)
                 (st_slider 1 5
                    (existing_get (ratings ss !! id sample) Rating.quality)
                    (quality_input ui))
                 (st_slider 1 5
                    (existing_get (ratings ss !! id sample) Rating.match_)
                    (match_input ui))
                 c) /\
       (forall q m,
          quality_input ui = Some q -> match_input ui = Some m ->
          1 <= q <= 5 -> 1 <= m <= 5 ->
          ratings (state r) !! id sample =
            Some (Rating.mk (id sample) (category sample) (condition sample)
                            q m c)) /\
       (forall k, k <> id sample ->
          ratings (state r) !! k = ratings ss !! k) /\
       (is_Some (ratings ss !! id sample) ->
          size (ratings (state r)) = size (ratings ss)) /\
       (ratings ss !! id sample = None ->
          size (ratings (state r)) = S (size (ratings ss))) /\
       (size (ratings (state r)) <= length (catalog ss))%nat).
Proof.
  intros Hreach. pose proof (reachable_inv _ _ Hreach) as Hinv.
  destruct Hinv as [Hwf Hok].
  split; [|split].
  - intros k r Hr. destruct (Hok _ _ Hr) as (H1 & H2 & _). auto.
  - now apply ratings_size_bound.
  - intros env' files ui c Hact Hclick.
    assert (Hmove : exists delta,
      clicked ui = NextClick /\ delta = 1 \/
      clicked ui = PrevClick /\ delta = -1 /\ 0 < c).
    { destruct Hclick as [Hc|[Hc Hpos]]; eauto 6. }
    destruct Hmove as [delta Hmove].
    destruct (interact_leave env' ss files ui c delta (conj Hwf Hok) Hact
                Hmove) as (sample & r & Hcur & Hcat & Hr & Hst & _).
    exists sample, r. split; [exact Hcur|]. split; [exact Hr|].
    assert (Hidx : current_sample_idx ss = c) by apply Hact.
    assert (Hrat : ratings (state r) =
      <[ id sample :=
           Rating.mk (id sample) (category sample) (condition sample)
             (st_slider 1 5
                (existing_get (ratings ss !! id sample) Rating.quality)
                (quality_input ui))
             (st_slider 1 5
                (existing_get (ratings ss !! id sample) Rating.match_)
                (match_input ui))
             c ]> (ratings ss)).
    { rewrite Hst. unfold leave, navigate, save_rating. cbn [ratings].
      now rewrite Hidx. }
    assert (Hok' : ratings_ok (state r)).
    { rewrite Hst. now apply leave_ratings_ok. }
    assert (Hcat' : catalog (state r) = catalog ss) by now rewrite Hst.
    split; [rewrite Hrat; apply lookup_insert_eq|].
    split; [|split; [|split; [|split]]].
    + intros q m Hq Hm Hqr Hmr. rewrite Hrat, lookup_insert_eq, Hq, Hm.
      now rewrite !st_slider_moved by assumption.
    + intros k Hk. rewrite Hrat. now rewrite lookup_insert_ne by congruence.
    + intros Hsome. rewrite Hrat. now apply map_size_insert_Some.
    + intros Hnone. rewrite Hrat. now apply map_size_insert_None.
    + rewrite <- Hcat'. now apply ratings_size_bound.
Qed.

Lemma one_rating_per_sample_witness :
  let env := Corpus.env_of Corpus.both in
  let ss := state (Corpus.run_after env
                     [Corpus.rate NextClick 4 5; Corpus.rate PrevClick 2 2]) in
  exists sample r,
    current_sample ss = Ok sample /\
    ratings ss !! id sample =
      Some (Rating.mk "small_room_1_generated" "small" generated 4 5 0) /\
    interact env ss ∅ (Corpus.rate NextClick 1 5) = Ok r /\
    ratings (state r) !! id sample =
      Some (Rating.mk "small_room_1_generated" "small" generated 1 5 0) /\
    size (ratings (state r)) = size (ratings ss).
Proof.
  intros env ss.
  assert (Hreach : reachable env ss).
  { exists ∅, (Corpus.during env
                 [Corpus.rate NextClick 4 5; Corpus.rate PrevClick 2 2]),
      (Corpus.run_after env
         [Corpus.rate NextClick 4 5; Corpus.rate PrevClick 2 2]).
    split; [|split; [vm_compute; reflexivity | reflexivity]].
    repeat constructor; simpl; lia. }
  destruct (proj2 (proj2 (one_rating_per_sample env ss Hreach))
              env ∅ (Corpus.rate NextClick 1 5) 0)
    as (sample & r & Hcur & Hr & _ & Hlatest & _ & Hsize & _).
  - split; [reflexivity | vm_compute; split; [discriminate | reflexivity]].
  - now left.
  - exists sample, r.
    assert (Hid : sample = {|
      id := "small_room_1_generated"; category := "small";
      condition := generated; sample_dir := "room_1";
      text_prompt :=
        "A compact bedroom with carpet flooring and soft furnishings";
      anechoic_path := "evaluation_samples/small/room_1/anechoic.wav";
      reverb_path := "evaluation_samples/small/room_1/generated_reverb.wav"
    |}) by (vm_compute in Hcur; congruence).
    assert (Hprior : ratings ss !! id sample =
      Some (Rating.mk "small_room_1_generated" "small" generated 4 5 0))
      by (rewrite Hid; vm_compute; reflexivity).
    split; [exact Hcur|]. split; [exact Hprior|]. split; [exact Hr|].
    split.
    + rewrite (Hlatest 1 5 eq_refl eq_refl ltac:(lia) ltac:(lia)).
      now rewrite Hid.
    + apply Hsize. rewrite Hprior. eauto.
Defined.

(** ** Advancing and going back *)

(** A click on a button that moves to a position inside the order: the
    script runs the handler and, on the rerun, draws the sample found
    there. *)
Lemma interact_move (env : Env) (ss : SessionState)
    (files : gmap string FileContent) (ui : UI) (c delta : Z)
    (sample : Sample) :
  session_inv ss -> Active ss c ->
  current_sample ss = Ok sample -> sample ∈ catalog ss ->
  (clicked ui = NextClick /\ delta = 1 \/
   clicked ui = PrevClick /\ delta = -1 /\ 0 < c) ->
  0 <= c + delta < Z.of_nat (length (sample_order ss)) ->
  exists r, interact env ss files ui = Ok r /\
            state r = leave ss sample ui delta /\ store r = files /\
            Active (state r) (c + delta) /\ session_inv (state r).
Proof.
  intros [Hwf Hok] Hact Hcur Hcat Hclick Hin.
  assert (Hrun : evaluation_interface env ss files ui =
    Ok {| state := leave ss sample ui delta; store := files; shown := [];
          view := Rerun |}).
  { destruct Hclick as [[Hc ->]|(Hc & -> & Hpos)].
    - eapply eval_next; eauto.
    - eapply eval_prev; eauto. }
  assert (Hwf' : well_formed (leave ss sample ui delta)).
  { apply leave_well_formed; [assumption|]. destruct Hact as [-> _]. lia. }
  assert (Hact' : Active (leave ss sample ui delta) (c + delta)).
  { destruct Hact as [Hc _]. split; simpl; [now rewrite Hc | exact Hin]. }
  assert (Hok' : ratings_ok (leave ss sample ui delta))
    by now apply leave_ratings_ok.
  destruct (current_sample_Ok _ _ Hwf' Hact') as (next & Hnext & _).
  pose proof (eval_stay env _ files no_input _ next Hact' Hnext
                ltac:(now left)) as Hstay.
  eexists. split; [|split; [|split; [|split]]].
  - unfold interact. rewrite main_loaded by apply Hwf.
    rewrite Hrun. simpl. rewrite main_loaded by apply Hwf'.
    rewrite Hstay. simpl. reflexivity.
  - reflexivity.
  - reflexivity.
  - exact Hact'.
  - now split.
Qed.

Lemma same_scores_refl (r : Rating.t) : same_scores r r.
Proof. now split. Qed.

(** C4 (amended). From Active(c) with another position after c, advance
    followed at once by retreat with the sliders untouched puts the cursor
    back on c. The retreat records the sample at position c + 1 with the
    values its sliders were drawn with: if that sample had a rating, the
    ratings keep their keys and scores (only [order_presented], and the
    copied fields, of that entry are written again); if it had none, an
    entry with the default scores 3 and 3 is added for it. Either way the
    entry of that sample now records position c + 1. Every other entry is
    left alone. *)
Theorem advance_then_retreat (env : Env) (ss : SessionState)
    (files : gmap string FileContent) (ui : UI) (c : Z) :
  session_inv ss -> ui_ok ui -> Active ss c ->
  c + 1 < Z.of_nat (length (sample_order ss)) ->
  clicked ui = NextClick ->
  exists r1 r2 next,
    interact env ss files ui = Ok r1 /\
    current_sample (state r1) = Ok next /\
    interact env (state r1) (store r1) (press PrevClick) = Ok r2 /\
    current_sample_idx (state r2) = c /\
    sample_order (state r2) = sample_order ss /\
    (forall k r, ratings (state r1) !! k = Some r ->
       exists r', ratings (state r2) !! k = Some r' /\ same_scores r r') /\
    (forall k, k <> id next ->
       ratings (state r2) !! k = ratings (state r1) !! k) /\
    (is_Some (ratings (state r1) !! id next) ->
       same_content (ratings (state r2)) (ratings (state r1))) /\
    (ratings (state r1) !! id next = None ->
       ratings (state r2) =
       <[ id next := Rating.mk (id next) (category next) (condition next)
                               3 3 (c + 1) ]> (ratings (state r1))) /\
    ratings (state r2) !! id next =
      Some (Rating.mk (id next) (category next) (condition next)
              (existing_get (ratings (state r1) !! id next) Rating.quality)
              (existing_get (ratings (state r1) !! id next) Rating.match_)
              (c + 1)).
Proof.
  intros Hinv Hui Hact Hlt Hclick.
  destruct (current_sample_Ok _ _ (proj1 Hinv) Hact)
    as (sample & Hcur & Hcat).
  destruct (interact_move env ss files ui c 1 sample Hinv Hact Hcur Hcat)
    as (r1 & Hr1 & Hs1 & Hf1 & Hact1 & Hinv1);
    [auto | destruct Hact; lia |].
  destruct (current_sample_Ok _ _ (proj1 Hinv1) Hact1)
    as (next & Hnext & Hcat1).
  assert (Hlen1 : sample_order (state r1) = sample_order ss)
    by now rewrite Hs1.
  destruct (interact_move env (state r1) (store r1) (press PrevClick)
              (c + 1) (-1) next Hinv1 Hact1 Hnext Hcat1)
    as (r2 & Hr2 & Hs2 & _ & Hact2 & _).
  { right. repeat split. destruct Hact; lia. }
  { rewrite Hlen1. destruct Hact; lia. }
  exists r1, r2, next.
  assert (Hidx1 : current_sample_idx (state r1) = c + 1) by apply Hact1.
  assert (Hrat : ratings (state r2) =
    <[ id next := Rating.mk (id next) (category next) (condition next)
         (existing_get (ratings (state r1) !! id next) Rating.quality)
         (existing_get (ratings (state r1) !! id next) Rating.match_)
         (c + 1) ]> (ratings (state r1))).
  { rewrite Hs2. unfold leave, navigate, save_rating. simpl.
    now rewrite Hidx1. }
  assert (Hother : forall k, k <> id next ->
            ratings (state r2) !! k = ratings (state r1) !! k).
  { intros k Hk. rewrite Hrat. now rewrite lookup_insert_ne by congruence. }
  assert (Hkeep : forall k r, ratings (state r1) !! k = Some r ->
            exists r', ratings (state r2) !! k = Some r' /\ same_scores r r').
  { intros k r Hk. destruct (decide (k = id next)) as [->|Hne].
    - rewrite Hrat, lookup_insert_eq, Hk. eexists. split; [reflexivity|].
      now split.
    - rewrite (Hother k Hne), Hk. eauto using same_scores_refl. }
  repeat split; try assumption.
  - destruct Hact2 as [-> _]. lia.
  - rewrite Hs2. simpl. exact Hlen1.
  - intros [r Hr] k. destruct (decide (k = id next)) as [->|Hne].
    + destruct (Hkeep _ _ Hr) as (r' & -> & [Hq Hm]). rewrite Hr.
      now split.
    + rewrite (Hother k Hne).
      destruct (ratings (state r1) !! k); [apply same_scores_refl | exact I].
  - intros Hnone. rewrite Hrat, Hnone. reflexivity.
  - rewrite Hrat. apply lookup_insert_eq.
Qed.

Lemma at_first_inv : session_inv Corpus.at_first.
Proof.
  split.
  - split; [eexists; reflexivity|]. split; [apply perm_swap | simpl; lia].
  - intros k r. simpl. rewrite lookup_empty. discriminate.
Qed.

Lemma advance_then_retreat_witness :
  exists r1 r2,
    interact (Corpus.env_of Corpus.both) Corpus.at_first ∅
      (Corpus.rate NextClick 4 5) = Ok r1 /\
    interact (Corpus.env_of Corpus.both) (state r1) (store r1)
      (press PrevClick) = Ok r2 /\
    current_sample_idx (state r2) = 0.
Proof.
  destruct (advance_then_retreat (Corpus.env_of Corpus.both)
              Corpus.at_first ∅ (Corpus.rate NextClick 4 5) 0)
    as (r1 & r2 & next & H1 & _ & H2 & H3 & _).
  - exact at_first_inv.
  - split; simpl; lia.
  - split; [reflexivity | simpl; lia].
  - simpl. lia.
  - reflexivity.
  - exists r1, r2. auto.
Defined.

(** C4 as stated fails on two counts. With two samples and nothing rated,
    advance (scores 4 and 5) and then retreat with the sliders untouched
    leaves two ratings where advance had left one: the second sample, never
    rated by the rater, now has the scores 3 and 3. And from the last
    position advance ends the session: a click on Previous then changes
    nothing and the cursor stays behind the last position. *)
Lemma advance_retreat_changes_ratings :
  let env := Corpus.env_of Corpus.both in
  (exists r0 r1 r2,
     session env ∅ [] = Ok r0 /\ Active (state r0) 0 /\
     interact env (state r0) (store r0) (Corpus.rate NextClick 4 5)
       = Ok r1 /\
     interact env (state r1) (store r1) (press PrevClick) = Ok r2 /\
     ratings (state r1) !! "small_room_1_ground_truth" = None /\
     ratings (state r2) !! "small_room_1_ground_truth" =
       Some (Rating.mk "small_room_1_ground_truth" "small" ground_truth
                       3 3 1) /\
     ~ same_content (ratings (state r2)) (ratings (state r1)) /\
     ~ same_content (ratings (state r2)) (ratings (state r0))) /\
  (exists r0 r1 r2,
     session env ∅ [(env, Corpus.rate NextClick 3 3)] = Ok r0 /\
     Active (state r0) 1 /\
     interact env (state r0) (store r0) (Corpus.rate NextClick 4 5)
       = Ok r1 /\
     view r1 = ShowCompletion /\
     interact env (state r1) (store r1) (press PrevClick) = Ok r2 /\
     current_sample_idx (state r2) = 2).
Proof.
  intros env. split.
  - eexists _, _, _.
    split; [vm_compute; reflexivity|].
    split; [split; [reflexivity | simpl; lia]|].
    split; [vm_compute; reflexivity|].
    split; [vm_compute; reflexivity|].
    split; [vm_compute; reflexivity|].
    split; [vm_compute; reflexivity|].
    split; intros H; specialize (H "small_room_1_ground_truth");
      vm_compute in H; exact H.
  - eexists _, _, _.
    split; [vm_compute; reflexivity|].
    split; [split; [reflexivity | simpl; lia]|].
    split; [vm_compute; reflexivity|].
    split; [reflexivity|].
    split; [vm_compute; reflexivity|].
    reflexivity.
Qed.

(** ** The catalog loader *)

Lemma for_each_Ok {A B} (body : A -> Result (list B)) (l : list A)
    (out : list B) :
  for_each body l = Ok out ->
  Forall (fun x => succeeds (body x)) l /\
  forall y, y ∈ out <-> exists x ys, x ∈ l /\ body x = Ok ys /\ y ∈ ys.
Proof.
  revert out. induction l as [|x l IH]; intros out; simpl.
  - intros [= <-]. split; [constructor|].
    intros y. split.
    + intros H. inversion H.
    + intros (x & ys & H & _). inversion H.
  - intros H. apply bind_Ok in H as (ys & Hys & H).
    apply bind_Ok in H as (zs & Hzs & [= <-]).
    destruct (IH _ Hzs) as [Hall Hiff]. split.
    + constructor; [now rewrite Hys | exact Hall].
    + intros y. rewrite elem_of_app, Hiff. split.
      * intros [Hy|(x' & ys' & Hx' & Hb & Hy)].
        -- exists x, ys. split; [left|]; auto.
        -- exists x', ys'. split; [right|]; auto.
      * intros (x' & ys' & Hx' & Hb & Hy).
        apply elem_of_cons in Hx' as [->|Hx'].
        -- left. congruence.
        -- right. eauto.
Qed.

Lemma emit_elem (fs : gmap string Entry)
    (category sample_dir prompt : string) (s : Sample) :
  s ∈ emit fs category sample_dir (group_path category sample_dir) prompt
  <->
  exists c,
    resolves fs category sample_dir c /\
    s = make_sample category sample_dir prompt c
          (Py.path_join (group_path category sample_dir) "anechoic.wav")
          (Py.path_join (group_path category sample_dir) (variant_file c)).
Proof.
  unfold emit, resolves.
  set (a := Os.path_exists fs (Py.path_join _ "anechoic.wav")).
  set (g := Os.path_exists fs (Py.path_join _ "generated_reverb.wav")).
  set (t := Os.path_exists fs (Py.path_join _ "ground_truth_reverb.wav")).
  rewrite elem_of_app. split.
  - intros [H|H].
    + exists generated. cbn [variant_file]. fold a g.
      destruct a, g; cbn [andb] in H;
        first [now inversion H | apply list_elem_of_singleton in H; auto].
    + exists ground_truth. cbn [variant_file]. fold a t.
      destruct a, t; cbn [andb] in H;
        first [now inversion H | apply list_elem_of_singleton in H; auto].
  - intros ([|] & [Ha Hv] & ->); cbn [variant_file] in *.
    + left. fold a in Ha. fold g in Hv. rewrite Ha, Hv. cbn [andb].
      now apply list_elem_of_singleton.
    + right. fold a in Ha. fold t in Hv. rewrite Ha, Hv. cbn [andb].
      now apply list_elem_of_singleton.
Qed.

Lemma emit_length (fs : gmap string Entry)
    (category sample_dir sample_path prompt : string) :
  (length (emit fs category sample_dir sample_path prompt) <= 2)%nat.
Proof.
  unfold emit. rewrite length_app.
  repeat match goal with |- context [if ?b then _ else _] => destruct b end;
    simpl; lia.
Qed.

(** A sample is in the catalog exactly when it is one of the samples
    emitted for a visited group whose prompt could be resolved. *)
Lemma load_elem (fs : gmap string Entry) (l : list Sample)
    (msgs : list Msg) :
  load_evaluation_samples fs = Ok (l, msgs) ->
  forall s, s ∈ l <->
    exists category sample_dir prompt,
      visited fs category sample_dir /\
      resolve_text_prompt fs category sample_dir
        (group_path category sample_dir) = Ok prompt /\
      s ∈ emit fs category sample_dir (group_path category sample_dir)
            prompt.
Proof.
  unfold load_evaluation_samples.
  destruct (Os.path_exists fs SAMPLES_DIR) eqn:Hroot; simpl.
  2:{ intros [= <- <-] s. split; [intros H; inversion H|].
      intros (c & d & p & (cs & ns & Hls & _) & _).
      unfold Os.listdir in Hls. unfold Os.path_exists in Hroot.
      destruct (fs !! SAMPLES_DIR); discriminate. }
  intros H. apply bind_Ok in H as (categories & Hcats & H).
  apply bind_Ok in H as (samples & Hsamples & [= <- <-]).
  destruct (for_each_Ok _ _ _ Hsamples) as [_ Hiff].
  intros s. rewrite Hiff. split.
  - intros (category & ys & Hcat & Hbody & Hs).
    unfold load_category in Hbody.
    destruct (Os.path_isdir fs (Py.path_join SAMPLES_DIR category))
      eqn:Hdir; simpl in Hbody; [|injection Hbody as <-; inversion Hs].
    apply bind_Ok in Hbody as (names & Hnames & Hgroups).
    destruct (for_each_Ok _ _ _ Hgroups) as [_ Hiff2].
    apply Hiff2 in Hs as (sample_dir & zs & Hin & Hgroup & Hs).
    unfold load_group in Hgroup. fold (group_path category sample_dir) in *.
    destruct (Os.path_isdir fs (group_path category sample_dir)) eqn:Hdir2;
      simpl in Hgroup; [|injection Hgroup as <-; inversion Hs].
    apply bind_Ok in Hgroup as (prompt & Hprompt & [= <-]).
    exists category, sample_dir, prompt.
    split; [|split; assumption].
    exists categories, names. auto 10.
  - intros (category & sample_dir & prompt & Hv & Hprompt & Hs).
    destruct Hv as (cs & names & Hcs & Hcat & Hdir & Hnames & Hin & Hdir2).
    rewrite Hcats in Hcs. injection Hcs as <-.
    destruct (for_each_Ok _ _ _ Hsamples) as [Hall _].
    rewrite Forall_forall in Hall. specialize (Hall _ Hcat).
    apply succeeds_Ok in Hall as [ys Hys].
    exists category, ys. split; [assumption|]. split; [assumption|].
    unfold load_category in Hys. rewrite Hdir, Hnames in Hys.
    simpl in Hys.
    destruct (for_each_Ok _ _ _ Hys) as [_ Hiff2]. apply Hiff2.
    exists sample_dir, (emit fs category sample_dir
                          (group_path category sample_dir) prompt).
    split; [assumption|]. split; [|assumption].
    unfold load_group. fold (group_path category sample_dir).
    rewrite Hdir2, Hprompt. reflexivity.
Qed.

(** When the loader returns, the prompt of every visited group was
    resolved and the samples emitted for the group are in the catalog. *)
Lemma load_visited (fs : gmap string Entry) (l : list Sample)
    (msgs : list Msg) (cat dir : string) :
  load_evaluation_samples fs = Ok (l, msgs) -> visited fs cat dir ->
  exists prompt,
    resolve_text_prompt fs cat dir (group_path cat dir) = Ok prompt /\
    forall s, s ∈ emit fs cat dir (group_path cat dir) prompt -> s ∈ l.
Proof.
  intros Hload Hv.
  assert (Hprompt : exists prompt,
    resolve_text_prompt fs cat dir (group_path cat dir) = Ok prompt).
  { destruct Hv as (cs & names & Hcs & Hcat & Hdir & Hnames & Hin & Hdir2).
    unfold load_evaluation_samples in Hload.
    destruct (Os.path_exists fs SAMPLES_DIR) eqn:Hroot; simpl in Hload.
    2:{ unfold Os.listdir in Hcs. unfold Os.path_exists in Hroot.
        destruct (fs !! SAMPLES_DIR); discriminate. }
    rewrite Hcs in Hload. simpl in Hload.
    apply bind_Ok in Hload as (samples & Hsamples & _).
    destruct (for_each_Ok _ _ _ Hsamples) as [Hall _].
    rewrite Forall_forall in Hall. specialize (Hall _ Hcat).
    unfold load_category in Hall. rewrite Hdir, Hnames in Hall.
    simpl in Hall. apply succeeds_Ok in Hall as [ys Hys].
    destruct (for_each_Ok _ _ _ Hys) as [Hall2 _].
    rewrite Forall_forall in Hall2. specialize (Hall2 _ Hin).
    unfold load_group in Hall2. fold (group_path cat dir) in Hall2.
    rewrite Hdir2 in Hall2. simpl in Hall2.
    destruct (resolve_text_prompt fs cat dir (group_path cat dir));
      [eauto | destruct Hall2]. }
  destruct Hprompt as [prompt Hprompt]. exists prompt.
  split; [assumption|]. intros s Hs.
  apply (load_elem _ _ _ Hload). eauto 6.
Qed.

(** The samples of the catalog are determined by their key. *)
Lemma load_sample_shape (fs : gmap string Entry) (l : list Sample)
    (msgs : list Msg) (s : Sample) :
  load_evaluation_samples fs = Ok (l, msgs) -> s ∈ l ->
  exists prompt,
    resolve_text_prompt fs (category s) (sample_dir s)
      (group_path (category s) (sample_dir s)) = Ok prompt /\
    s = make_sample (category s) (sample_dir s) prompt (condition s)
          (Py.path_join (group_path (category s) (sample_dir s))
                        "anechoic.wav")
          (Py.path_join (group_path (category s) (sample_dir s))
                        (variant_file (condition s))).
Proof.
  intros Hload Hs.
  apply (load_elem _ _ _ Hload) in Hs as (cat & dir & prompt & _ & Hp & Hs).
  apply emit_elem in Hs as (c & _ & ->). simpl. eauto.
Qed.

Lemma for_each_NoDup {A B} (body : A -> Result (list B)) (proj : B -> A)
    (l : list A) (out : list B) :
  NoDup l -> for_each body l = Ok out ->
  (forall x ys, x ∈ l -> body x = Ok ys ->
     NoDup ys /\ forall y, y ∈ ys -> proj y = x) ->
  NoDup out.
Proof.
  revert out. induction l as [|x l IH]; intros out Hnd; simpl.
  - intros [= <-] _. constructor.
  - intros H Hbody. apply bind_Ok in H as (ys & Hys & H).
    apply bind_Ok in H as (zs & Hzs & [= <-]).
    apply NoDup_cons in Hnd as [Hx Hnd].
    destruct (Hbody x ys ltac:(left) Hys) as [Hnd_ys Hproj].
    apply NoDup_app. split; [assumption|]. split.
    + intros y Hy Hy'.
      destruct (for_each_Ok _ _ _ Hzs) as [_ Hiff].
      apply Hiff in Hy' as (x' & ys' & Hx' & Hb' & Hy').
      destruct (Hbody x' ys' ltac:(now right) Hb') as [_ Hproj'].
      rewrite <- (Hproj y Hy), (Hproj' y Hy') in Hx. contradiction.
    + apply IH; [assumption | assumption |].
      intros x' ys' Hx'. apply Hbody. now right.
Qed.

Lemma emit_NoDup (fs : gmap string Entry)
    (cat dir sample_path prompt : string) :
  NoDup (emit fs cat dir sample_path prompt) /\
  forall s, s ∈ emit fs cat dir sample_path prompt ->
    category s = cat /\ sample_dir s = dir.
Proof.
  unfold emit.
  repeat match goal with |- context [if ?b then _ else _] => destruct b end;
    cbn [app]; split;
    repeat first [ apply NoDup_nil_2 | apply NoDup_singleton
                 | apply NoDup_cons_2 ];
    try (intros s Hs;
         repeat (apply elem_of_cons in Hs as [->|Hs]; [now split|]);
         now inversion Hs).
  intros H. apply list_elem_of_singleton in H. discriminate H.
Qed.

Lemma load_NoDup (fs : gmap string Entry) (l : list Sample)
    (msgs : list Msg) :
  listings_distinct fs ->
  load_evaluation_samples fs = Ok (l, msgs) -> NoDup l.
Proof.
  intros Hdistinct. unfold load_evaluation_samples.
  destruct (Os.path_exists fs SAMPLES_DIR); simpl;
    [|intros [= <- <-]; constructor].
  intros H. apply bind_Ok in H as (categories & Hcats & H).
  apply bind_Ok in H as (samples & Hsamples & [= <- <-]).
  assert (Hlist : forall p names, Os.listdir fs p = Ok names -> NoDup names).
  { intros p names. unfold Os.listdir.
    destruct (fs !! p) as [[|names']|] eqn:E; try discriminate.
    intros [= <-]. eapply Hdistinct; eauto. }
  assert (Hcategory : forall cat ys, load_category fs cat = Ok ys ->
            NoDup ys /\ forall s, s ∈ ys -> category s = cat).
  { intros cat ys. unfold load_category.
    destruct (Os.path_isdir fs (Py.path_join SAMPLES_DIR cat)); simpl.
    2:{ intros [= <-]. split; [constructor|]. intros s Hs. inversion Hs. }
    intros Hb. apply bind_Ok in Hb as (names & Hnames & Hgroups).
    assert (Hgroup : forall dir zs,
              load_group fs cat (Py.path_join SAMPLES_DIR cat) dir = Ok zs ->
              NoDup zs /\
              forall s, s ∈ zs -> category s = cat /\ sample_dir s = dir).
    { intros dir zs. unfold load_group.
      destruct (Os.path_isdir fs _); simpl.
      2:{ intros [= <-]. split; [constructor|]. intros s Hs. inversion Hs. }
      intros Hg. apply bind_Ok in Hg as (prompt & _ & [= <-]).
      apply emit_NoDup. }
    split.
    - eapply (for_each_NoDup _ sample_dir); [eapply Hlist; eauto|eauto|].
      intros dir zs _ Hz. destruct (Hgroup _ _ Hz) as [Hnd Hin].
      split; [assumption|]. intros s Hs. now apply Hin.
    - intros s Hs. destruct (for_each_Ok _ _ _ Hgroups) as [_ Hiff].
      apply Hiff in Hs as (dir & zs & _ & Hz & Hs).
      now apply (Hgroup _ _ Hz). }
  eapply (for_each_NoDup _ category); [eapply Hlist; eauto|eauto|].
  intros cat ys _ Hy. now apply Hcategory.
Qed.

(** The samples a returning loader took from one group: at most two, when
    every directory listing names each entry once. *)
Lemma group_at_most_two (fs : gmap string Entry) (l : list Sample)
    (msgs : list Msg) (cat dir : string) :
  listings_distinct fs ->
  load_evaluation_samples fs = Ok (l, msgs) ->
  (length (filter (fun s => category s = cat /\ sample_dir s = dir) l)
   <= 2)%nat.
Proof.
  intros Hdistinct Hload.
  set (group := filter (fun s => category s = cat /\ sample_dir s = dir) l).
  assert (Hnd : NoDup group) by (apply NoDup_filter; eapply load_NoDup; eauto).
  destruct (resolve_text_prompt fs cat dir (group_path cat dir))
    as [prompt|e] eqn:Hprompt.
  - set (both := [ make_sample cat dir prompt generated
                     (Py.path_join (group_path cat dir) "anechoic.wav")
                     (Py.path_join (group_path cat dir)
                                   (variant_file generated));
                   make_sample cat dir prompt ground_truth
                     (Py.path_join (group_path cat dir) "anechoic.wav")
                     (Py.path_join (group_path cat dir)
                                   (variant_file ground_truth)) ]).
    assert (Hsub : group ⊆+ both).
    { apply NoDup_submseteq; [exact Hnd|]. intros s Hs.
      apply list_elem_of_filter in Hs as [[Hc Hd] Hs].
      destruct (load_sample_shape _ _ _ _ Hload Hs) as (p & Hp & Heq).
      rewrite Hc, Hd in Hp, Heq. rewrite Hprompt in Hp. injection Hp as <-.
      rewrite Heq. destruct (condition s).
      - apply elem_of_cons. now left.
      - apply elem_of_cons. right. apply elem_of_cons. now left. }
    apply submseteq_length in Hsub. exact Hsub.
  - destruct group as [|s group'] eqn:Hgroup; [simpl; lia|].
    assert (Hs : s ∈ group) by (rewrite Hgroup; now left).
    apply list_elem_of_filter in Hs as [[Hc Hd] Hs].
    destruct (load_sample_shape _ _ _ _ Hload Hs) as (p & Hp & _).
    rewrite Hc, Hd, Hprompt in Hp. discriminate Hp.
Qed.

(** C5. A sample is in the catalog if and only if its dry audio and the
    audio of its variant both exist: every sample of the catalog has two
    existing references, a visited group contributes the sample of a
    variant exactly when the dry audio and that variant resolve, and a
    group emits at most two samples (so that, every directory listing
    naming each entry once, the catalog holds at most two samples of any
    one group). *)
Theorem sample_iff_both_references_resolve (fs : gmap string Entry)
    (l : list Sample) (msgs : list Msg) :
  load_evaluation_samples fs = Ok (l, msgs) ->
  (forall s, s ∈ l ->
     Os.path_exists fs (anechoic_path s) = true /\
     Os.path_exists fs (reverb_path s) = true) /\
  (forall cat dir c, visited fs cat dir ->
     ((exists s, s ∈ l /\ category s = cat /\ sample_dir s = dir /\
                 condition s = c)
      <-> resolves fs cat dir c)) /\
  (forall cat dir sample_path prompt,
     (length (emit fs cat dir sample_path prompt) <= 2)%nat) /\
  (listings_distinct fs -> forall cat dir,
     (length (filter (fun s => category s = cat /\ sample_dir s = dir) l)
      <= 2)%nat).
Proof.
  intros Hload. split; [|split; [|split]].
  - intros s Hs.
    apply (load_elem _ _ _ Hload) in Hs as (cat & dir & prompt & _ & _ & Hs).
    apply emit_elem in Hs as (c & [Ha Hv] & ->). simpl. auto.
  - intros cat dir c Hv. split.
    + intros (s & Hs & Hcat & Hdir & Hc).
      apply (load_elem _ _ _ Hload) in Hs
        as (cat' & dir' & prompt & _ & _ & Hs).
      apply emit_elem in Hs as (c' & Hres & ->). simpl in *.
      now subst.
    + intros Hres.
      destruct (load_visited _ _ _ _ _ Hload Hv) as (prompt & _ & Hin).
      eexists. split; [apply Hin, emit_elem; eauto|]. simpl. auto.
  - intros. apply emit_length.
  - intros Hdistinct cat dir. eapply group_at_most_two; eauto.
Qed.

Lemma sample_iff_both_references_resolve_witness :
  Forall (fun s => Os.path_exists Corpus.both (anechoic_path s) = true /\
                   Os.path_exists Corpus.both (reverb_path s) = true)
         Corpus.samples_both.
Proof.
  apply Forall_forall. intros s Hs.
  apply (proj1 (sample_iff_both_references_resolve Corpus.both
                  Corpus.samples_both [] ltac:(vm_compute; reflexivity))).
  exact Hs.
Defined.

(** ** Resolving the text prompt *)

Lemma dict_get_prompts_length (cat : string) (prompt_list : list string) :
  dict_get prompts cat = Some prompt_list -> length prompt_list = 2%nat.
Proof.
  unfold prompts, dict_get.
  repeat (destruct (String.eqb _ cat); [now intros [= <-]|]).
  discriminate.
Qed.

(** What [get_demo_text_prompt] returns on a position that is not
    negative: the phrase at that position, the first phrase of the category
    when the position is past the end, the generic phrase for a category
    without phrases. *)
Lemma get_demo_text_prompt_cases (cat : string) (sample_num : Z) :
  0 <= sample_num ->
  match dict_get prompts cat with
  | None =>
      get_demo_text_prompt cat sample_num = Ok ("A " +:+ cat +:+ " space")
  | Some prompt_list =>
      exists first,
        prompt_list !! O = Some first /\
        get_demo_text_prompt cat sample_num =
        Ok (match prompt_list !! Z.to_nat sample_num with
            | Some phrase => phrase
            | None => first
            end)
  end.
Proof.
  intros Hpos. unfold get_demo_text_prompt.
  destruct (dict_get prompts cat) as [prompt_list|] eqn:Hget; [|reflexivity].
  pose proof (dict_get_prompts_length _ _ Hget) as Hlen.
  destruct prompt_list as [|first [|second [|]]]; try discriminate.
  exists first. split; [reflexivity|].
  destruct (Z.leb_spec (Z.of_nat (length [first; second])) sample_num)
    as [Hge|Hlt].
  - rewrite (index_nonneg _ 0 first) by (simpl; auto with zarith).
    rewrite lookup_ge_None_2 by (simpl in *; lia). reflexivity.
  - destruct (lookup_lt_is_Some_2 [first; second] (Z.to_nat sample_num))
      as [phrase Hphrase]; [simpl in *; lia|].
    rewrite Hphrase. now apply index_nonneg.
Qed.

(** The prompt of a group: the stripped text of [text_prompt.txt] when it
    is a file that holds text; without it, position 0 for a name that has
    no underscore. *)
Lemma resolve_text_prompt_cases (fs : gmap string Entry)
    (cat dir sample_path : string) :
  (forall content,
     fs !! Py.path_join sample_path "text_prompt.txt"
       = Some (File (Text content)) ->
     resolve_text_prompt fs cat dir sample_path = Ok (Py.strip content)) /\
  (fs !! Py.path_join sample_path "text_prompt.txt" = Some (File Undecodable)
   -> resolve_text_prompt fs cat dir sample_path = Raise UnicodeDecodeError)
  /\
  (fs !! Py.path_join sample_path "text_prompt.txt" = None ->
   Py.contains "_" dir = false ->
   resolve_text_prompt fs cat dir sample_path = get_demo_text_prompt cat 0).
Proof.
  unfold resolve_text_prompt, Os.path_exists, Os.read_text, sample_num_of.
  split; [|split].
  - intros content ->. reflexivity.
  - intros ->. reflexivity.
  - intros -> ->. reflexivity.
Qed.

(** C6 fails on the code for a group without [text_prompt.txt] whose
    directory name has an underscore followed by something that is not a
    number: [int] raises [ValueError], and the loader with it, where the
    claim promises position 0. A negative number as last field can raise
    [IndexError]. *)
Theorem non_numeric_suffix_raises :
  sample_num_of "room_a" = Raise ValueError /\
  resolve_text_prompt Corpus.odd_name "small" "room_a"
    (group_path "small" "room_a") = Raise ValueError /\
  load_evaluation_samples Corpus.odd_name = Raise ValueError /\
  (let* n := sample_num_of "room_-3" in get_demo_text_prompt "small" n)
    = Raise IndexError.
Proof. repeat split; vm_compute; reflexivity. Qed.

(** ** Rating input *)

(** C7 (amended). The handlers do not validate the rating input: in an
    Active state a click on Next, or on Previous when the cursor is above
    0, always makes the transition and shows no message. What is stored are
    the two values the sliders hold: a slider the rater did not move (a
    missing score) gives the value it was drawn on, the stored score or 3,
    and a moved slider gives the value it was moved to, never clamped.
    Scores outside 1 to 5 are kept out by the sliders themselves (minimum
    1, maximum 5): whatever the browser sent during a session, all stored
    scores are within 1 to 5. *)
Theorem scores_bounded_by_sliders_only (env : Env)
    (files : gmap string FileContent) (steps : list (Env * UI)) (r : Run) :
  session env files steps = Ok r ->
  (forall k v, ratings (state r) !! k = Some v ->
     1 <= Rating.quality v <= 5 /\ 1 <= Rating.match_ v <= 5) /\
  (forall env' files' ui c,
     ui_ok ui -> Active (state r) c ->
     clicked ui = NextClick \/ (clicked ui = PrevClick /\ 0 < c) ->
     exists sample r' stored,
       current_sample (state r) = Ok sample /\
       evaluation_interface env' (state r) files' ui = Ok r' /\
       view r' = Rerun /\ shown r' = [] /\
       current_sample_idx (state r') <> c /\
       ratings (state r') !! id sample = Some stored /\
       (forall v, quality_input ui = Some v -> Rating.quality stored = v) /\
       (forall v, match_input ui = Some v -> Rating.match_ stored = v) /\
       (quality_input ui = None ->
          Rating.quality stored =
          existing_get (ratings (state r) !! id sample) Rating.quality) /\
       (match_input ui = None ->
          Rating.match_ stored =
          existing_get (ratings (state r) !! id sample) Rating.match_) /\
       (ratings (state r) !! id sample = None -> ui = press (clicked ui) ->
          Rating.quality stored = 3 /\ Rating.match_ stored = 3)).
Proof.
  intros Hs. destruct (session_state_inv _ _ _ _ Hs) as [Hwf Hok].
  split.
  - intros k v Hv. destruct (Hok _ _ Hv) as (_ & _ & Hq & Hm). auto.
  - intros env' files' ui c [Hqi Hmi] Hact Hclick.
    destruct (current_sample_Ok _ _ Hwf Hact) as (sample & Hcur & _).
    assert (Hrun : exists delta, delta <> 0 /\
      evaluation_interface env' (state r) files' ui =
      Ok {| state := leave (state r) sample ui delta; store := files';
            shown := []; view := Rerun |}).
    { destruct Hclick as [Hc|[Hc Hpos]].
      - exists 1. split; [lia|]. eapply eval_next; eauto.
      - exists (-1). split; [lia|]. eapply eval_prev; eauto. }
    destruct Hrun as (delta & Hdelta & Hrun).
    exists sample. eexists. eexists.
    split; [exact Hcur|]. split; [exact Hrun|].
    cbn [state view shown leave navigate current_sample_idx ratings].
    split; [reflexivity|]. split; [reflexivity|].
    split; [destruct Hact as [-> _]; lia|].
    unfold save_rating. rewrite lookup_insert_eq.
    split; [reflexivity|]. cbn [Rating.quality Rating.match_].
    split; [intros v Hv; rewrite Hv in *; now apply st_slider_moved|].
    split; [intros v Hv; rewrite Hv in *; now apply st_slider_moved|].
    split; [intros ->; reflexivity|]. split; [intros ->; reflexivity|].
    intros -> ->. cbn [press quality_input match_input]. split; reflexivity.
Qed.

Lemma scores_bounded_by_sliders_only_witness :
  let env := Corpus.env_of Corpus.both in
  exists r v,
    session env ∅
      (Corpus.during env [Corpus.rate NextClick 4 5; press PrevClick])
      = Ok r /\
    ratings (state r) !! "small_room_1_generated" = Some v /\
    (1 <= Rating.quality v <= 5 /\ 1 <= Rating.match_ v <= 5).
Proof.
  intros env. eexists. eexists.
  split; [vm_compute; reflexivity|].
  split; [vm_compute; reflexivity|].
  refine (proj1 (scores_bounded_by_sliders_only env ∅
                   (Corpus.during env
                      [Corpus.rate NextClick 4 5; press PrevClick])
                   _ _)
                "small_room_1_generated" _ _); vm_compute; reflexivity.
Defined.

(** C7 as stated fails: a rating input with both scores missing is not
    rejected. The page of the only sample is open and nothing is rated; the
    rater presses the forward button without touching a slider. The handler
    makes the transition: the cursor moves from 0 to 1, a rating with the
    scores 3 and 3 is stored for the sample and no message is shown; on the
    rerun the session completes and the record written holds that rating.
    A quality of 6, which the slider does not offer, fares no better when
    it is delivered all the same: no failure is reported, the slider stays
    on the 3 it was drawn on and the handler stores that 3 and moves on. *)
Lemma missing_score_is_stored_as_3 :
  let env := Corpus.env_of Corpus.single in
  exists r0 r1 r2 r3,
    start env ∅ = Ok r0 /\ Active (state r0) 0 /\ ratings (state r0) = ∅ /\
    evaluation_interface env (state r0) (store r0) (press NextClick)
      = Ok r1 /\
    view r1 = Rerun /\ current_sample_idx (state r1) = 1 /\ shown r1 = [] /\
    ratings (state r1) !! "large_hall_0_generated" =
      Some (Rating.mk "large_hall_0_generated" "large" generated 3 3 0) /\
    interact env (state r0) (store r0) (press NextClick) = Ok r2 /\
    view r2 = ShowCompletion /\
    store r2 !! results_filename Corpus.noon =
      Some (Whole {| results_ratings := ratings (state r1);
                     completion_time := isoformat Corpus.noon |}) /\
    evaluation_interface env (state r0) (store r0)
      (Corpus.rate NextClick 6 4) = Ok r3 /\
    view r3 = Rerun /\ current_sample_idx (state r3) = 1 /\ shown r3 = [] /\
    ratings (state r3) !! "large_hall_0_generated" =
      Some (Rating.mk "large_hall_0_generated" "large" generated 3 4 0).
Proof.
  intros env. eexists _, _, _, _.
  split; [vm_compute; reflexivity|].
  split; [split; [reflexivity | simpl; lia]|].
  split; [reflexivity|].
  split; [vm_compute; reflexivity|].
  split; [reflexivity|]. split; [reflexivity|]. split; [reflexivity|].
  split; [vm_compute; reflexivity|].
  split; [vm_compute; reflexivity|].
  split; [reflexivity|].
  split; [vm_compute; reflexivity|].
  split; [vm_compute; reflexivity|].
  split; [reflexivity|]. split; [reflexivity|]. split; [reflexivity|].
  vm_compute. reflexivity.
Qed.

(** ** Session start on an empty catalog *)

Lemma missing_root_loads_empty (fs : gmap string Entry) :
  Os.path_exists fs SAMPLES_DIR = false ->
  load_evaluation_samples fs =
  Ok ([], [st_error ("Evaluation samples directory not found: "
                     +:+ SAMPLES_DIR)]).
Proof. intros H. unfold load_evaluation_samples. now rewrite H. Qed.

Lemma no_category_loads_empty (fs : gmap string Entry) :
  fs !! SAMPLES_DIR = Some (Directory []) ->
  load_evaluation_samples fs =
  Ok ([], [st_warning
             "No evaluation samples found in the directory structure."]).
Proof.
  intros H. unfold load_evaluation_samples, Os.path_exists, Os.listdir.
  now rewrite H.
Qed.

Lemma show_completion_eq (clock : Clock) (ss : SessionState)
    (files : gmap string FileContent) :
  show_completion clock ss files =
  <[ results_filename (now_filename clock) :=
       Whole {| results_ratings := ratings ss;
                completion_time := isoformat (now_completion clock) |} ]>
    files.
Proof.
  unfold show_completion, completion_ops, run_ops. simpl.
  apply insert_insert_eq.
Qed.

(** An empty catalog, however it came about, completes the session on the
    first run: the messages of the loader and of the completion screen are
    shown and a record with no ratings is written. *)
Lemma empty_catalog_completes (env : Env)
    (files : gmap string FileContent) (msgs : list Msg) :
  load_evaluation_samples (fs env) = Ok ([], msgs) ->
  exists r,
    start env files = Ok r /\
    view r = ShowCompletion /\ Complete (state r) /\
    ratings (state r) = ∅ /\
    shown r = (msgs ++ completion_msgs (clock env))%list /\
    store r =
      <[ results_filename (now_filename (clock env)) :=
           Whole {| results_ratings := ∅;
                    completion_time :=
                      isoformat (now_completion (clock env)) |} ]> files.
Proof.
  intros Hload.
  destruct (start_after_load env files [] msgs Hload)
    as (r0 & Hr0 & _ & ->).
  rewrite eval_complete in Hr0 by (simpl; lia). injection Hr0 as <-.
  eexists. split; [reflexivity|]. simpl.
  repeat split. apply show_completion_eq.
Qed.

Lemma for_each_succeeds {A B} (body : A -> Result (list B)) (l : list A) :
  Forall (fun x => succeeds (body x)) l -> succeeds (for_each body l).
Proof.
  induction 1 as [|x l Hx _ IH]; simpl; [exact I|].
  destruct (body x); [|destruct Hx]. simpl.
  destruct (for_each body l); [exact I | destruct IH].
Qed.

(** The loader returns when the root is missing or a directory and the
    prompt of every visited group can be resolved. *)
Lemma load_succeeds (fs : gmap string Entry) :
  root_ok fs ->
  (forall cat dir, visited fs cat dir ->
     succeeds (resolve_text_prompt fs cat dir (group_path cat dir))) ->
  succeeds (load_evaluation_samples fs).
Proof.
  unfold root_ok, load_evaluation_samples, Os.path_exists.
  destruct (fs !! SAMPLES_DIR) as [[content|categories]|] eqn:Hroot;
    [intros [] | | intros; exact I].
  intros _ Hprompts. simpl.
  assert (Hls : Os.listdir fs SAMPLES_DIR = Ok categories)
    by (unfold Os.listdir; now rewrite Hroot).
  rewrite Hls. simpl.
  assert (Hall : succeeds (for_each (load_category fs) categories)).
  { apply for_each_succeeds, Forall_forall. intros cat Hcat.
    unfold load_category.
    destruct (Os.path_isdir fs (Py.path_join SAMPLES_DIR cat)) eqn:Hdir;
      simpl; [|exact I].
    assert (Hnames : exists names,
      Os.listdir fs (Py.path_join SAMPLES_DIR cat) = Ok names).
    { unfold Os.path_isdir in Hdir. unfold Os.listdir.
      destruct (fs !! Py.path_join SAMPLES_DIR cat) as [[|names]|];
        try discriminate. eauto. }
    destruct Hnames as [names Hnames]. rewrite Hnames. simpl.
    apply for_each_succeeds, Forall_forall. intros dir Hin.
    unfold load_group. fold (group_path cat dir).
    destruct (Os.path_isdir fs (group_path cat dir)) eqn:Hdir2; simpl;
      [|exact I].
    assert (Hv : visited fs cat dir) by (exists categories, names; auto 10).
    specialize (Hprompts _ _ Hv).
    destruct (resolve_text_prompt fs cat dir (group_path cat dir));
      [exact I | destruct Hprompts]. }
  destruct (for_each (load_category fs) categories); [exact I | destruct Hall].
Qed.

Lemma load_empty_msgs (fs : gmap string Entry) (msgs : list Msg) :
  load_evaluation_samples fs = Ok ([], msgs) ->
  exists text, msgs = [st_error text] \/ msgs = [st_warning text].
Proof.
  unfold load_evaluation_samples.
  destruct (Os.path_exists fs SAMPLES_DIR); simpl.
  - intros H. apply bind_Ok in H as (categories & _ & H).
    apply bind_Ok in H as (samples & _ & H).
    destruct samples; [|discriminate]. injection H as <-. eauto.
  - intros [= <-]. eauto.
Qed.

(** Where C8 holds: the root is missing or a directory, the prompt of every
    visited group can be resolved and no visited group has the dry audio
    together with a variant. Then the session starts, one error or warning
    is shown before the completion messages, no rating is recorded and the
    record written is the empty one. *)
Lemma start_without_valid_groups (env : Env)
    (files : gmap string FileContent) :
  root_ok (fs env) ->
  (forall cat dir, visited (fs env) cat dir ->
     succeeds (resolve_text_prompt (fs env) cat dir (group_path cat dir))) ->
  (forall cat dir c, visited (fs env) cat dir ->
     ~ resolves (fs env) cat dir c) ->
  exists r text,
    start env files = Ok r /\
    view r = ShowCompletion /\ Complete (state r) /\
    ratings (state r) = ∅ /\
    (shown r = (st_error text :: completion_msgs (clock env))%list \/
     shown r = (st_warning text :: completion_msgs (clock env))%list) /\
    store r =
      <[ results_filename (now_filename (clock env)) :=
           Whole {| results_ratings := ∅;
                    completion_time :=
                      isoformat (now_completion (clock env)) |} ]> files.
Proof.
  intros Hroot Hprompts Hnone.
  destruct (succeeds_Ok _ (load_succeeds _ Hroot Hprompts))
    as [[l msgs] Hload].
  assert (Hl : l = []).
  { destruct l as [|s l]; [reflexivity|]. exfalso.
    destruct (proj1 (load_elem _ _ _ Hload s) ltac:(left))
      as (cat & dir & prompt & Hv & _ & Hs).
    apply emit_elem in Hs as (c & Hres & _).
    exact (Hnone _ _ _ Hv Hres). }
  subst l.
  destruct (load_empty_msgs _ _ Hload) as [text Hmsgs].
  destruct (empty_catalog_completes env files msgs Hload)
    as (r & Hstart & Hview & Hdone & Hrat & Hshown & Hstore).
  exists r, text. repeat split; try assumption.
  rewrite Hshown. destruct Hmsgs as [-> | ->]; auto.
Qed.

(** C8 fails on the code for a corpus whose only group is an empty
    directory named [room_a]: no group is valid, yet the prompt is resolved
    before the audio is looked at, [int] raises [ValueError] and the
    session does not start. *)
Theorem start_raises_on_odd_group_name :
  Os.listdir Corpus.odd_name SAMPLES_DIR = Ok ["small"] /\
  Os.listdir Corpus.odd_name (Py.path_join SAMPLES_DIR "small")
    = Ok ["room_a"] /\
  Os.listdir Corpus.odd_name (group_path "small" "room_a") = Ok [] /\
  load_evaluation_samples Corpus.odd_name = Raise ValueError /\
  start (Corpus.env_of Corpus.odd_name) ∅ = Raise ValueError.
Proof. repeat split; vm_compute; reflexivity. Qed.

(** ** Strings of fixed width *)

Lemma length_append (a b : string) :
  String.length (a +:+ b) = (String.length a + String.length b)%nat.
Proof. induction a as [|x a IH]; simpl; [reflexivity | now rewrite IH]. Qed.

Lemma append_assoc (a b c : string) : (a +:+ b) +:+ c = a +:+ (b +:+ c).
Proof.
  induction a as [|x a IH]; [reflexivity|].
  change (String x ((a +:+ b) +:+ c) = String x (a +:+ (b +:+ c))).
  now rewrite IH.
Qed.

Lemma append_inj_length (a a' b b' : string) :
  String.length a = String.length a' ->
  a +:+ b = a' +:+ b' -> a = a' /\ b = b'.
Proof.
  revert a'. induction a as [|x a IH]; intros [|x' a']; simpl;
    try discriminate.
  - auto.
  - intros [= Hlen] [= -> Heq]. destruct (IH _ Hlen Heq) as [-> ->]. auto.
Qed.

Lemma append_inj_length_r (a a' b b' : string) :
  String.length b = String.length b' ->
  a +:+ b = a' +:+ b' -> a = a' /\ b = b'.
Proof.
  intros Hlen Heq. apply append_inj_length; [|assumption].
  apply (f_equal String.length) in Heq. rewrite !length_append in Heq. lia.
Qed.

Lemma pad_length (w n : nat) : String.length (pad w n) = w.
Proof.
  revert n. induction w as [|w IH]; intros n; simpl; [reflexivity|].
  rewrite length_append, IH. simpl. lia.
Qed.

Lemma digit_inj (n m : nat) :
  digit n = digit m -> (n mod 10 = m mod 10)%nat.
Proof.
  unfold digit. intros H. apply (f_equal nat_of_ascii) in H.
  pose proof (Nat.mod_upper_bound n 10 ltac:(lia)).
  pose proof (Nat.mod_upper_bound m 10 ltac:(lia)).
  rewrite !nat_ascii_embedding in H by lia. lia.
Qed.

Lemma pad_inj (w : nat) :
  forall n m, (n < 10 ^ w)%nat -> (m < 10 ^ w)%nat ->
    pad w n = pad w m -> n = m.
Proof.
  induction w as [|w IH]; intros n m Hn Hm; simpl.
  - simpl in *. lia.
  - intros H.
    apply append_inj_length in H as [Hhi Hlo];
      [|now rewrite !pad_length].
    injection Hlo as Hlo. apply digit_inj in Hlo.
    rewrite Nat.pow_succ_r' in Hn, Hm.
    assert (n / 10 = m / 10)%nat.
    { apply IH; [| |assumption];
        apply Nat.Div0.div_lt_upper_bound; lia. }
    rewrite (Nat.div_mod_eq n 10), (Nat.div_mod_eq m 10). lia.
Qed.

(** ** The name of the results file *)

Lemma strftime_stamp_length (d : datetime) :
  String.length (strftime_stamp d) = 15%nat.
Proof.
  unfold strftime_stamp. rewrite !length_append, !pad_length. reflexivity.
Qed.

Lemma strftime_stamp_inj (d1 d2 : datetime) :
  valid_datetime d1 -> valid_datetime d2 ->
  strftime_stamp d1 = strftime_stamp d2 -> same_second d1 d2.
Proof.
  intros (Hy1 & Hmo1 & Hd1 & Hh1 & Hmi1 & Hs1 & _)
         (Hy2 & Hmo2 & Hd2 & Hh2 & Hmi2 & Hs2 & _) H.
  assert (E4 : (10 ^ 4 = 10 * 1000)%nat) by reflexivity.
  assert (E2 : (10 ^ 2 = 100)%nat) by reflexivity.
  unfold strftime_stamp in H.
  apply append_inj_length in H as [Hy H]; [|now rewrite !pad_length].
  apply append_inj_length in H as [Hmo H]; [|now rewrite !pad_length].
  apply append_inj_length in H as [Hd H]; [|now rewrite !pad_length].
  apply append_inj_length in H as [_ H]; [|reflexivity].
  apply append_inj_length in H as [Hh H]; [|now rewrite !pad_length].
  apply append_inj_length in H as [Hmi Hs]; [|now rewrite !pad_length].
  unfold same_second.
  repeat split; eapply pad_inj; try eassumption; lia.
Qed.

Lemma results_filename_same_second (d1 d2 : datetime) :
  valid_datetime d1 -> valid_datetime d2 ->
  (results_filename d1 = results_filename d2 <-> same_second d1 d2).
Proof.
  intros Hv1 Hv2. split.
  - intros H. unfold results_filename in H.
    apply String.app_inj in H. apply String.app_inj in H.
    apply append_inj_length in H as [H _];
      [|now rewrite !strftime_stamp_length].
    now apply strftime_stamp_inj.
  - intros (Hy & Hmo & Hd & Hh & Hmi & Hs).
    unfold results_filename, strftime_stamp.
    now rewrite Hy, Hmo, Hd, Hh, Hmi, Hs.
Qed.

(** C9 (amended). On completion the record is written straight under its
    final name: [open(filename, 'w')] and then [json.dump]. Once both are
    done the name holds the whole record and no other file is touched, but
    between the two the name holds a truncated file: the write is not
    atomic. The name carries the completion time to the second: the names
    of two completions are equal exactly when they fall in the same second,
    so a record written in another second is never overwritten. *)
Theorem completion_record_named_to_the_second (clock : Clock)
    (ss : SessionState) (files : gmap string FileContent) :
  let name := results_filename (now_filename clock) in
  let record := {| results_ratings := ratings ss;
                   completion_time := isoformat (now_completion clock) |} in
  show_completion clock ss files !! name = Some (Whole record) /\
  (forall other, other <> name ->
     show_completion clock ss files !! other = files !! other) /\
  show_completion_stopped 1 clock ss files !! name = Some Partial /\
  (forall d, valid_datetime d -> valid_datetime (now_filename clock) ->
     (results_filename d = name <-> same_second d (now_filename clock)) /\
     (~ same_second d (now_filename clock) ->
      show_completion clock ss files !! results_filename d =
      files !! results_filename d)).
Proof.
  cbv zeta. rewrite show_completion_eq.
  split; [apply lookup_insert_eq|].
  split; [intros other Hne; now rewrite lookup_insert_ne by congruence|].
  split.
  - unfold show_completion_stopped, completion_ops, run_ops. simpl.
    apply lookup_insert_eq.
  - intros d Hd Hnow.
    pose proof (results_filename_same_second d (now_filename clock) Hd Hnow)
      as Hiff.
    split; [exact Hiff|].
    intros Hdiff. rewrite lookup_insert_ne; [reflexivity|].
    intros Heq. apply Hdiff, Hiff. now symmetry.
Qed.

Lemma noon_valid : valid_datetime Corpus.noon.
Proof.
  unfold valid_datetime, Corpus.noon.
  cbn [year month day hour minute second microsecond]. lia.
Qed.

Lemma completion_record_named_to_the_second_witness :
  results_filename (mkDatetime 2025 3 9 12 0 1 0)
    = results_filename Corpus.noon
  <-> same_second (mkDatetime 2025 3 9 12 0 1 0) Corpus.noon.
Proof.
  refine (proj1 (proj2 (proj2 (proj2
    (completion_record_named_to_the_second
       (mkClock Corpus.noon Corpus.noon) Corpus.at_only ∅)))
    (mkDatetime 2025 3 9 12 0 1 0) _ noon_valid)).
  unfold valid_datetime.
  cbn [year month day hour minute second microsecond]. lia.
Defined.

(** C9 as stated fails on both counts. A session completes at noon and its
    record is written. A second session completes 250 microseconds later:
    its record gets the same name; when the process stops after the [open]
    the first record is gone and the name holds a truncated file, and when
    the write runs to its end the first record is overwritten. *)
Lemma completion_write_truncates_and_overwrites :
  let first := state (Corpus.run_after (Corpus.env_of Corpus.single)
                        [Corpus.rate NextClick 4 5]) in
  let second := state (Corpus.run_after (Corpus.env_of Corpus.single)
                         [Corpus.rate NextClick 2 2]) in
  let later := mkDatetime 2025 3 9 12 0 0 250 in
  let name := results_filename Corpus.noon in
  let files := show_completion (mkClock Corpus.noon Corpus.noon) first ∅ in
  results_filename later = name /\
  (exists r1, files !! name = Some (Whole r1) /\
     results_ratings r1 = ratings first /\
     (forall r2,
        show_completion (mkClock later later) second files !! name
          = Some (Whole r2) -> r2 <> r1)) /\
  show_completion_stopped 1 (mkClock later later) second files !! name
    = Some Partial.
Proof.
  intros first second later name files.
  split; [reflexivity|]. split.
  - eexists. split; [vm_compute; reflexivity|].
    split; [vm_compute; reflexivity|].
    intros r2 H2 Heq. subst r2.
    unfold files in H2. rewrite !show_completion_eq in H2.
    unfold name in H2. change (results_filename (now_filename
      (mkClock later later))) with (results_filename Corpus.noon) in H2.
    rewrite lookup_insert_eq in H2.
    apply (f_equal (fun c => match c with
                             | Some (Whole r) => completion_time r
                             | _ => EmptyString
                             end)) in H2.
    vm_compute in H2. discriminate H2.
  - vm_compute. reflexivity.
Qed.

(** ** Sample ids *)

Lemma split_at_first (x : ascii) (c1 c2 r1 r2 : string) :
  Py.contains x c1 = false -> Py.contains x c2 = false ->
  c1 +:+ String x r1 = c2 +:+ String x r2 -> c1 = c2 /\ r1 = r2.
Proof.
  revert c2. induction c1 as [|y c1 IH]; intros [|z c2]; simpl.
  - intros _ _ [= ->]. auto.
  - intros _ Hz [= <- _]. rewrite Ascii.eqb_refl in Hz. discriminate.
  - intros Hy _ [= -> _]. rewrite Ascii.eqb_refl in Hy. discriminate.
  - destruct (Ascii.eqb y x) eqn:Hyx; [discriminate|].
    destruct (Ascii.eqb z x) eqn:Hzx; [discriminate|].
    intros H1 H2 [= -> H]. destruct (IH _ H1 H2 H) as [-> ->]. auto.
Qed.

Lemma last_char_append (a : string) (x : ascii) (b : string) :
  last_char (a +:+ String x b) = last_char (String x b).
Proof.
  induction a as [|y a IH]; [reflexivity|].
  change (last_char (String y (a +:+ String x b)) = last_char (String x b)).
  rewrite <- IH. cbn [last_char].
  destruct (a +:+ String x b) eqn:E; [|reflexivity].
  destruct a; discriminate E.
Qed.

Lemma tag_inj (d1 d2 : string) (t1 t2 : Condition) :
  d1 +:+ "_" +:+ condition_tag t1 = d2 +:+ "_" +:+ condition_tag t2 ->
  d1 = d2 /\ t1 = t2.
Proof.
  intros H.
  assert (Ht : t1 = t2).
  { apply (f_equal last_char) in H.
    change ("_" +:+ condition_tag t1)
      with (String "_" (condition_tag t1)) in H.
    change ("_" +:+ condition_tag t2)
      with (String "_" (condition_tag t2)) in H.
    rewrite !last_char_append in H.
    destruct t1, t2; try reflexivity; vm_compute in H; discriminate H. }
  subst t2. split; [|reflexivity].
  now apply append_inj_length_r in H as [-> _].
Qed.

(** An id determines category, group and variant as soon as the category
    names have no underscore. *)
Lemma sample_id_inj (c1 d1 c2 d2 : string) (t1 t2 : Condition) :
  Py.contains "_" c1 = false -> Py.contains "_" c2 = false ->
  c1 +:+ "_" +:+ d1 +:+ "_" +:+ condition_tag t1 =
  c2 +:+ "_" +:+ d2 +:+ "_" +:+ condition_tag t2 ->
  c1 = c2 /\ d1 = d2 /\ t1 = t2.
Proof.
  intros H1 H2 H.
  apply (split_at_first "_" c1 c2 _ _ H1 H2) in H as [-> H].
  apply tag_inj in H as [-> ->]. auto.
Qed.

(** C10 (amended). Every sample's id is its category, its group directory
    and its condition tag joined by underscores. Two samples of one group
    share the text prompt and the dry audio and differ in the condition tag
    only. When the category names contain no underscore, equal ids mean the
    same category, group and condition, and then (every directory listing
    naming each entry once) all ids of the catalog are distinct. *)
Theorem paired_samples_and_distinct_ids (fs : gmap string Entry)
    (l : list Sample) (msgs : list Msg) :
  load_evaluation_samples fs = Ok (l, msgs) ->
  (forall s, s ∈ l ->
     id s = category s +:+ "_" +:+ sample_dir s +:+ "_" +:+
            condition_tag (condition s)) /\
  (forall s1 s2, s1 ∈ l -> s2 ∈ l ->
     category s1 = category s2 -> sample_dir s1 = sample_dir s2 ->
     text_prompt s1 = text_prompt s2 /\
     anechoic_path s1 = anechoic_path s2) /\
  (forall s1 s2, s1 ∈ l -> s2 ∈ l ->
     Py.contains "_" (category s1) = false ->
     Py.contains "_" (category s2) = false ->
     id s1 = id s2 -> sample_key s1 = sample_key s2 /\ s1 = s2) /\
  (listings_distinct fs ->
   (forall s, s ∈ l -> Py.contains "_" (category s) = false) ->
   NoDup (id <$> l)).
Proof.
  intros Hload.
  assert (Hid : forall s, s ∈ l ->
    id s = category s +:+ "_" +:+ sample_dir s +:+ "_" +:+
           condition_tag (condition s)).
  { intros s Hs.
    destruct (load_sample_shape _ _ _ _ Hload Hs) as (prompt & _ & Heq).
    rewrite Heq at 1. reflexivity. }
  assert (Hsame : forall s1 s2, s1 ∈ l -> s2 ∈ l ->
    sample_key s1 = sample_key s2 -> s1 = s2).
  { intros s1 s2 H1 H2 [= Hc Hd Ht].
    destruct (load_sample_shape _ _ _ _ Hload H1) as (p1 & Hp1 & E1).
    destruct (load_sample_shape _ _ _ _ Hload H2) as (p2 & Hp2 & E2).
    rewrite Hc, Hd, Hp2 in Hp1. injection Hp1 as <-.
    rewrite E1, E2, Hc, Hd, Ht. reflexivity. }
  assert (Hinj : forall s1 s2, s1 ∈ l -> s2 ∈ l ->
    Py.contains "_" (category s1) = false ->
    Py.contains "_" (category s2) = false ->
    id s1 = id s2 -> sample_key s1 = sample_key s2 /\ s1 = s2).
  { intros s1 s2 H1 H2 Hc1 Hc2 Heq.
    rewrite (Hid _ H1), (Hid _ H2) in Heq.
    apply sample_id_inj in Heq as (Hc & Hd & Ht); try assumption.
    assert (Hkey : sample_key s1 = sample_key s2)
      by (unfold sample_key; congruence).
    split; [exact Hkey | now apply Hsame]. }
  split; [exact Hid|]. split; [|split; [exact Hinj|]].
  - intros s1 s2 H1 H2 Hc Hd.
    destruct (load_sample_shape _ _ _ _ Hload H1) as (p1 & Hp1 & E1).
    destruct (load_sample_shape _ _ _ _ Hload H2) as (p2 & Hp2 & E2).
    rewrite Hc, Hd, Hp2 in Hp1. injection Hp1 as <-.
    rewrite E1, E2, Hc, Hd. simpl. auto.
  - intros Hdistinct Hcats.
    apply NoDup_fmap_2_strong; [|eapply load_NoDup; eauto].
    intros s1 s2 H1 H2 Heq. now apply Hinj; auto.
Qed.

Lemma paired_samples_and_distinct_ids_witness :
  Forall (fun s => id s = category s +:+ "_" +:+ sample_dir s +:+ "_" +:+
                          condition_tag (condition s))
         Corpus.samples_both.
Proof.
  apply Forall_forall. intros s Hs.
  exact (proj1 (paired_samples_and_distinct_ids Corpus.both
                  Corpus.samples_both [] ltac:(vm_compute; reflexivity))
               s Hs).
Defined.

(** C10 as stated fails in its last part: the groups [a/1_2] and [a_1/2]
    are distinct pairs of a category and a group directory, each listed
    once, and both yield the id [a_1_2_generated]. *)
Lemma ids_collide_across_underscores :
  exists s1 s2,
    load_evaluation_samples Corpus.underscores = Ok ([s1; s2], []) /\
    (category s1, sample_dir s1) = ("a", "1_2") /\
    (category s2, sample_dir s2) = ("a_1", "2") /\
    (category s1, sample_dir s1) <> (category s2, sample_dir s2) /\
    id s1 = "a_1_2_generated" /\ id s2 = "a_1_2_generated" /\
    ~ NoDup (id <$> [s1; s2]).
Proof.
  eexists _, _. split; [vm_compute; reflexivity|]. simpl.
  split; [reflexivity|]. split; [reflexivity|].
  split; [discriminate|]. split; [reflexivity|]. split; [reflexivity|].
  intros H. apply NoDup_cons in H as [H _]. apply H. left.
Qed.

(** * Further properties of the code *)

(** ** The default phrases *)

(** X1. [get_demo_text_prompt] on every position: a category without
    phrases gets the generic phrase; a category with phrases has two of
    them, positions 1 and -1 give the second, every other position from -2
    upwards gives the first (the first also stands in for a position past
    the end), and a position below -2 raises [IndexError]. *)
Theorem demo_prompt_on_every_position (cat : string) (sample_num : Z) :
  match dict_get prompts cat with
  | None =>
      get_demo_text_prompt cat sample_num = Ok ("A " +:+ cat +:+ " space")
  | Some prompt_list =>
      exists first second,
        prompt_list = [first; second] /\
        get_demo_text_prompt cat sample_num =
        if sample_num <? -2 then Raise IndexError
        else if (sample_num =? 1) || (sample_num =? -1) then Ok second
        else Ok first
  end.
Proof.
  unfold get_demo_text_prompt.
  destruct (dict_get prompts cat) as [prompt_list|] eqn:Hget; [|reflexivity].
  pose proof (dict_get_prompts_length _ _ Hget) as Hlen.
  destruct prompt_list as [|first [|second [|]]]; try discriminate.
  exists first, second. split; [reflexivity|].
  cbn [length]. change (Z.of_nat 2) with 2.
  destruct (Z.leb_spec 2 sample_num) as [Hge|Hlt].
  - destruct (Z.ltb_spec sample_num (-2)); [lia|].
    destruct (Z.eqb_spec sample_num 1); [lia|].
    destruct (Z.eqb_spec sample_num (-1)); [lia|]. reflexivity.
  - destruct (Z.ltb_spec sample_num (-2)) as [Hlow|Hhigh].
    + unfold Py.index. cbn [length]. change (Z.of_nat 2) with 2.
      destruct (Z.ltb_spec sample_num 0); [|lia].
      destruct (Z.leb_spec 0 (sample_num + 2)); [lia|]. reflexivity.
    + assert (Hcases : sample_num = -2 \/ sample_num = -1 \/
                       sample_num = 0 \/ sample_num = 1) by lia.
      destruct Hcases as [-> | [-> | [-> | ->]]]; reflexivity.
Qed.

(** ** The position of a group *)

Lemma split_nonempty (sep : ascii) (s : string) : Py.split sep s <> [].
Proof.
  destruct s as [|x s]; simpl; [discriminate|].
  destruct (Ascii.eqb x sep); [discriminate|].
  destruct (Py.split sep s); discriminate.
Qed.

Lemma split_append (sep : ascii) (a s : string) :
  Py.split sep (a +:+ String sep s) = (Py.split sep a ++ Py.split sep s)%list.
Proof.
  induction a as [|x a IH].
  - change (Py.split sep (String sep s) =
            (EmptyString :: Py.split sep s)%list).
    cbn [Py.split]. now rewrite Ascii.eqb_refl.
  - change (String x a +:+ String sep s) with (String x (a +:+ String sep s)).
    cbn [Py.split]. rewrite IH.
    destruct (Ascii.eqb x sep); [reflexivity|].
    pose proof (split_nonempty sep a) as Hne.
    destruct (Py.split sep a) as [|w ws]; [contradiction | reflexivity].
Qed.

Lemma split_no_separator (sep : ascii) (s : string) :
  Py.contains sep s = false -> Py.split sep s = [s].
Proof.
  induction s as [|x s IH]; cbn [Py.contains Py.split]; [reflexivity|].
  destruct (Ascii.eqb x sep); [discriminate|].
  intros H. now rewrite (IH H).
Qed.

Lemma contains_append (sep : ascii) (a s : string) :
  Py.contains sep (a +:+ String sep s) = true.
Proof.
  induction a as [|x a IH].
  - change (Py.contains sep (String sep s) = true).
    cbn [Py.contains]. now rewrite Ascii.eqb_refl.
  - change (String x a +:+ String sep s) with (String x (a +:+ String sep s)).
    cbn [Py.contains]. now destruct (Ascii.eqb x sep).
Qed.

(** The last field of a name is what follows its last underscore. *)
Lemma last_field (a s : string) :
  Py.contains "_" s = false ->
  List.last (Py.split "_" (a +:+ String "_" s)) EmptyString = s.
Proof.
  intros H. rewrite split_append, (split_no_separator _ _ H).
  apply last_last.
Qed.

Lemma unsigned_val_error (s : string) (e : PyError) :
  Py.unsigned_val s = Raise e -> e = ValueError.
Proof.
  unfold Py.unsigned_val. destruct s as [|x s]; [now intros [= <-]|].
  destruct (Py.digits_val 0 (String x s)); [discriminate | now intros [= <-]].
Qed.

(** [int] raises nothing but [ValueError]. *)
Lemma int_error (s : string) (e : PyError) :
  Py.int s = Raise e -> e = ValueError.
Proof.
  unfold Py.int.
  destruct (Py.rstrip Py.is_int_space (Py.lstrip Py.is_int_space s))
    as [|c r].
  - apply unsigned_val_error.
  - destruct c as [[] [] [] [] [] [] [] []];
      try apply unsigned_val_error.
    destruct (Py.unsigned_val r) as [v|e'] eqn:Hr; simpl; [discriminate|].
    intros [= <-]. now apply (unsigned_val_error r).
Qed.

(** X2. The fallback position of a group: a directory name without
    underscore gets position 0, and the only way [sample_num_of] fails is
    with [ValueError], on a name that has an underscore. *)
Theorem sample_num_of_failure (sample_dir : string) :
  (Py.contains "_" sample_dir = false -> sample_num_of sample_dir = Ok 0) /\
  (forall e, sample_num_of sample_dir = Raise e ->
     e = ValueError /\ Py.contains "_" sample_dir = true).
Proof.
  unfold sample_num_of.
  destruct (Py.contains "_" sample_dir); split; try discriminate.
  - intros e He. split; [now apply int_error in He | reflexivity].
  - reflexivity.
Qed.

Lemma sample_num_of_failure_witness :
  sample_num_of "hall" = Ok 0 /\
  (ValueError = ValueError /\ Py.contains "_" "room_a" = true).
Proof.
  split.
  - exact (proj1 (sample_num_of_failure "hall") eq_refl).
  - exact (proj2 (sample_num_of_failure "room_a") ValueError eq_refl).
Defined.

(** *** Names that end in a number *)

Lemma digit_cases (n : nat) :
  digit n = "0"%char \/ digit n = "1"%char \/ digit n = "2"%char \/
  digit n = "3"%char \/ digit n = "4"%char \/ digit n = "5"%char \/
  digit n = "6"%char \/ digit n = "7"%char \/ digit n = "8"%char \/
  digit n = "9"%char.
Proof.
  unfold digit. pose proof (Nat.mod_upper_bound n 10 ltac:(lia)) as H.
  destruct (n mod 10)%nat as [|[|[|[|[|[|[|[|[|[|m]]]]]]]]]]; try lia;
    cbv; tauto.
Qed.

Lemma digit_val_digit (n : nat) :
  Py.digit_val (digit n) = Some (Z.of_nat (n mod 10)).
Proof.
  unfold digit. pose proof (Nat.mod_upper_bound n 10 ltac:(lia)) as H.
  destruct (n mod 10)%nat as [|[|[|[|[|[|[|[|[|[|m]]]]]]]]]]; try lia;
    reflexivity.
Qed.

Lemma digits_val_append (a b : string) :
  forall acc,
    Py.digits_val acc (a +:+ b) =
    match Py.digits_val acc a with
    | Some v => Py.digits_val v b
    | None => None
    end.
Proof.
  induction a as [|x a IH]; intros acc; [reflexivity|].
  change (String x a +:+ b) with (String x (a +:+ b)).
  cbn [Py.digits_val]. destruct (Py.digit_val x); [apply IH | reflexivity].
Qed.

Lemma digits_val_pad (w : nat) :
  forall n acc,
    Py.digits_val acc (pad w n) =
    Some (acc * Z.of_nat (10 ^ w) + Z.of_nat (n mod 10 ^ w)).
Proof.
  induction w as [|w IH]; intros n acc.
  - cbn [pad Py.digits_val]. rewrite Nat.pow_0_r, Nat.mod_1_r. f_equal. lia.
  - cbn [pad]. rewrite digits_val_append, IH.
    cbn [Py.digits_val]. rewrite digit_val_digit. f_equal.
    rewrite Nat.pow_succ_r'.
    rewrite (Nat.Div0.mod_mul_r n 10 (10 ^ w)). lia.
Qed.

Lemma pad_head (w n : nat) :
  exists k rest, pad (S w) n = String (digit k) rest.
Proof.
  revert n. induction w as [|w IH]; intros n.
  - exists n, EmptyString. reflexivity.
  - destruct (IH (n / 10)%nat) as (k & rest & Hk).
    exists k, (rest +:+ String (digit n) EmptyString).
    change (pad (S (S w)) n)
      with (pad (S w) (n / 10) +:+ String (digit n) EmptyString).
    now rewrite Hk.
Qed.

Lemma rstrip_append_visible (blank : ascii -> bool) (a : string)
    (x : ascii) :
  blank x = false ->
  Py.rstrip blank (a +:+ String x EmptyString) = a +:+ String x EmptyString.
Proof.
  intros Hx. induction a as [|y a IH].
  - change (Py.rstrip blank (String x EmptyString) = String x EmptyString).
    cbn [Py.rstrip]. now rewrite Hx.
  - change (String y a +:+ String x EmptyString)
      with (String y (a +:+ String x EmptyString)).
    cbn [Py.rstrip]. rewrite IH.
    destruct (a +:+ String x EmptyString) eqn:E; [|reflexivity].
    destruct a; discriminate E.
Qed.

Lemma digit_visible (n : nat) : Py.is_int_space (digit n) = false.
Proof.
  destruct (digit_cases n) as [H|[H|[H|[H|[H|[H|[H|[H|[H|H]]]]]]]]];
    rewrite H; reflexivity.
Qed.

(** [int] reads back a number written with a fixed number of digits. *)
Lemma int_pad (w n : nat) :
  Py.int (pad (S w) n) = Ok (Z.of_nat (n mod 10 ^ S w)).
Proof.
  assert (Hstrip : Py.rstrip Py.is_int_space
                     (Py.lstrip Py.is_int_space (pad (S w) n))
                   = pad (S w) n).
  { destruct (pad_head w n) as (k & rest & Hk).
    assert (Hl : Py.lstrip Py.is_int_space (pad (S w) n) = pad (S w) n).
    { rewrite Hk. cbn [Py.lstrip]. now rewrite digit_visible. }
    rewrite Hl. cbn [pad]. apply rstrip_append_visible, digit_visible. }
  unfold Py.int. rewrite Hstrip.
  assert (Hval : Py.unsigned_val (pad (S w) n)
                 = Ok (Z.of_nat (n mod 10 ^ S w))).
  { unfold Py.unsigned_val. rewrite digits_val_pad.
    destruct (pad_head w n) as (k & rest & ->). f_equal; lia. }
  destruct (pad_head w n) as (k & rest & Hk). rewrite Hk in *.
  destruct (digit_cases k) as [H|[H|[H|[H|[H|[H|[H|[H|[H|H]]]]]]]]];
    rewrite H in *; exact Hval.
Qed.

Lemma pad_no_underscore (w n : nat) : Py.contains "_" (pad w n) = false.
Proof.
  revert n. induction w as [|w IH]; intros n; [reflexivity|].
  cbn [pad].
  assert (Happ : forall a b, Py.contains "_" a = false ->
            Py.contains "_" b = false -> Py.contains "_" (a +:+ b) = false).
  { induction a as [|x a IHa]; intros b Ha Hb; [exact Hb|].
    change (String x a +:+ b) with (String x (a +:+ b)).
    cbn [Py.contains] in *. destruct (Ascii.eqb x "_"); [discriminate|].
    now apply IHa. }
  apply Happ; [apply IH|].
  cbn [Py.contains].
  destruct (digit_cases n) as [H|[H|[H|[H|[H|[H|[H|[H|[H|H]]]]]]]]];
    rewrite H; reflexivity.
Qed.

(** X3. A group directory whose name ends in an underscore followed by
    decimal digits gets the number those digits write as its position,
    whatever comes before that underscore. *)
Theorem sample_num_of_numbered_name (prefix : string) (w n : nat) :
  sample_num_of (prefix +:+ "_" +:+ pad (S w) n)
  = Ok (Z.of_nat (n mod 10 ^ S w)).
Proof.
  unfold sample_num_of.
  change ("_" +:+ pad (S w) n) with (String "_" (pad (S w) n)).
  rewrite contains_append, last_field by apply pad_no_underscore.
  apply int_pad.
Qed.

Example numbered_name_ex : sample_num_of "big_room_07" = Ok 7.
Proof. exact (sample_num_of_numbered_name "big_room" 1 7). Qed.

(** ** When the loader returns, and what it returns *)

(** X4. [load_evaluation_samples] returns exactly when the corpus root is
    missing or is a directory, and the prompt of every group it visits can
    be resolved; otherwise it raises. Entries that are not directories, at
    either level, play no part. *)
Theorem load_returns_iff (fs : gmap string Entry) :
  succeeds (load_evaluation_samples fs) <->
  root_ok fs /\
  forall cat dir, visited fs cat dir ->
    succeeds (resolve_text_prompt fs cat dir (group_path cat dir)).
Proof.
  split.
  - intros H. apply succeeds_Ok in H as [[l msgs] Hload]. split.
    + unfold root_ok. unfold load_evaluation_samples, Os.path_exists,
        Os.listdir in Hload.
      destruct (fs !! SAMPLES_DIR) as [[content|names]|];
        [discriminate Hload | exact I | exact I].
    + intros cat dir Hv.
      destruct (load_visited _ _ _ _ _ Hload Hv) as (prompt & -> & _).
      exact I.
  - intros [Hroot Hprompts]. now apply load_succeeds.
Qed.

(** X5. Every sample of the catalog comes from a group the loader visited,
    a directory listed in a category directory listed in the root, whose
    dry audio and whose audio of the sample's condition exist; its prompt
    is the resolved prompt of the group and its two paths are the files
    [anechoic.wav] and the variant's file inside the group directory. *)
Theorem catalog_sample_origin (fs : gmap string Entry) (l : list Sample)
    (msgs : list Msg) (s : Sample) :
  load_evaluation_samples fs = Ok (l, msgs) -> s ∈ l ->
  visited fs (category s) (sample_dir s) /\
  resolves fs (category s) (sample_dir s) (condition s) /\
  resolve_text_prompt fs (category s) (sample_dir s)
    (group_path (category s) (sample_dir s)) = Ok (text_prompt s) /\
  anechoic_path s =
    Py.path_join (group_path (category s) (sample_dir s)) "anechoic.wav" /\
  reverb_path s =
    Py.path_join (group_path (category s) (sample_dir s))
                 (variant_file (condition s)).
Proof.
  intros Hload Hs.
  apply (load_elem _ _ _ Hload) in Hs as (cat & dir & prompt & Hv & Hp & Hs).
  apply emit_elem in Hs as (c & Hres & ->). cbn. auto.
Qed.

Lemma catalog_sample_origin_witness :
  Forall (fun s => visited Corpus.both (category s) (sample_dir s) /\
                   reverb_path s =
                   Py.path_join (group_path (category s) (sample_dir s))
                                (variant_file (condition s)))
         Corpus.samples_both.
Proof.
  apply Forall_forall. intros s Hs.
  destruct (catalog_sample_origin Corpus.both Corpus.samples_both [] s
              ltac:(vm_compute; reflexivity) Hs) as (Hv & _ & _ & _ & Hr).
  split; assumption.
Defined.

(** X6. The message of the loader tells the three outcomes apart: the
    error is shown exactly when the root does not exist, the warning
    exactly when the root exists and no visited group has the dry audio
    together with a variant, and nothing is shown exactly when some visited
    group has. *)
Theorem loader_message_cases (fs : gmap string Entry) (l : list Sample)
    (msgs : list Msg) :
  load_evaluation_samples fs = Ok (l, msgs) ->
  let missing :=
    [st_error ("Evaluation samples directory not found: " +:+ SAMPLES_DIR)] in
  let nothing :=
    [st_warning "No evaluation samples found in the directory structure."] in
  (msgs = missing <-> Os.path_exists fs SAMPLES_DIR = false) /\
  (msgs = nothing <->
     Os.path_exists fs SAMPLES_DIR = true /\
     forall cat dir c, visited fs cat dir -> ~ resolves fs cat dir c) /\
  (msgs = [] <-> exists cat dir c, visited fs cat dir /\ resolves fs cat dir c).
Proof.
  intros Hload missing nothing.
  assert (Hsome : l <> [] <->
            exists cat dir c, visited fs cat dir /\ resolves fs cat dir c).
  { split.
    - intros Hne. destruct l as [|s l]; [contradiction|].
      destruct (proj1 (load_elem _ _ _ Hload s) ltac:(left))
        as (cat & dir & prompt & Hv & _ & Hs).
      apply emit_elem in Hs as (c & Hres & _). eauto.
    - intros (cat & dir & c & Hv & Hres).
      destruct (load_visited _ _ _ _ _ Hload Hv) as (prompt & _ & Hin).
      intros ->.
      assert (Hs : make_sample cat dir prompt c
                (Py.path_join (group_path cat dir) "anechoic.wav")
                (Py.path_join (group_path cat dir) (variant_file c))
              ∈ ([] : list Sample)) by (apply Hin, emit_elem; eauto).
      inversion Hs. }
  assert (Hnone : l = [] <->
            forall cat dir c, visited fs cat dir -> ~ resolves fs cat dir c).
  { split.
    - intros -> cat dir c Hv Hres.
      apply (proj2 Hsome); [eauto 6 | reflexivity].
    - intros Hno. destruct l as [|s l]; [reflexivity|]. exfalso.
      destruct (proj1 Hsome ltac:(discriminate))
        as (cat & dir & c & Hv & Hres).
      exact (Hno _ _ _ Hv Hres). }
  unfold load_evaluation_samples in Hload.
  destruct (Os.path_exists fs SAMPLES_DIR) eqn:Hroot; simpl in Hload.
  - apply bind_Ok in Hload as (categories & _ & Hload).
    apply bind_Ok in Hload as (samples & _ & Hload).
    injection Hload as -> <-.
    destruct l as [|s l].
    + split; [split; discriminate|].
      split; [split; [intros _; split; [reflexivity | now apply Hnone]
                     | reflexivity]|].
      split; [discriminate|]. intros H. now apply Hsome in H.
    + split; [split; discriminate|].
      split; [split; [discriminate|]|].
      * intros [_ Hno]. apply Hnone in Hno. discriminate Hno.
      * split; [|reflexivity]. intros _. now apply Hsome.
  - injection Hload as <- <-.
    split; [split; reflexivity|].
    split; [split; [discriminate | intros [H _]; discriminate H]|].
    split; [discriminate|]. intros H. now apply Hsome in H.
Qed.

Lemma loader_message_cases_witness :
  ([] : list Msg) = [] <->
  exists cat dir c, visited Corpus.both cat dir /\ resolves Corpus.both cat dir c.
Proof.
  exact (proj2 (proj2 (loader_message_cases Corpus.both Corpus.samples_both []
                         ltac:(vm_compute; reflexivity)))).
Defined.

(** ** One run of the script, case by case *)

(** The three ways a run of [evaluation_interface] can end without
    raising: on the completion screen, on the page of the current sample,
    or in a handler that leaves the sample. *)
Lemma eval_cases (env : Env) (ss : SessionState)
    (files : gmap string FileContent) (ui : UI) (r : Run) :
  evaluation_interface env ss files ui = Ok r ->
  (Z.of_nat (length (sample_order ss)) <= current_sample_idx ss /\
   r = {| state := ss; store := show_completion (clock env) ss files;
          shown := completion_msgs (clock env); view := ShowCompletion |}) \/
  (exists sample,
     current_sample_idx ss < Z.of_nat (length (sample_order ss)) /\
     current_sample ss = Ok sample /\
     ((r = {| state := ss; store := files;
              shown := audio_warnings (fs env) sample;
              view := ShowSample sample
                (st_slider 1 5 (existing_get (ratings ss !! id sample)
                                  Rating.quality) (quality_input ui))
                (st_slider 1 5 (existing_get (ratings ss !! id sample)
                                  Rating.match_) (match_input ui)) |} /\
       (clicked ui = NoClick \/
        (clicked ui = PrevClick /\ current_sample_idx ss <= 0))) \/
      (exists delta,
         r = {| state := leave ss sample ui delta; store := files;
                shown := []; view := Rerun |} /\
         (clicked ui = NextClick /\ delta = 1 \/
          clicked ui = PrevClick /\ delta = -1 /\
          0 < current_sample_idx ss)))).
Proof.
  unfold evaluation_interface.
  destruct (Z.leb_spec (Z.of_nat (length (sample_order ss)))
                       (current_sample_idx ss)) as [Hdone|Hlt].
  { intros [= <-]. left. split; [assumption | reflexivity]. }
  intros H. apply bind_Ok in H as (sample & Hcur & H).
  right. exists sample. split; [assumption|]. split; [assumption|].
  destruct (Z.ltb_spec 0 (current_sample_idx ss)) as [Hpos|Hzero];
    destruct (clicked ui); injection H as <-;
    first [ left; split; [reflexivity|]; first [now left | right; split; [reflexivity | lia]]
          | right; eexists; split; [reflexivity|]; first [now left | right; repeat split; lia] ].
Qed.

Lemma main_cases (env : Env) (ss : SessionState)
    (files : gmap string FileContent) (ui : UI) (r : Run) :
  main env ss files ui = Ok r ->
  exists ss1 msgs r0,
    initialize env ss = Ok (ss1, msgs) /\
    evaluation_interface env ss1 files ui = Ok r0 /\
    state r = state r0 /\ store r = store r0 /\ view r = view r0 /\
    shown r = (msgs ++ shown r0)%list.
Proof.
  unfold main. intros H.
  apply bind_Ok in H as ([ss1 msgs] & Hinit & H).
  apply bind_Ok in H as (r0 & Hr0 & [= <-]).
  exists ss1, msgs, r0. simpl. auto 10.
Qed.

Lemma initialize_frame (env : Env) (ss ss1 : SessionState)
    (msgs : list Msg) :
  initialize env ss = Ok (ss1, msgs) ->
  is_Some (samples ss1) /\
  ratings ss1 = ratings ss /\ current_sample_idx ss1 = current_sample_idx ss /\
  (is_Some (samples ss) -> ss1 = ss).
Proof.
  unfold initialize. destruct (samples ss) as [l|] eqn:Hs.
  - intros [= <- <-]. rewrite Hs. repeat split; eauto.
  - intros H. apply bind_Ok in H as ([l msgs'] & _ & [= <- <-]). simpl.
    repeat split; [eauto|]. intros [x Hx]. discriminate Hx.
Qed.

(** What a run leaves untouched. *)
Lemma eval_frame (env : Env) (ss : SessionState)
    (files : gmap string FileContent) (ui : UI) (r : Run) :
  evaluation_interface env ss files ui = Ok r ->
  sample_order (state r) = sample_order ss /\
  samples (state r) = samples ss.
Proof.
  intros H.
  destruct (eval_cases _ _ _ _ _ H)
    as [[_ ->]|(sample & _ & _ & [[-> _]|(delta & -> & _)])];
    split; reflexivity.
Qed.

Lemma main_frame (env : Env) (ss : SessionState)
    (files : gmap string FileContent) (ui : UI) (r : Run) :
  is_Some (samples ss) -> main env ss files ui = Ok r ->
  sample_order (state r) = sample_order ss /\
  samples (state r) = samples ss.
Proof.
  intros Hs H.
  destruct (main_cases _ _ _ _ _ H)
    as (ss1 & msgs & r0 & Hinit & Hr0 & -> & _).
  destruct (initialize_frame _ _ _ _ Hinit) as (_ & _ & _ & Heq).
  rewrite (Heq Hs) in Hr0. now apply eval_frame in Hr0.
Qed.

Lemma interact_frame (env : Env) (ss : SessionState)
    (files : gmap string FileContent) (ui : UI) (r : Run) :
  is_Some (samples ss) -> interact env ss files ui = Ok r ->
  sample_order (state r) = sample_order ss /\
  samples (state r) = samples ss.
Proof.
  intros Hs H. unfold interact in H.
  apply bind_Ok in H as (r1 & Hr1 & H).
  destruct (main_frame _ _ _ _ _ Hs Hr1) as [Ho1 Hs1].
  destruct (view r1); try (injection H as <-; now split).
  apply bind_Ok in H as (r2 & Hr2 & [= <-]). simpl.
  assert (Hs' : is_Some (samples (state r1))) by now rewrite Hs1.
  destruct (main_frame _ _ _ _ _ Hs' Hr2) as [Ho2 Hs2].
  split; congruence.
Qed.

Lemma start_samples (env : Env) (files : gmap string FileContent) (r : Run) :
  start env files = Ok r -> is_Some (samples (state r)).
Proof.
  intros H. destruct (start_loads _ _ _ H) as (l & msgs & _ & ->).
  simpl. eauto.
Qed.

Lemma actions_frame (steps : list (Env * UI)) :
  forall r r', is_Some (samples (state r)) ->
    actions r steps = Ok r' ->
    sample_order (state r') = sample_order (state r) /\
    samples (state r') = samples (state r).
Proof.
  induction steps as [|[env ui] steps IH]; intros r r' Hs; cbn [actions].
  - intros [= <-]. now split.
  - intros H. apply bind_Ok in H as (r1 & Hr1 & H).
    destruct (interact_frame _ _ _ _ _ Hs Hr1) as [Ho1 Hs1].
    assert (Hs' : is_Some (samples (state r1))) by now rewrite Hs1.
    destruct (IH _ _ Hs' H) as [Ho2 Hs2]. split; congruence.
Qed.

(** X7. The presentation order and the catalog are set once, by the first
    run, and no action of the rater changes them afterwards, whatever the
    values and buttons of those actions. *)
Theorem order_and_catalog_fixed (env : Env)
    (files : gmap string FileContent) (steps : list (Env * UI)) (r : Run) :
  session env files steps = Ok r ->
  exists r0 l,
    start env files = Ok r0 /\
    samples (state r0) = Some l /\
    sample_order (state r0) = random_sample (rnd env) (length l) /\
    sample_order (state r) = sample_order (state r0) /\
    samples (state r) = samples (state r0).
Proof.
  unfold session. intros H. apply bind_Ok in H as (r0 & Hr0 & H).
  destruct (start_loads _ _ _ Hr0) as (l & msgs & _ & Hst).
  destruct (actions_frame _ _ _ (start_samples _ _ _ Hr0) H) as [Ho Hs].
  exists r0, l. rewrite Hst in *. simpl in *. auto.
Qed.

Lemma order_and_catalog_fixed_witness :
  let env := Corpus.env_of Corpus.both in
  let r := Corpus.run_after env
             [Corpus.rate NextClick 4 5; Corpus.rate PrevClick 2 2] in
  exists r0 l,
    start env ∅ = Ok r0 /\ samples (state r0) = Some l /\
    sample_order (state r0) = random_sample (rnd env) (length l) /\
    sample_order (state r) = sample_order (state r0) /\
    samples (state r) = samples (state r0).
Proof.
  intros env r.
  apply (order_and_catalog_fixed env ∅
           (Corpus.during env
              [Corpus.rate NextClick 4 5; Corpus.rate PrevClick 2 2]) r).
  vm_compute. reflexivity.
Defined.

(** ** Sessions never raise once the catalog is loaded *)

Lemma interact_total (env : Env) (ss : SessionState)
    (files : gmap string FileContent) (ui : UI) :
  session_inv ss -> succeeds (interact env ss files ui).
Proof.
  intros Hinv. unfold interact.
  destruct (main env ss files ui) as [r1|e] eqn:Hr1.
  - pose proof (main_inv _ _ _ _ _ Hinv Hr1) as Hinv1. simpl.
    destruct (view r1); try exact I.
    rewrite main_loaded by apply Hinv1.
    destruct (succeeds_Ok _ (evaluation_interface_total env (state r1)
                               (store r1) no_input Hinv1)) as [r2 ->].
    exact I.
  - rewrite main_loaded in Hr1 by apply Hinv.
    destruct (succeeds_Ok _ (evaluation_interface_total env ss files ui Hinv))
      as [r0 Hr0].
    rewrite Hr0 in Hr1. discriminate Hr1.
Qed.

Lemma actions_total (steps : list (Env * UI)) :
  forall r, session_inv (state r) -> succeeds (actions r steps).
Proof.
  induction steps as [|[env ui] steps IH]; intros r Hinv; cbn [actions];
    [exact I|].
  destruct (succeeds_Ok _ (interact_total env (state r) (store r) ui Hinv))
    as [r1 Hr1].
  rewrite Hr1. cbn [bind]. apply IH.
  eapply interact_inv; eauto.
Qed.

(** X8. Once the loader has returned, the script never raises: whatever
    buttons the rater presses and wherever the sliders are moved within
    their range, every run of the session ends normally (no index out of
    range, no slider refused). *)
Theorem session_never_raises (env : Env) (files : gmap string FileContent)
    (steps : list (Env * UI)) :
  succeeds (load_evaluation_samples (fs env)) ->
  Forall (fun step => ui_ok (snd step)) steps ->
  succeeds (session env files steps).
Proof.
  intros Hload _. apply succeeds_Ok in Hload as [[l msgs] Hload].
  destruct (start_after_load env files l msgs Hload) as (r0 & _ & _ & Hstart).
  unfold session. rewrite Hstart. cbn [bind].
  apply actions_total. cbn [state]. apply loaded_state_inv.
Qed.

Lemma session_never_raises_witness :
  succeeds (session (Corpus.env_of Corpus.both) ∅
              (Corpus.during (Corpus.env_of Corpus.both)
                 [Corpus.rate NextClick 1 5; press PrevClick;
                  Corpus.rate PrevClick 3 3; press NextClick; press NextClick;
                  press NextClick])).
Proof.
  apply session_never_raises.
  - vm_compute. exact I.
  - repeat constructor; simpl; lia.
Defined.

(** ** The completion screen *)

Lemma interact_complete (env : Env) (ss : SessionState)
    (files : gmap string FileContent) (ui : UI) :
  is_Some (samples ss) ->
  Z.of_nat (length (sample_order ss)) <= current_sample_idx ss ->
  interact env ss files ui =
  Ok {| state := ss; store := show_completion (clock env) ss files;
        shown := completion_msgs (clock env); view := ShowCompletion |}.
Proof.
  intros Hs Hdone. unfold interact.
  rewrite main_loaded by assumption.
  rewrite eval_complete by assumption. reflexivity.
Qed.

Lemma rewritten_lookup (ss : SessionState) (steps : list (Env * UI))
    (files : gmap string FileContent) :
  (forall env ui, (env, ui) ∈ steps ->
     exists rec,
       rewritten ss steps files !! results_filename (now_filename (clock env))
         = Some (Whole rec) /\
       results_ratings rec = ratings ss) /\
  (forall name,
     (forall env ui, (env, ui) ∈ steps ->
        name <> results_filename (now_filename (clock env))) ->
     rewritten ss steps files !! name = files !! name).
Proof.
  unfold rewritten.
  induction steps as [|[env0 ui0] steps [IHin IHout]] using rev_ind.
  - split; [intros env ui H; inversion H | reflexivity].
  - rewrite foldl_app. cbn [foldl fst]. rewrite show_completion_eq. split.
    + intros env ui Hin.
      destruct (decide (results_filename (now_filename (clock env)) =
                        results_filename (now_filename (clock env0))))
        as [Heq|Hne].
      * rewrite Heq, lookup_insert_eq. eexists. split; reflexivity.
      * rewrite lookup_insert_ne by congruence.
        apply elem_of_app in Hin as [Hin|Hin]; [eauto|].
        apply list_elem_of_singleton in Hin. congruence.
    + intros name Hname. rewrite lookup_insert_ne.
      * apply IHout. intros env ui Hin. apply (Hname env ui).
        apply elem_of_app. now left.
      * intros Heq. apply (Hname env0 ui0); [|now symmetry].
        apply elem_of_app. right. now apply list_elem_of_singleton.
Qed.

Lemma actions_complete (steps : list (Env * UI)) :
  forall r,
    is_Some (samples (state r)) ->
    Z.of_nat (length (sample_order (state r)))
      <= current_sample_idx (state r) ->
    exists r',
      actions r steps = Ok r' /\ state r' = state r /\
      store r' = rewritten (state r) steps (store r) /\
      (steps <> [] -> view r' = ShowCompletion).
Proof.
  induction steps as [|[env ui] steps IH]; intros r Hs Hdone.
  - exists r. repeat split. intros H. contradiction.
  - cbn [actions]. rewrite interact_complete by assumption. cbn [bind].
    set (r1 := {| state := state r;
                  store := show_completion (clock env) (state r) (store r);
                  shown := completion_msgs (clock env);
                  view := ShowCompletion |}).
    destruct (IH r1 Hs Hdone) as (r' & Hr' & Hst & Hsto & Hview).
    exists r'. split; [exact Hr'|]. split; [exact Hst|].
    split; [exact Hsto|]. intros _.
    destruct steps as [|step steps']; [|apply Hview; discriminate].
    cbn [actions] in Hr'. now injection Hr' as <-.
Qed.

(** X9. The completion screen is final for the session state. In a state
    whose cursor is at the end of the order, every further run leaves the
    session state as it is and shows the completion screen again. Each of
    these runs writes the record once more, under the name of the time it
    reads: every name written holds a whole record with the ratings of the
    session, and the other files of the results directory stay as they
    are. *)
Theorem completion_is_final (r : Run) (steps : list (Env * UI)) :
  is_Some (samples (state r)) ->
  Z.of_nat (length (sample_order (state r))) <= current_sample_idx (state r) ->
  exists r',
    actions r steps = Ok r' /\
    state r' = state r /\
    (steps <> [] -> view r' = ShowCompletion) /\
    store r' = rewritten (state r) steps (store r) /\
    (forall env ui, (env, ui) ∈ steps ->
       exists rec,
         store r' !! results_filename (now_filename (clock env))
           = Some (Whole rec) /\
         results_ratings rec = ratings (state r)) /\
    (forall name,
       (forall env ui, (env, ui) ∈ steps ->
          name <> results_filename (now_filename (clock env))) ->
       store r' !! name = store r !! name).
Proof.
  intros Hs Hdone.
  destruct (actions_complete steps r Hs Hdone)
    as (r' & Hr' & Hst & Hsto & Hview).
  destruct (rewritten_lookup (state r) steps (store r)) as [Hin Hout].
  exists r'. rewrite Hsto. auto 10.
Qed.

Lemma completion_is_final_witness :
  let env := Corpus.env_of Corpus.single in
  let r := Corpus.run_after env [Corpus.rate NextClick 4 5] in
  let later := Corpus.after 2 Corpus.single in
  exists r' rec,
    actions r [(Corpus.after 1 Corpus.single, no_input); (later, no_input)]
      = Ok r' /\
    state r' = state r /\
    store r !! results_filename (now_filename (clock later)) = None /\
    store r' !! results_filename (now_filename (clock later))
      = Some (Whole rec) /\
    results_ratings rec = ratings (state r).
Proof.
  intros env r later.
  destruct (completion_is_final r
              [(Corpus.after 1 Corpus.single, no_input); (later, no_input)])
    as (r' & Hr' & Hst & _ & _ & Hin & _).
  - eexists. reflexivity.
  - vm_compute. discriminate.
  - destruct (Hin later no_input) as (rec & Hrec & Hrat).
    { apply elem_of_cons. right. now apply list_elem_of_singleton. }
    exists r', rec. split; [exact Hr'|]. split; [exact Hst|].
    split; [vm_compute; reflexivity|]. split; assumption.
Defined.

Lemma main_store (env : Env) (ss : SessionState)
    (files : gmap string FileContent) (ui : UI) (r : Run) :
  main env ss files ui = Ok r ->
  (view r = ShowCompletion ->
     store r = show_completion (clock env) (state r) files /\
     Z.of_nat (length (sample_order (state r)))
       <= current_sample_idx (state r)) /\
  (view r <> ShowCompletion -> store r = files).
Proof.
  intros H.
  destruct (main_cases _ _ _ _ _ H)
    as (ss1 & msgs & r0 & _ & Hr0 & -> & -> & -> & _).
  destruct (eval_cases _ _ _ _ _ Hr0)
    as [[Hdone ->]|(sample & _ & _ & [[-> _]|(delta & -> & _)])];
    cbn [state store view]; split; try discriminate; try contradiction;
    auto.
Qed.

(** X10. The results directory is written on completion and only then. A
    rater action that ends on the completion screen has written, under the
    name of the completion time, a whole record holding exactly the ratings
    of the final state, and has touched no other file; an action that ends
    anywhere else has written nothing. *)
Theorem results_written_on_completion_only (env : Env) (ss : SessionState)
    (files : gmap string FileContent) (ui : UI) (r : Run) :
  interact env ss files ui = Ok r ->
  (view r = ShowCompletion ->
     store r !! results_filename (now_filename (clock env)) =
       Some (Whole {| results_ratings := ratings (state r);
                      completion_time :=
                        isoformat (now_completion (clock env)) |}) /\
     (forall other, other <> results_filename (now_filename (clock env)) ->
        store r !! other = files !! other) /\
     Z.of_nat (length (sample_order (state r)))
       <= current_sample_idx (state r)) /\
  (view r <> ShowCompletion -> store r = files).
Proof.
  intros H.
  assert (Hgoal :
    (view r = ShowCompletion ->
       store r = show_completion (clock env) (state r) files /\
       Z.of_nat (length (sample_order (state r)))
         <= current_sample_idx (state r)) /\
    (view r <> ShowCompletion -> store r = files)).
  { unfold interact in H. apply bind_Ok in H as (r1 & Hr1 & H).
    destruct (main_store _ _ _ _ _ Hr1) as [Hc1 Hn1].
    destruct (view r1) eqn:Hv1.
    - injection H as <-. rewrite Hv1. split; [discriminate | auto].
    - injection H as <-. rewrite Hv1. split; [auto | contradiction].
    - apply bind_Ok in H as (r2 & Hr2 & [= <-]). cbn [state store view].
      destruct (main_store _ _ _ _ _ Hr2) as [Hc2 Hn2].
      rewrite (Hn1 ltac:(discriminate)) in Hc2, Hn2. split; assumption. }
  destruct Hgoal as [Hc Hn]. split; [|exact Hn].
  intros Hview. destruct (Hc Hview) as [Hstore Hdone].
  rewrite Hstore, show_completion_eq.
  split; [apply lookup_insert_eq|]. split; [|exact Hdone].
  intros other Hne. now rewrite lookup_insert_ne by congruence.
Qed.

Lemma results_written_on_completion_only_witness :
  let env := Corpus.env_of Corpus.both in
  exists r,
    interact env Corpus.at_first ∅ (Corpus.rate NextClick 4 5) = Ok r /\
    store r = ∅.
Proof.
  intros env. eexists. split; [vm_compute; reflexivity|].
  refine (proj2 (results_written_on_completion_only env Corpus.at_first ∅
                   (Corpus.rate NextClick 4 5) _ _) _).
  - vm_compute. reflexivity.
  - discriminate.
Defined.

(** ** What the rater sees when coming back *)

(** A move to a position inside the order, with the page the rerun
    draws. *)
Lemma interact_move_view (env : Env) (ss : SessionState)
    (files : gmap string FileContent) (ui : UI) (c delta : Z)
    (sample : Sample) :
  session_inv ss -> Active ss c ->
  current_sample ss = Ok sample -> sample ∈ catalog ss ->
  (clicked ui = NextClick /\ delta = 1 \/
   clicked ui = PrevClick /\ delta = -1 /\ 0 < c) ->
  0 <= c + delta < Z.of_nat (length (sample_order ss)) ->
  exists next,
    current_sample (leave ss sample ui delta) = Ok next /\
    next ∈ catalog ss /\
    session_inv (leave ss sample ui delta) /\
    Active (leave ss sample ui delta) (c + delta) /\
    interact env ss files ui =
    Ok {| state := leave ss sample ui delta; store := files;
          shown := audio_warnings (fs env) next;
          view := ShowSample next
            (existing_get (ratings (leave ss sample ui delta) !! id next)
                          Rating.quality)
            (existing_get (ratings (leave ss sample ui delta) !! id next)
                          Rating.match_) |}.
Proof.
  intros [Hwf Hok] Hact Hcur Hcat Hclick Hin.
  assert (Hrun : evaluation_interface env ss files ui =
    Ok {| state := leave ss sample ui delta; store := files; shown := [];
          view := Rerun |}).
  { destruct Hclick as [[Hc ->]|(Hc & -> & Hpos)].
    - eapply eval_next; eauto.
    - eapply eval_prev; eauto. }
  assert (Hwf' : well_formed (leave ss sample ui delta)).
  { apply leave_well_formed; [assumption|]. destruct Hact as [-> _]. lia. }
  assert (Hact' : Active (leave ss sample ui delta) (c + delta)).
  { destruct Hact as [Hc _]. split; simpl; [now rewrite Hc | exact Hin]. }
  assert (Hok' : ratings_ok (leave ss sample ui delta))
    by now apply leave_ratings_ok.
  destruct (current_sample_Ok _ _ Hwf' Hact') as (next & Hnext & Hcat').
  exists next. split; [exact Hnext|]. split; [exact Hcat'|].
  split; [now split|]. split; [exact Hact'|].
  pose proof (eval_stay env _ files no_input _ next Hact' Hnext
                ltac:(now left)) as Hstay.
  unfold interact. rewrite main_loaded by apply Hwf.
  rewrite Hrun. cbn [bind state store view shown].
  rewrite main_loaded by apply Hwf'.
  rewrite Hstay. reflexivity.
Qed.

(** X11. The values left on a sample are the values found on coming back.
    From Active(c), leaving the sample forwards with the sliders at some
    values and coming straight back with Previous (or, when c > 0, leaving
    it backwards and coming straight back with Next), the page shows the
    same sample again with both sliders at the values the rater left. *)
Theorem values_found_on_coming_back (env : Env) (ss : SessionState)
    (files : gmap string FileContent) (ui : UI) (c delta : Z) :
  session_inv ss -> ui_ok ui -> Active ss c ->
  (clicked ui = NextClick /\ delta = 1 \/
   clicked ui = PrevClick /\ delta = -1 /\ 0 < c) ->
  0 <= c + delta < Z.of_nat (length (sample_order ss)) ->
  exists sample r1 r2,
    current_sample ss = Ok sample /\
    interact env ss files ui = Ok r1 /\
    interact env (state r1) (store r1)
      (press (if delta =? 1 then PrevClick else NextClick)) = Ok r2 /\
    current_sample_idx (state r2) = c /\
    view r2 = ShowSample sample
      (st_slider 1 5 (existing_get (ratings ss !! id sample) Rating.quality)
                 (quality_input ui))
      (st_slider 1 5 (existing_get (ratings ss !! id sample) Rating.match_)
                 (match_input ui)).
Proof.
  intros Hinv Hui Hact Hclick Hin.
  destruct (current_sample_Ok _ _ (proj1 Hinv) Hact)
    as (sample & Hcur & Hcat).
  destruct (interact_move_view env ss files ui c delta sample
              Hinv Hact Hcur Hcat Hclick Hin)
    as (next & Hnext & Hcat1 & Hinv1 & Hact1 & Hr1).
  set (ss1 := leave ss sample ui delta) in *.
  set (back := press (if delta =? 1 then PrevClick else NextClick)).
  assert (Hcat1' : next ∈ catalog ss1) by exact Hcat1.
  assert (Hlen : sample_order ss1 = sample_order ss) by reflexivity.
  assert (Hback : clicked back = NextClick /\ - delta = 1 \/
                  clicked back = PrevClick /\ - delta = -1 /\ 0 < c + delta).
  { pose proof Hact as [_ Hrange].
    unfold back. destruct Hclick as [[_ ->]|(_ & -> & Hpos)]; simpl.
    - right. repeat split; lia.
    - left. split; [reflexivity | lia]. }
  destruct (interact_move_view env ss1 files back (c + delta) (- delta) next
              Hinv1 Hact1 Hnext Hcat1' Hback)
    as (again & Hagain & _ & _ & Hact2 & Hr2).
  { rewrite Hlen. destruct Hact. lia. }
  set (ss2 := leave ss1 next back (- delta)) in *.
  assert (Hidx2 : current_sample_idx ss2 = c)
    by (destruct Hact2 as [-> _]; lia).
  assert (Hsame : again = sample).
  { assert (H : current_sample ss2 = current_sample ss).
    { unfold current_sample. rewrite Hidx2.
      destruct Hact as [-> _]. reflexivity. }
    rewrite H, Hcur in Hagain. now injection Hagain as <-. }
  subst again.
  assert (Hsaved : ratings ss1 !! id sample =
    Some (Rating.mk (id sample) (category sample) (condition sample)
            (st_slider 1 5 (existing_get (ratings ss !! id sample)
                              Rating.quality) (quality_input ui))
            (st_slider 1 5 (existing_get (ratings ss !! id sample)
                              Rating.match_) (match_input ui))
            (current_sample_idx ss))).
  { unfold ss1, leave, navigate, save_rating. cbn [ratings].
    apply lookup_insert_eq. }
  assert (Hkept : existing_get (ratings ss2 !! id sample) Rating.quality =
                  st_slider 1 5 (existing_get (ratings ss !! id sample)
                                   Rating.quality) (quality_input ui) /\
                  existing_get (ratings ss2 !! id sample) Rating.match_ =
                  st_slider 1 5 (existing_get (ratings ss !! id sample)
                                   Rating.match_) (match_input ui)).
  { unfold ss2, leave, navigate, save_rating. cbn [ratings].
    destruct (decide (id next = id sample)) as [Heq|Hne].
    - rewrite Heq, lookup_insert_eq.
      change (st_slider 1 5 ?x (quality_input back)) with x.
      change (st_slider 1 5 ?x (match_input back)) with x.
      cbn [existing_get Rating.quality Rating.match_].
      rewrite Hsaved. split; reflexivity.
    - rewrite lookup_insert_ne by assumption. rewrite Hsaved.
      split; reflexivity. }
  exists sample. eexists. eexists.
  split; [exact Hcur|]. split; [exact Hr1|].
  cbn [state store]. split; [exact Hr2|]. cbn [state view].
  split; [exact Hidx2|]. destruct Hkept as [-> ->]. reflexivity.
Qed.

Lemma values_found_on_coming_back_witness :
  let env := Corpus.env_of Corpus.both in
  exists sample r1 r2,
    current_sample Corpus.at_first = Ok sample /\
    interact env Corpus.at_first ∅ (Corpus.rate NextClick 2 5) = Ok r1 /\
    interact env (state r1) (store r1) (press PrevClick) = Ok r2 /\
    current_sample_idx (state r2) = 0 /\
    view r2 = ShowSample sample 2 5.
Proof.
  intros env.
  apply (values_found_on_coming_back env Corpus.at_first ∅
           (Corpus.rate NextClick 2 5) 0 1 at_first_inv).
  - split; simpl; lia.
  - split; [reflexivity | simpl; lia].
  - left. split; reflexivity.
  - simpl. lia.
Defined.

(** ** The first page *)

Lemma load_nonempty_msgs (fs : gmap string Entry) (s : Sample)
    (l : list Sample) (msgs : list Msg) :
  load_evaluation_samples fs = Ok (s :: l, msgs) -> msgs = [].
Proof.
  unfold load_evaluation_samples.
  destruct (Os.path_exists fs SAMPLES_DIR); simpl; [|discriminate].
  intros H. apply bind_Ok in H as (categories & _ & H).
  apply bind_Ok in H as (samples & _ & H).
  injection H as -> <-. reflexivity.
Qed.

Lemma catalog_audio_present (fs : gmap string Entry) (l : list Sample)
    (msgs : list Msg) (s : Sample) :
  load_evaluation_samples fs = Ok (l, msgs) -> s ∈ l ->
  audio_warnings fs s = [].
Proof.
  intros Hload Hs.
  apply (load_elem _ _ _ Hload) in Hs as (cat & dir & prompt & _ & _ & Hs).
  apply emit_elem in Hs as (c & [Ha Hv] & ->).
  unfold audio_warnings. cbn [anechoic_path reverb_path make_sample].
  now rewrite Ha, Hv.
Qed.

(** X12. With a catalog that is not empty, opening the page shows the
    sample at the first position of the order with both sliders at the
    midpoint 3; nothing is rated yet, no message is shown (both audio files
    are there) and nothing is written to the results directory. *)
Theorem first_page (env : Env) (files : gmap string FileContent)
    (l : list Sample) (msgs : list Msg) :
  load_evaluation_samples (fs env) = Ok (l, msgs) -> l <> [] ->
  exists r sample,
    start env files = Ok r /\
    current_sample (state r) = Ok sample /\ sample ∈ l /\
    view r = ShowSample sample 3 3 /\
    shown r = [] /\ store r = files /\
    ratings (state r) = ∅ /\ current_sample_idx (state r) = 0.
Proof.
  intros Hload Hne.
  destruct (start_after_load env files l msgs Hload)
    as (r0 & Hr0 & Hst & Hstart).
  set (ss := {| current_sample_idx := 0;
                sample_order := random_sample (rnd env) (length l);
                ratings := ∅; samples := Some l |}) in *.
  pose proof (loaded_state_inv (rnd env) l) as [Hwf Hok]. fold ss in Hwf, Hok.
  assert (Hact : Active ss 0).
  { split; [reflexivity|]. cbn [ss sample_order].
    rewrite random_sample_length. destruct l; [contradiction | simpl; lia]. }
  destruct (current_sample_Ok ss 0 Hwf Hact) as (sample & Hcur & Hcat).
  rewrite (eval_stay env ss files no_input 0 sample Hact Hcur
             ltac:(now left)) in Hr0.
  injection Hr0 as <-.
  assert (Hmsgs : msgs = []).
  { destruct l as [|s l']; [contradiction|].
    eapply load_nonempty_msgs; eauto. }
  eexists. exists sample. split; [exact Hstart|].
  cbn [state store shown view].
  split; [exact Hcur|]. split; [exact Hcat|].
  split; [now rewrite lookup_empty|].
  split; [rewrite Hmsgs; cbn [app];
          eapply catalog_audio_present; eauto|].
  repeat split.
Qed.

Lemma first_page_witness :
  exists r sample,
    start (Corpus.env_of Corpus.both) ∅ = Ok r /\
    current_sample (state r) = Ok sample /\
    sample ∈ Corpus.samples_both /\
    view r = ShowSample sample 3 3 /\
    shown r = [] /\ store r = ∅ /\
    ratings (state r) = ∅ /\ current_sample_idx (state r) = 0.
Proof.
  apply (first_page (Corpus.env_of Corpus.both) ∅ Corpus.samples_both []).
  - vm_compute. reflexivity.
  - discriminate.
Defined.

(** ** Ratings only grow *)

Lemma main_ratings (env : Env) (ss : SessionState)
    (files : gmap string FileContent) (ui : UI) (r : Run) :
  main env ss files ui = Ok r ->
  (ratings (state r) = ratings ss /\
   current_sample_idx (state r) = current_sample_idx ss /\
   view r <> Rerun) \/
  (exists sample q m,
     ratings (state r) =
       save_rating sample q m (current_sample_idx ss) (ratings ss) /\
     view r = Rerun /\ clicked ui <> NoClick).
Proof.
  intros H.
  destruct (main_cases _ _ _ _ _ H)
    as (ss1 & msgs & r0 & Hinit & Hr0 & -> & _ & -> & _).
  destruct (initialize_frame _ _ _ _ Hinit) as (_ & Hrat & Hidx & _).
  destruct (eval_cases _ _ _ _ _ Hr0)
    as [[_ ->]|(sample & _ & _ & [[-> _]|(delta & -> & Hclick)])];
    cbn [state view].
  - left. repeat split; try assumption. discriminate.
  - left. repeat split; try assumption. discriminate.
  - right. do 3 eexists. unfold leave, navigate. cbn [ratings].
    rewrite Hrat, Hidx. split; [reflexivity|]. split; [reflexivity|].
    destruct Hclick as [[-> _]|[-> _]]; discriminate.
Qed.

(** What one action does to the ratings: nothing, or one write at the
    position the rater was on. *)
Lemma interact_ratings (env : Env) (ss : SessionState)
    (files : gmap string FileContent) (ui : UI) (r : Run) :
  interact env ss files ui = Ok r ->
  (ratings (state r) = ratings ss /\
   current_sample_idx (state r) = current_sample_idx ss) \/
  (exists sample q m,
     ratings (state r) =
       save_rating sample q m (current_sample_idx ss) (ratings ss) /\
     clicked ui <> NoClick).
Proof.
  intros H. unfold interact in H. apply bind_Ok in H as (r1 & Hr1 & H).
  destruct (main_ratings _ _ _ _ _ Hr1)
    as [(Hrat & Hidx & Hview)|(sample & q & m & Hrat & Hview & Hclick)].
  - destruct (view r1); try contradiction; injection H as <-; now left.
  - rewrite Hview in H. apply bind_Ok in H as (r2 & Hr2 & [= <-]).
    cbn [state].
    destruct (main_ratings _ _ _ _ _ Hr2)
      as [(Hrat2 & _ & _)|(? & ? & ? & _ & _ & Hno)];
      [|now contradiction Hno].
    right. exists sample, q, m. split; [congruence | assumption].
Qed.

(** X13. No action of the rater removes a rating. After any action every
    sample that had a rating still has one, the number of ratings has
    grown by at most one, and an entry that is new or changed records the
    position the rater was on. *)
Theorem ratings_only_grow (env : Env) (ss : SessionState)
    (files : gmap string FileContent) (ui : UI) (r : Run) :
  interact env ss files ui = Ok r ->
  (forall k, is_Some (ratings ss !! k) -> is_Some (ratings (state r) !! k)) /\
  (size (ratings ss) <= size (ratings (state r)) <= S (size (ratings ss)))%nat
  /\
  (forall k v, ratings (state r) !! k = Some v ->
     ratings ss !! k = Some v \/
     Rating.order_presented v = current_sample_idx ss).
Proof.
  intros H.
  destruct (interact_ratings _ _ _ _ _ H)
    as [[-> _]|(sample & q & m & -> & _)].
  - repeat split; auto.
  - unfold save_rating. split; [|split].
    + intros k Hk. destruct (decide (id sample = k)) as [<-|Hne].
      * rewrite lookup_insert_eq. eauto.
      * now rewrite lookup_insert_ne.
    + rewrite map_size_insert.
      destruct (ratings ss !! id sample); simpl; lia.
    + intros k v. destruct (decide (id sample = k)) as [<-|Hne].
      * rewrite lookup_insert_eq. intros [= <-]. now right.
      * rewrite lookup_insert_ne by assumption. now left.
Qed.

Lemma ratings_only_grow_witness :
  let env := Corpus.env_of Corpus.both in
  let r := Corpus.run_after env [Corpus.rate NextClick 4 5] in
  exists r',
    interact env (state r) (store r) (Corpus.rate PrevClick 1 1) = Ok r' /\
    (size (ratings (state r)) <= size (ratings (state r'))
       <= S (size (ratings (state r))))%nat.
Proof.
  intros env r. eexists. split; [vm_compute; reflexivity|].
  refine (proj1 (proj2 (ratings_only_grow env (state r) (store r)
                          (Corpus.rate PrevClick 1 1) _ _))).
  vm_compute. reflexivity.
Defined.

(** X14. Moving the sliders without pressing a button records nothing: the
    ratings and the cursor stay as they are, and the page shows the same
    sample with the sliders where the rater put them (or the completion
    screen, when the session is complete). *)
Theorem slider_moves_record_nothing (env : Env) (ss : SessionState)
    (files : gmap string FileContent) (ui : UI) (r : Run) :
  clicked ui = NoClick -> interact env ss files ui = Ok r ->
  ratings (state r) = ratings ss /\
  current_sample_idx (state r) = current_sample_idx ss /\
  (view r = ShowCompletion \/
   exists sample,
     current_sample (state r) = Ok sample /\
     view r = ShowSample sample
       (st_slider 1 5 (existing_get (ratings ss !! id sample) Rating.quality)
                  (quality_input ui))
       (st_slider 1 5 (existing_get (ratings ss !! id sample) Rating.match_)
                  (match_input ui))).
Proof.
  intros Hclick H. unfold interact in H.
  apply bind_Ok in H as (r1 & Hr1 & H).
  destruct (main_cases _ _ _ _ _ Hr1)
    as (ss1 & msgs & r0 & Hinit & Hr0 & Hst & _ & Hview & _).
  destruct (initialize_frame _ _ _ _ Hinit) as (_ & Hrat & Hidx & _).
  destruct (eval_cases _ _ _ _ _ Hr0)
    as [[_ ->]|(sample & _ & Hcur & [[-> _]|(delta & -> & Hmove)])];
    cbn [state view] in *.
  - rewrite Hview in H. injection H as <-. rewrite Hst, Hview. auto.
  - rewrite Hview in H. injection H as <-. rewrite Hst, Hview.
    split; [assumption|]. split; [assumption|]. right.
    exists sample. split; [assumption|]. now rewrite Hrat.
  - destruct Hmove as [[Hc _]|[Hc _]]; rewrite Hclick in Hc; discriminate.
Qed.

Lemma slider_moves_record_nothing_witness :
  let env := Corpus.env_of Corpus.both in
  exists r,
    interact env Corpus.at_first ∅ (Corpus.rate NoClick 5 1) = Ok r /\
    ratings (state r) = ∅ /\ current_sample_idx (state r) = 0.
Proof.
  intros env. eexists. split; [vm_compute; reflexivity|].
  destruct (slider_moves_record_nothing env Corpus.at_first ∅
              (Corpus.rate NoClick 5 1) _ eq_refl
              ltac:(vm_compute; reflexivity)) as (Hr & Hi & _).
  split; [exact Hr | exact Hi].
Defined.

(** ** Where each rating was recorded *)

Lemma index_Ok_nonneg {A} (l : list A) (i : Z) (x : A) :
  0 <= i -> Py.index l i = Ok x -> l !! Z.to_nat i = Some x.
Proof.
  intros Hi. unfold Py.index.
  destruct (Z.ltb_spec i 0); [lia|].
  destruct (_ && _); [|discriminate].
  destruct (l !! Z.to_nat i); [congruence | discriminate].
Qed.

Lemma current_sample_inv (ss : SessionState) (sample : Sample) :
  0 <= current_sample_idx ss -> current_sample ss = Ok sample ->
  exists position,
    sample_order ss !! Z.to_nat (current_sample_idx ss) = Some position /\
    catalog ss !! position = Some sample.
Proof.
  intros Hpos H. unfold current_sample in H.
  apply bind_Ok in H as (position & Hp & H).
  apply index_Ok_nonneg in Hp; [|assumption].
  exists position. split; [assumption|]. unfold catalog.
  destruct (samples ss) as [l|]; [|discriminate].
  apply index_Ok_nonneg in H; [|lia]. now rewrite Nat2Z.id in H.
Qed.

(** Induction over the reachable states: a property of the state the first
    run builds that every handler preserves holds in all of them. *)
Lemma reachable_induction (env : Env) (P : SessionState -> Prop) :
  (forall l, P {| current_sample_idx := 0;
                  sample_order := random_sample (rnd env) (length l);
                  ratings := ∅; samples := Some l |}) ->
  (forall ss sample ui delta,
     session_inv ss -> P ss ->
     current_sample ss = Ok sample ->
     0 <= current_sample_idx ss < Z.of_nat (length (sample_order ss)) ->
     0 <= current_sample_idx ss + delta
       <= Z.of_nat (length (sample_order ss)) ->
     P (leave ss sample ui delta)) ->
  forall ss, reachable env ss -> P ss.
Proof.
  intros Hstart Hstep.
  assert (Heval : forall env' ss files ui r,
    session_inv ss -> P ss ->
    evaluation_interface env' ss files ui = Ok r -> P (state r)).
  { intros env' ss files ui r Hinv HP Hr.
    destruct (eval_cases _ _ _ _ _ Hr)
      as [[_ ->]|(sample & Hlt & Hcur & [[-> _]|(delta & -> & Hmove)])];
      cbn [state]; try assumption.
    destruct Hinv as [Hwf Hok]. pose proof Hwf as (_ & _ & Hrange).
    apply Hstep; try assumption; [now split | lia |].
    destruct Hmove as [[_ ->]|(_ & -> & Hpos)]; lia. }
  assert (Hmain : forall env' ss files ui r,
    session_inv ss -> P ss ->
    main env' ss files ui = Ok r -> P (state r)).
  { intros env' ss files ui r Hinv HP. rewrite main_loaded by apply Hinv.
    intros H. apply bind_Ok in H as (r0 & Hr0 & [= <-]). cbn [state].
    eapply Heval; eauto. }
  assert (Hinteract : forall env' ss files ui r,
    session_inv ss -> P ss ->
    interact env' ss files ui = Ok r -> P (state r)).
  { intros env' ss files ui r Hinv HP H. unfold interact in H.
    apply bind_Ok in H as (r1 & Hr1 & H).
    pose proof (main_inv _ _ _ _ _ Hinv Hr1) as Hinv1.
    pose proof (Hmain _ _ _ _ _ Hinv HP Hr1) as HP1.
    destruct (view r1); try (injection H as <-; exact HP1).
    apply bind_Ok in H as (r2 & Hr2 & [= <-]). cbn [state].
    exact (Hmain _ _ _ _ _ Hinv1 HP1 Hr2). }
  assert (Hactions : forall steps r r',
    session_inv (state r) -> P (state r) ->
    actions r steps = Ok r' -> P (state r')).
  { induction steps as [|[env' ui] steps IH]; intros r r' Hinv HP;
      cbn [actions].
    - now intros [= <-].
    - intros H. apply bind_Ok in H as (r1 & Hr1 & H).
      eapply IH; [| |exact H].
      + eapply interact_inv; eauto.
      + eapply Hinteract; eauto. }
  intros ss (files & steps & r & _ & Hs & <-). unfold session in Hs.
  apply bind_Ok in Hs as (r0 & Hr0 & Hs).
  eapply Hactions; [| |exact Hs].
  - eapply start_inv; eauto.
  - destruct (start_loads _ _ _ Hr0) as (l & msgs & _ & ->). apply Hstart.
Qed.

(** X15. In every reachable state each rating records where it was given:
    [order_presented] is a position of the order, the sample shown at that
    position has the id the rating is stored under, and the category and
    condition copied into the rating are those of that sample. *)
Theorem rating_records_its_position (env : Env) (ss : SessionState) :
  reachable env ss ->
  forall k r, ratings ss !! k = Some r ->
    exists position sample,
      0 <= Rating.order_presented r < Z.of_nat (length (sample_order ss)) /\
      sample_order ss !! Z.to_nat (Rating.order_presented r)
        = Some position /\
      catalog ss !! position = Some sample /\
      id sample = k /\ Rating.sample_id r = k /\
      Rating.category r = category sample /\
      Rating.condition r = condition sample.
Proof.
  intros Hreach. revert ss Hreach.
  apply (reachable_induction env (fun ss =>
    forall k r, ratings ss !! k = Some r ->
      exists position sample,
        0 <= Rating.order_presented r
          < Z.of_nat (length (sample_order ss)) /\
        sample_order ss !! Z.to_nat (Rating.order_presented r)
          = Some position /\
        catalog ss !! position = Some sample /\
        id sample = k /\ Rating.sample_id r = k /\
        Rating.category r = category sample /\
        Rating.condition r = condition sample)).
  - intros l k r. cbn [ratings]. rewrite lookup_empty. discriminate.
  - intros ss sample ui delta Hinv IH Hcur Hrange Hdelta k r.
    unfold leave, navigate, save_rating, catalog.
    cbn [ratings sample_order samples].
    destruct (decide (id sample = k)) as [<-|Hne].
    + rewrite lookup_insert_eq. intros [= <-].
      cbn [Rating.order_presented Rating.sample_id Rating.category
           Rating.condition].
      destruct (current_sample_inv ss sample (proj1 Hrange) Hcur)
        as (position & Hp & Hs).
      exists position, sample. repeat split; try assumption; lia.
    + rewrite lookup_insert_ne by assumption. apply IH.
Qed.

Lemma rating_records_its_position_witness :
  let ss := state (Corpus.run_after (Corpus.env_of Corpus.both)
                     [Corpus.rate NextClick 4 5; press PrevClick]) in
  exists r position sample,
    ratings ss !! "small_room_1_ground_truth" = Some r /\
    sample_order ss !! Z.to_nat (Rating.order_presented r) = Some position /\
    catalog ss !! position = Some sample /\
    id sample = "small_room_1_ground_truth".
Proof.
  intros ss.
  assert (Hreach : reachable (Corpus.env_of Corpus.both) ss).
  { exists ∅, (Corpus.during (Corpus.env_of Corpus.both)
                 [Corpus.rate NextClick 4 5; press PrevClick]),
      (Corpus.run_after (Corpus.env_of Corpus.both)
         [Corpus.rate NextClick 4 5; press PrevClick]).
    split; [|split; [vm_compute; reflexivity | reflexivity]].
    repeat constructor; simpl; lia. }
  eexists.
  destruct (rating_records_its_position (Corpus.env_of Corpus.both) ss Hreach
              "small_room_1_ground_truth" _ ltac:(vm_compute; reflexivity))
    as (position & sample & _ & Hp & Hs & Hid & _).
  exists position, sample. split; [vm_compute; reflexivity|].
  split; [exact Hp|]. split; [exact Hs | exact Hid].
Defined.

(** ** Going through the whole order *)

Lemma next_step (env : Env) (ss : SessionState)
    (files : gmap string FileContent) (ui : UI) (c : Z) :
  session_inv ss -> clicked ui = NextClick -> Active ss c ->
  exists sample r,
    current_sample ss = Ok sample /\
    interact env ss files ui = Ok r /\
    state r = leave ss sample ui 1 /\ session_inv (state r) /\
    (c + 1 < Z.of_nat (length (sample_order ss)) ->
       store r = files /\ exists s q m, view r = ShowSample s q m) /\
    (c + 1 = Z.of_nat (length (sample_order ss)) ->
       store r = show_completion (clock env) (state r) files /\
       view r = ShowCompletion).
Proof.
  intros Hinv Hclick Hact.
  destruct (current_sample_Ok _ _ (proj1 Hinv) Hact)
    as (sample & Hcur & Hcat).
  pose proof Hact as [Hidx Hrange].
  destruct (Z.lt_ge_cases (c + 1) (Z.of_nat (length (sample_order ss))))
    as [Hlt|Hge].
  - destruct (interact_move_view env ss files ui c 1 sample
                Hinv Hact Hcur Hcat ltac:(now left) ltac:(lia))
      as (next & _ & _ & Hinv1 & _ & Hr).
    exists sample. eexists. split; [exact Hcur|]. split; [exact Hr|].
    cbn [state store view]. split; [reflexivity|]. split; [exact Hinv1|].
    split; [intros _; split; [reflexivity | eauto] | lia].
  - destruct Hinv as [Hwf Hok].
    assert (Hwf1 : well_formed (leave ss sample ui 1))
      by (apply leave_well_formed; [assumption | lia]).
    assert (Hok1 : ratings_ok (leave ss sample ui 1))
      by now apply leave_ratings_ok.
    exists sample. eexists. split; [exact Hcur|]. split.
    + unfold interact. rewrite main_loaded by apply Hwf.
      rewrite (eval_next env ss files ui c sample Hact Hcur Hclick).
      cbn [bind state store view shown].
      rewrite main_loaded by apply Hwf1.
      rewrite eval_complete by (cbn [leave navigate current_sample_idx
                                     sample_order]; lia).
      reflexivity.
    + cbn [state store view]. split; [reflexivity|]. split; [now split|].
      split; [lia | intros _; split; reflexivity].
Qed.

Lemma rated_before_leave (ss : SessionState) (sample : Sample) (ui : UI)
    (c : Z) :
  Active ss c -> current_sample ss = Ok sample ->
  rated_before ss c -> rated_before (leave ss sample ui 1) (c + 1).
Proof.
  intros [Hidx Hrange] Hcur Hbefore j position s Hj.
  unfold leave, navigate, save_rating, catalog.
  cbn [sample_order samples ratings]. intros Hp Hs.
  destruct (decide (id sample = id s)) as [Heq|Hne].
  - rewrite Heq, lookup_insert_eq. eauto.
  - rewrite lookup_insert_ne by assumption.
    destruct (Z.eq_dec j c) as [->|Hjc].
    + exfalso. apply Hne.
      destruct (current_sample_inv ss sample ltac:(lia) Hcur)
        as (position' & Hp' & Hs').
      rewrite Hidx in Hp'. rewrite Hp in Hp'. injection Hp' as <-.
      unfold catalog in Hs'. rewrite Hs in Hs'. now injection Hs' as <-.
    + apply (Hbefore j position s); [lia | assumption | assumption].
Qed.

Lemma final_env_cons (env0 : Env) (step step' : Env * UI)
    (steps : list (Env * UI)) :
  final_env env0 (step :: step' :: steps) = final_env env0 (step' :: steps).
Proof. reflexivity. Qed.

Lemma actions_next (env0 : Env) (steps : list (Env * UI)) :
  forall r c,
    session_inv (state r) -> current_sample_idx (state r) = c -> 0 <= c ->
    c + Z.of_nat (length steps)
      <= Z.of_nat (length (sample_order (state r))) ->
    Forall (fun step => clicked (snd step) = NextClick) steps ->
    rated_before (state r) c ->
    exists r',
      actions r steps = Ok r' /\
      current_sample_idx (state r') = c + Z.of_nat (length steps) /\
      sample_order (state r') = sample_order (state r) /\
      samples (state r') = samples (state r) /\
      session_inv (state r') /\
      rated_before (state r') (c + Z.of_nat (length steps)) /\
      (steps <> [] ->
       (c + Z.of_nat (length steps)
          < Z.of_nat (length (sample_order (state r))) ->
          store r' = store r /\ exists s q m, view r' = ShowSample s q m) /\
       (c + Z.of_nat (length steps)
          = Z.of_nat (length (sample_order (state r))) ->
          store r' = show_completion (clock (final_env env0 steps))
                       (state r') (store r) /\
          view r' = ShowCompletion)).
Proof.
  induction steps as [|[env ui] steps IH];
    intros r c Hinv Hidx Hc Hlen Hsteps Hbefore.
  - exists r. cbn [actions length]. change (Z.of_nat 0) with 0.
    rewrite Z.add_0_r.
    split; [reflexivity|]. split; [assumption|]. split; [reflexivity|].
    split; [reflexivity|]. split; [assumption|]. split; [assumption|].
    intros H. contradiction.
  - inversion Hsteps as [|? ? Hclick Hrest]; subst. cbn [snd] in Hclick.
    cbn [length] in *.
    assert (Hact : Active (state r) (current_sample_idx (state r)))
      by (split; [reflexivity | lia]).
    destruct (next_step env (state r) (store r) ui _ Hinv Hclick Hact)
      as (sample & r1 & Hcur & Hr1 & Hst1 & Hinv1 & Hmid & Hend).
    assert (Ho1 : sample_order (state r1) = sample_order (state r))
      by now rewrite Hst1.
    assert (Hs1 : samples (state r1) = samples (state r))
      by now rewrite Hst1.
    assert (Hi1 : current_sample_idx (state r1)
                  = current_sample_idx (state r) + 1) by now rewrite Hst1.
    assert (Hb1 : rated_before (state r1) (current_sample_idx (state r) + 1)).
    { rewrite Hst1. now apply rated_before_leave. }
    destruct (IH r1 (current_sample_idx (state r) + 1) Hinv1 Hi1
                ltac:(lia) ltac:(rewrite Ho1; lia) Hrest Hb1)
      as (r' & Hr' & Hi' & Ho' & Hs' & Hinv' & Hb' & Hview').
    exists r'. cbn [actions]. rewrite Hr1. cbn [bind].
    replace (current_sample_idx (state r) + Z.of_nat (S (length steps)))
      with (current_sample_idx (state r) + 1 + Z.of_nat (length steps))
      by lia.
    split; [exact Hr'|]. split; [exact Hi'|].
    split; [congruence|]. split; [congruence|].
    split; [exact Hinv'|]. split; [exact Hb'|]. intros _.
    destruct steps as [|step' steps'].
    + cbn [actions] in Hr'. injection Hr' as <-. cbn [length].
      change (Z.of_nat 0) with 0. rewrite Z.add_0_r.
      split; [intros H; apply Hmid; lia|].
      intros H. apply Hend. lia.
    + specialize (Hview' ltac:(discriminate)). rewrite Ho1 in Hview'.
      destruct Hview' as [Hmid' Hend'].
      assert (Hsto1 : store r1 = store r).
      { apply Hmid. cbn [length] in Hlen. lia. }
      rewrite Hsto1 in Hmid', Hend'. rewrite final_env_cons.
      split; assumption.
Qed.

Lemma going_through (env : Env)
    (files : gmap string FileContent) (l : list Sample) (msgs : list Msg)
    (steps : list (Env * UI)) :
  load_evaluation_samples (fs env) = Ok (l, msgs) ->
  Forall (fun step => clicked (snd step) = NextClick) steps ->
  length steps = length l ->
  exists r,
    session env files steps = Ok r /\
    view r = ShowCompletion /\ Complete (state r) /\
    (forall s, s ∈ l -> is_Some (ratings (state r) !! id s)) /\
    store r = show_completion (clock (final_env env steps)) (state r) files.
Proof.
  intros Hload Hsteps Hlen.
  destruct (start_after_load env files l msgs Hload)
    as (r0 & Hr0 & Hst0 & Hstart).
  set (ss := {| current_sample_idx := 0;
                sample_order := random_sample (rnd env) (length l);
                ratings := ∅; samples := Some l |}) in *.
  pose proof (loaded_state_inv (rnd env) l) as Hinv. fold ss in Hinv.
  set (run0 := {| state := ss; store := store r0;
                  shown := (msgs ++ shown r0)%list; view := view r0 |}) in *.
  assert (Horder : length (sample_order ss) = length l)
    by apply random_sample_length.
  unfold session. rewrite Hstart. cbn [bind].
  destruct steps as [|step steps].
  - destruct l; [|discriminate Hlen].
    rewrite eval_complete in Hr0 by (cbn; lia). injection Hr0 as <-.
    exists run0. cbn [actions]. split; [reflexivity|].
    repeat split. intros s Hs. inversion Hs.
  - assert (Hfiles : store r0 = files).
    { destruct l as [|s0 l']; [discriminate Hlen|].
      assert (Hact : Active ss 0)
        by (split; [reflexivity | rewrite Horder; simpl; lia]).
      destruct (current_sample_Ok ss 0 (proj1 Hinv) Hact)
        as (sample & Hcur & _).
      rewrite (eval_stay env ss files no_input 0 sample Hact
                 Hcur ltac:(now left)) in Hr0.
      now injection Hr0 as <-. }
    destruct (actions_next env (step :: steps) run0 0)
      as (r & Hr & Hidx & Ho & Hs & Hinv' & Hb & Hview);
      try (cbn [run0 state]; first [exact Hinv | reflexivity | lia]).
    + exact Hsteps.
    + intros j position s Hj. lia.
    + cbn [run0 state store] in *.
      destruct (Hview ltac:(discriminate)) as [_ Hend].
      destruct Hend as [Hstore Hshow]; [rewrite Horder, Hlen; lia|].
      exists r. split; [exact Hr|]. split; [exact Hshow|].
      split; [unfold Complete; rewrite Hidx, Ho, Horder, Hlen; lia|].
      split; [|now rewrite Hstore, Hfiles].
      intros s Hs'.
      apply list_elem_of_lookup in Hs' as [position Hpos].
      assert (Hin : position ∈ sample_order (state r)).
      { rewrite Ho. cbn [ss sample_order].
        rewrite random_sample_perm. apply elem_of_seq.
        apply lookup_lt_Some in Hpos. lia. }
      apply list_elem_of_lookup in Hin as [j Hj].
      apply (Hb (Z.of_nat j) position s).
      * apply lookup_lt_Some in Hj. rewrite Ho, Horder in Hj. lia.
      * now rewrite Nat2Z.id.
      * unfold catalog. rewrite Hs. exact Hpos.
Qed.

Lemma only_next (steps : list (Env * UI)) :
  Forall (fun step => ui_ok (snd step) /\ clicked (snd step) = NextClick)
         steps ->
  Forall (fun step => clicked (snd step) = NextClick) steps.
Proof.
  intros H. eapply Forall_impl; [exact H|]. now intros step [_ Hc].
Qed.

(** X16. A rater who presses the forward button once per sample, with the
    sliders anywhere in their range, ends on the completion screen with the
    cursor at the end of the order, and by then every sample of the catalog
    has a rating; the record written holds these ratings and no other file
    of the results directory was touched on the way. *)
Theorem going_through_rates_every_sample (env : Env)
    (files : gmap string FileContent) (l : list Sample) (msgs : list Msg)
    (steps : list (Env * UI)) :
  load_evaluation_samples (fs env) = Ok (l, msgs) ->
  Forall (fun step => ui_ok (snd step) /\ clicked (snd step) = NextClick)
         steps ->
  length steps = length l ->
  exists r,
    session env files steps = Ok r /\
    view r = ShowCompletion /\ Complete (state r) /\
    (forall s, s ∈ l -> is_Some (ratings (state r) !! id s)) /\
    store r = show_completion (clock (final_env env steps)) (state r) files.
Proof.
  intros Hload Hsteps Hlen.
  apply (going_through env files l msgs steps Hload (only_next _ Hsteps) Hlen).
Qed.

Lemma going_through_rates_every_sample_witness :
  let steps := [(Corpus.after 20 Corpus.both, Corpus.rate NextClick 1 2);
                (Corpus.after 40 Corpus.both, press NextClick)] in
  exists r,
    session (Corpus.env_of Corpus.both) ∅ steps = Ok r /\
    view r = ShowCompletion /\ Complete (state r) /\
    (forall s, s ∈ Corpus.samples_both ->
       is_Some (ratings (state r) !! id s)) /\
    store r = show_completion (clock (Corpus.after 40 Corpus.both))
                (state r) ∅.
Proof.
  intros steps.
  apply (going_through_rates_every_sample (Corpus.env_of Corpus.both) ∅
           Corpus.samples_both [] steps).
  - vm_compute. reflexivity.
  - repeat constructor; simpl; lia.
  - reflexivity.
Defined.

(** ** The label of the forward button *)

(** X17. The forward button reads "Submit" exactly when pressing it ends
    the session: in an Active state a click on it leads to the completion
    screen if the label is "Submit", and to the page of another sample if
    the label is "Next". *)
Theorem submit_label_means_completion (env : Env) (ss : SessionState)
    (files : gmap string FileContent) (ui : UI) (c : Z) :
  session_inv ss -> ui_ok ui -> clicked ui = NextClick -> Active ss c ->
  exists r,
    interact env ss files ui = Ok r /\
    (button_text ss = "Submit" <-> view r = ShowCompletion) /\
    (button_text ss = "Next →" <-> exists s q m, view r = ShowSample s q m).
Proof.
  intros Hinv Hui Hclick Hact.
  destruct (next_step env ss files ui c Hinv Hclick Hact)
    as (sample & r & _ & Hr & _ & _ & Hmid & Hend).
  exists r. split; [exact Hr|].
  destruct Hact as [Hidx Hrange].
  unfold button_text, is_last_sample. rewrite Hidx.
  destruct (Z.eqb_spec c (Z.of_nat (length (sample_order ss)) - 1))
    as [Hlast|Hnot].
  - destruct Hend as [_ Hview]; [lia|]. rewrite Hview.
    split; [split; reflexivity|].
    split; [discriminate | intros (s & q & m & H); discriminate H].
  - destruct Hmid as [_ (s & q & m & Hview)]; [lia|]. rewrite Hview.
    split; [split; discriminate|].
    split; [eauto | reflexivity].
Qed.

Lemma submit_label_means_completion_witness :
  exists r,
    interact (Corpus.env_of Corpus.both) Corpus.at_second ∅
      (Corpus.rate NextClick 4 4) = Ok r /\
    (button_text Corpus.at_second = "Submit" <-> view r = ShowCompletion) /\
    (button_text Corpus.at_second = "Next →"
     <-> exists s q m, view r = ShowSample s q m).
Proof.
  apply (submit_label_means_completion (Corpus.env_of Corpus.both)
           Corpus.at_second ∅ (Corpus.rate NextClick 4 4) 1 at_second_inv).
  - split; simpl; lia.
  - reflexivity.
  - split; [reflexivity | simpl; lia].
Defined.

(** ** The cursor and the progress line *)

(** X18. In every reachable state the cursor lies between 0 and the number
    of samples, the order has one position per sample of the catalog, and
    as long as the cursor is before the end the sample to show is found in
    the catalog (no index is out of range, none wraps around). *)
Theorem cursor_within_the_order (env : Env) (ss : SessionState) :
  reachable env ss ->
  0 <= current_sample_idx ss <= Z.of_nat (length (sample_order ss)) /\
  length (sample_order ss) = length (catalog ss) /\
  (current_sample_idx ss < Z.of_nat (length (sample_order ss)) ->
   exists position sample,
     sample_order ss !! Z.to_nat (current_sample_idx ss) = Some position /\
     catalog ss !! position = Some sample /\
     current_sample ss = Ok sample).
Proof.
  intros Hreach. destruct (reachable_inv _ _ Hreach) as [Hwf _].
  pose proof Hwf as (_ & Hperm & Hrange).
  split; [exact Hrange|]. split.
  - rewrite (Permutation_length Hperm). apply length_seq.
  - intros Hlt.
    assert (Hact : Active ss (current_sample_idx ss))
      by (split; [reflexivity | lia]).
    destruct (current_sample_Ok _ _ Hwf Hact) as (sample & Hcur & _).
    destruct (current_sample_inv ss sample (proj1 Hrange) Hcur)
      as (position & Hp & Hs).
    eauto.
Qed.

Lemma cursor_within_the_order_witness :
  let ss := state (Corpus.run_after (Corpus.env_of Corpus.both)
                     [press NextClick; press PrevClick; press PrevClick]) in
  0 <= current_sample_idx ss <= Z.of_nat (length (sample_order ss)).
Proof.
  intros ss.
  refine (proj1 (cursor_within_the_order (Corpus.env_of Corpus.both) ss _)).
  exists ∅, (Corpus.during (Corpus.env_of Corpus.both)
               [press NextClick; press PrevClick; press PrevClick]),
    (Corpus.run_after (Corpus.env_of Corpus.both)
       [press NextClick; press PrevClick; press PrevClick]).
  split; [|split; [vm_compute; reflexivity | reflexivity]].
  repeat constructor.
Defined.

(** X19. The progress line of the side bar is drawn exactly when the
    catalog is not empty, and it then reads "i/n" with n the number of
    samples and i the cursor, between 0 and n. *)
Theorem progress_line (env : Env) (ss : SessionState) :
  reachable env ss ->
  match sidebar_progress ss with
  | None => catalog ss = []
  | Some line =>
      catalog ss <> [] /\
      line = "**Progress:** " +:+ pretty (current_sample_idx ss) +:+ "/" +:+
             pretty (length (catalog ss)) /\
      0 <= current_sample_idx ss <= Z.of_nat (length (catalog ss))
  end.
Proof.
  intros Hreach. destruct (reachable_inv _ _ Hreach) as [Hwf _].
  destruct Hwf as (_ & Hperm & Hrange).
  assert (Hlen : length (sample_order ss) = length (catalog ss)).
  { rewrite (Permutation_length Hperm). apply length_seq. }
  unfold sidebar_progress. rewrite Hlen in *.
  destruct (Z.ltb_spec 0 (Z.of_nat (length (catalog ss)))) as [Hpos|Hzero].
  - split; [|split; [reflexivity | exact Hrange]].
    intros Hnil. rewrite Hnil in Hpos. simpl in Hpos. lia.
  - destruct (catalog ss); [reflexivity | simpl in Hzero; lia].
Qed.

Lemma progress_line_witness :
  let ss := state (Corpus.run_after (Corpus.env_of Corpus.both)
                     [press NextClick]) in
  sidebar_progress ss = Some "**Progress:** 1/2".
Proof.
  intros ss.
  assert (Hreach : reachable (Corpus.env_of Corpus.both) ss).
  { exists ∅, (Corpus.during (Corpus.env_of Corpus.both) [press NextClick]),
      (Corpus.run_after (Corpus.env_of Corpus.both) [press NextClick]).
    split; [|split; [vm_compute; reflexivity | reflexivity]].
    repeat constructor. }
  pose proof (progress_line (Corpus.env_of Corpus.both) ss Hreach) as H.
  destruct (sidebar_progress ss) as [line|] eqn:E.
  - destruct H as (_ & -> & _). vm_compute. reflexivity.
  - vm_compute in E. discriminate E.
Defined.

(** ** The order of the catalog *)

Lemma for_each_split {A B} (body : A -> Result (list B)) (l : list A)
    (out : list B) (x : A) :
  for_each body l = Ok out -> x ∈ l ->
  exists ys pre post, body x = Ok ys /\ out = (pre ++ ys ++ post)%list.
Proof.
  revert out. induction l as [|y l IH]; intros out H Hx; [inversion Hx|].
  cbn [for_each] in H. apply bind_Ok in H as (ys & Hys & H).
  apply bind_Ok in H as (zs & Hzs & [= <-]).
  apply elem_of_cons in Hx as [->|Hx].
  - exists ys, [], zs. split; [assumption | reflexivity].
  - destruct (IH _ Hzs Hx) as (ys' & pre & post & Hb & ->).
    exists ys', (ys ++ pre)%list, post. split; [assumption|].
    now rewrite <- app_assoc.
Qed.

(** X20. The catalog follows the order of discovery inside a group: when a
    visited group has the dry audio and both variants, its two samples sit
    next to each other in the catalog, the generated one first, and they
    carry the same prompt. *)
Theorem group_samples_adjacent (fs : gmap string Entry) (l : list Sample)
    (msgs : list Msg) (cat dir : string) :
  load_evaluation_samples fs = Ok (l, msgs) ->
  visited fs cat dir ->
  resolves fs cat dir generated -> resolves fs cat dir ground_truth ->
  exists prompt pre post,
    resolve_text_prompt fs cat dir (group_path cat dir) = Ok prompt /\
    l = (pre ++
         [ make_sample cat dir prompt generated
             (Py.path_join (group_path cat dir) "anechoic.wav")
             (Py.path_join (group_path cat dir) "generated_reverb.wav");
           make_sample cat dir prompt ground_truth
             (Py.path_join (group_path cat dir) "anechoic.wav")
             (Py.path_join (group_path cat dir) "ground_truth_reverb.wav") ]
         ++ post)%list.
Proof.
  intros Hload Hv [Ha Hg] [_ Ht]. cbn [variant_file] in Hg, Ht.
  destruct Hv as (cs & names & Hcs & Hcat & Hdir & Hnames & Hin & Hdir2).
  unfold load_evaluation_samples in Hload.
  destruct (Os.path_exists fs SAMPLES_DIR) eqn:Hroot; cbn [negb] in Hload.
  2:{ unfold Os.listdir in Hcs. unfold Os.path_exists in Hroot.
      destruct (fs !! SAMPLES_DIR); discriminate. }
  rewrite Hcs in Hload. cbn [bind] in Hload.
  apply bind_Ok in Hload as (samples & Hsamples & [= <- <-]).
  destruct (for_each_split _ _ _ _ Hsamples Hcat)
    as (ys & pre1 & post1 & Hys & ->).
  unfold load_category in Hys. rewrite Hdir, Hnames in Hys.
  cbn [negb bind] in Hys.
  destruct (for_each_split _ _ _ _ Hys Hin)
    as (zs & pre2 & post2 & Hzs & ->).
  unfold load_group in Hzs. fold (group_path cat dir) in Hzs.
  rewrite Hdir2 in Hzs. cbn [negb] in Hzs.
  apply bind_Ok in Hzs as (prompt & Hprompt & [= <-]).
  exists prompt, (pre1 ++ pre2)%list, (post2 ++ post1)%list.
  split; [exact Hprompt|].
  unfold emit. rewrite Ha, Hg, Ht. cbn [andb].
  rewrite <- !app_assoc. reflexivity.
Qed.

Lemma group_samples_adjacent_witness :
  exists prompt pre post,
    resolve_text_prompt Corpus.both "small" "room_1"
      (group_path "small" "room_1") = Ok prompt /\
    Corpus.samples_both =
    (pre ++
     [ make_sample "small" "room_1" prompt generated
         (Py.path_join (group_path "small" "room_1") "anechoic.wav")
         (Py.path_join (group_path "small" "room_1") "generated_reverb.wav");
       make_sample "small" "room_1" prompt ground_truth
         (Py.path_join (group_path "small" "room_1") "anechoic.wav")
         (Py.path_join (group_path "small" "room_1")
                       "ground_truth_reverb.wav") ]
     ++ post)%list.
Proof.
  apply (group_samples_adjacent Corpus.both Corpus.samples_both []
           "small" "room_1").
  - vm_compute. reflexivity.
  - exists ["small"], ["room_1"].
    repeat split; try (vm_compute; reflexivity); apply list_elem_of_singleton;
      reflexivity.
  - split; vm_compute; reflexivity.
  - split; vm_compute; reflexivity.
Defined.

(** ** The record at the end of a session *)

Lemma interact_store (env : Env) (ss : SessionState)
    (files : gmap string FileContent) (ui : UI) (r : Run) :
  interact env ss files ui = Ok r -> view r = ShowCompletion ->
  store r = show_completion (clock env) (state r) files.
Proof.
  intros H Hview. unfold interact in H.
  apply bind_Ok in H as (r1 & Hr1 & H).
  destruct (main_store _ _ _ _ _ Hr1) as [Hc1 Hn1].
  destruct (view r1) eqn:Hv1.
  - injection H as <-. rewrite Hv1 in Hview. discriminate Hview.
  - injection H as <-. now apply Hc1.
  - apply bind_Ok in H as (r2 & Hr2 & [= <-]).
    cbn [state store view] in *.
    destruct (main_store _ _ _ _ _ Hr2) as [Hc2 _].
    rewrite (Hn1 ltac:(discriminate)) in Hc2. now apply Hc2.
Qed.

Lemma actions_last (env0 : Env) (steps : list (Env * UI)) :
  forall r0 r, actions r0 steps = Ok r -> steps <> [] ->
    exists ss files ui, interact (final_env env0 steps) ss files ui = Ok r.
Proof.
  induction steps as [|[env ui] steps IH]; intros r0 r H Hne; [contradiction|].
  cbn [actions] in H. apply bind_Ok in H as (r1 & Hr1 & H).
  destruct steps as [|step' steps'].
  - cbn [actions] in H. injection H as <-. eauto.
  - rewrite final_env_cons. eapply IH; [exact H | discriminate].
Qed.

(** X21. The record left by a session that ends on the completion screen
    is well formed: it is a whole record under the name of the completion
    time, it holds exactly the ratings of the session, at most one per
    sample of the catalog, each stored under the id it records, that id
    being the id of a catalog sample, and each with both scores from 1 to
    5. *)
Theorem record_of_a_finished_session (env : Env)
    (files : gmap string FileContent) (steps : list (Env * UI)) (r : Run) :
  Forall (fun step => ui_ok (snd step)) steps ->
  session env files steps = Ok r ->
  view r = ShowCompletion ->
  exists rec,
    store r !! results_filename (now_filename (clock (final_env env steps)))
      = Some (Whole rec) /\
    results_ratings rec = ratings (state r) /\
    completion_time rec
      = isoformat (now_completion (clock (final_env env steps))) /\
    (size (results_ratings rec) <= length (catalog (state r)))%nat /\
    forall k v, results_ratings rec !! k = Some v ->
      Rating.sample_id v = k /\
      (exists s, s ∈ catalog (state r) /\ id s = k) /\
      1 <= Rating.quality v <= 5 /\ 1 <= Rating.match_ v <= 5.
Proof.
  intros _ Hs Hview.
  destruct (session_state_inv _ _ _ _ Hs) as [_ Hok].
  assert (Hstore : exists files',
            store r = show_completion (clock (final_env env steps))
                        (state r) files').
  { unfold session in Hs. apply bind_Ok in Hs as (r0 & Hr0 & Hs).
    destruct steps as [|step steps].
    - cbn [actions] in Hs. injection Hs as <-.
      destruct (main_store _ _ _ _ _ Hr0) as [Hc _].
      exists files. now apply Hc.
    - destruct (actions_last env _ _ _ Hs ltac:(discriminate))
        as (ss & files' & ui' & Hi).
      exists files'. now apply (interact_store _ _ _ _ _ Hi). }
  destruct Hstore as [files' Hstore].
  eexists. split.
  - rewrite Hstore, show_completion_eq. apply lookup_insert_eq.
  - cbn [results_ratings completion_time].
    split; [reflexivity|]. split; [reflexivity|].
    split; [now apply ratings_size_bound | exact Hok].
Qed.

Lemma record_of_a_finished_session_witness :
  let env := Corpus.env_of Corpus.both in
  let last := Corpus.after 50 Corpus.both in
  let steps := [(Corpus.after 10 Corpus.both, Corpus.rate NextClick 4 5);
                (Corpus.after 20 Corpus.both, press PrevClick);
                (Corpus.after 30 Corpus.both, Corpus.rate NextClick 2 2);
                (last, press NextClick)] in
  let r := Corpus.outcome (session env ∅ steps) in
  exists rec,
    store r !! results_filename (now_filename (clock last))
      = Some (Whole rec) /\
    results_ratings rec = ratings (state r) /\
    (size (results_ratings rec) <= length (catalog (state r)))%nat.
Proof.
  intros env last steps r.
  destruct (record_of_a_finished_session env ∅ steps r)
    as (rec & H1 & H2 & _ & H3 & _).
  - repeat constructor; simpl; lia.
  - vm_compute. reflexivity.
  - vm_compute. reflexivity.
  - exists rec. auto.
Defined.

(** X22. With sample ids that are all different, going through the whole
    order leaves exactly one rating per sample: the record written on
    completion has as many entries as the catalog has samples. *)
Theorem one_entry_per_sample_at_the_end (env : Env)
    (files : gmap string FileContent) (l : list Sample) (msgs : list Msg)
    (steps : list (Env * UI)) :
  load_evaluation_samples (fs env) = Ok (l, msgs) ->
  NoDup (id <$> l) ->
  Forall (fun step => ui_ok (snd step) /\ clicked (snd step) = NextClick)
         steps ->
  length steps = length l ->
  exists r,
    session env files steps = Ok r /\
    size (ratings (state r)) = length l /\
    store r !! results_filename (now_filename (clock (final_env env steps))) =
      Some (Whole {| results_ratings := ratings (state r);
                     completion_time :=
                       isoformat (now_completion
                                    (clock (final_env env steps))) |}).
Proof.
  intros Hload Hnd Hsteps Hlen.
  destruct (going_through env files l msgs steps Hload (only_next _ Hsteps)
              Hlen) as (r & Hr & _ & _ & Hall & Hstore).
  exists r. split; [exact Hr|]. split.
  - destruct (session_state_inv _ _ _ _ Hr) as [_ Hok].
    assert (Hcat : catalog (state r) = l).
    { unfold session in Hr. apply bind_Ok in Hr as (r0 & Hr0 & Hr).
      destruct (actions_frame _ _ _ (start_samples _ _ _ Hr0) Hr)
        as [_ Hs].
      destruct (start_loads _ _ _ Hr0) as (l' & msgs' & Hload' & Hst).
      rewrite Hload in Hload'. injection Hload' as <- <-.
      unfold catalog. rewrite Hs, Hst. reflexivity. }
    apply Nat.le_antisymm.
    + rewrite <- Hcat. now apply ratings_size_bound.
    + rewrite <- (length_fmap id l).
      rewrite <- (size_list_to_set (C := gset string) (id <$> l) Hnd).
      rewrite <- (size_dom (D := gset string)).
      apply subseteq_size. intros k Hk.
      apply elem_of_list_to_set, list_elem_of_fmap in Hk as (s & -> & Hs).
      apply elem_of_dom. now apply Hall.
  - rewrite Hstore, show_completion_eq. apply lookup_insert_eq.
Qed.

Lemma one_entry_per_sample_at_the_end_witness :
  exists r,
    session (Corpus.env_of Corpus.both) ∅
      (Corpus.during (Corpus.env_of Corpus.both)
         [Corpus.rate NextClick 1 2; press NextClick]) = Ok r /\
    size (ratings (state r)) = 2%nat.
Proof.
  destruct (one_entry_per_sample_at_the_end (Corpus.env_of Corpus.both) ∅
              Corpus.samples_both []
              (Corpus.during (Corpus.env_of Corpus.both)
                 [Corpus.rate NextClick 1 2; press NextClick]))
    as (r & Hr & Hsize & _).
  - vm_compute. reflexivity.
  - repeat constructor; vm_compute; intros H; inversion H as [|? ? ? H'];
      inversion H'.
  - repeat constructor; simpl; lia.
  - reflexivity.
  - exists r. split; [exact Hr | exact Hsize].
Defined.

(** ** Corpora the loader accepts, and the errors it can raise *)

Lemma get_demo_nonneg_succeeds (cat : string) (n : Z) :
  0 <= n -> succeeds (get_demo_text_prompt cat n).
Proof.
  intros Hn. pose proof (get_demo_text_prompt_cases cat n Hn) as H.
  destruct (dict_get prompts cat).
  - destruct H as (first & _ & ->). exact I.
  - rewrite H. exact I.
Qed.

(** X23. A corpus the loader is sure to accept: the root is missing or a
    directory, and every visited group either has [text_prompt.txt] as a
    file that holds text (in the encoding of the locale), or has no such
    entry and a directory name that contains no underscore or ends in an
    underscore followed by decimal digits. On such a corpus
    [load_evaluation_samples] returns. *)
Theorem well_named_corpus_loads (fs : gmap string Entry) :
  root_ok fs ->
  (forall cat dir, visited fs cat dir ->
     (exists content,
        fs !! Py.path_join (group_path cat dir) "text_prompt.txt"
          = Some (File (Text content))) \/
     (fs !! Py.path_join (group_path cat dir) "text_prompt.txt" = None /\
      (Py.contains "_" dir = false \/
       exists prefix w n, dir = prefix +:+ "_" +:+ pad (S w) n))) ->
  succeeds (load_evaluation_samples fs).
Proof.
  intros Hroot Hnames. apply load_succeeds; [assumption|].
  intros cat dir Hv.
  unfold resolve_text_prompt, Os.path_exists, Os.read_text.
  destruct (Hnames _ _ Hv)
    as [[content ->]|[-> [Hplain|(prefix & w & n & ->)]]].
  - exact I.
  - unfold sample_num_of. rewrite Hplain. cbn [bind].
    apply get_demo_nonneg_succeeds. lia.
  - assert (Hnum : sample_num_of (prefix +:+ "_" +:+ pad (S w) n)
                   = Ok (Z.of_nat (n mod 10 ^ S w))).
    { unfold sample_num_of.
      change ("_" +:+ pad (S w) n) with (String "_" (pad (S w) n)).
      rewrite contains_append, last_field by apply pad_no_underscore.
      apply int_pad. }
    rewrite Hnum. cbn [bind]. apply get_demo_nonneg_succeeds. lia.
Qed.

Lemma well_named_corpus_loads_witness :
  succeeds (load_evaluation_samples Corpus.single).
Proof.
  apply well_named_corpus_loads.
  - exact I.
  - intros cat dir (cs & names & Hcs & Hcat & _ & Hnames & Hin & _).
    vm_compute in Hcs. injection Hcs as <-.
    apply list_elem_of_singleton in Hcat. subst cat.
    vm_compute in Hnames. injection Hnames as <-.
    apply list_elem_of_singleton in Hin. subst dir.
    left. eexists. vm_compute. reflexivity.
Defined.

Lemma for_each_raises {A B} (body : A -> Result (list B)) (l : list A)
    (e : PyError) :
  for_each body l = Raise e -> exists x, x ∈ l /\ body x = Raise e.
Proof.
  induction l as [|x l IH]; cbn [for_each]; [discriminate|].
  destruct (body x) as [ys|e'] eqn:Hx; cbn [bind].
  - destruct (for_each body l) as [zs|e''] eqn:Hl; cbn [bind];
      [discriminate|].
    intros [= <-]. destruct (IH eq_refl) as (y & Hy & Hb).
    exists y. split; [now right | assumption].
  - intros [= <-]. exists x. split; [now left | assumption].
Qed.

(** X24. The exceptions of the loader and their causes. When
    [load_evaluation_samples] raises, either the root is a file and the
    error is [NotADirectoryError], or the prompt of a visited group could
    not be resolved: [text_prompt.txt] is a directory
    ([IsADirectoryError]), or it is a file whose bytes are no text in the
    encoding of the locale ([UnicodeDecodeError]), or there is no
    [text_prompt.txt] and the last field of the directory name is not a
    number ([ValueError]) or is a number below -2 in a category that has
    phrases ([IndexError]). *)
Theorem loader_exceptions (fs : gmap string Entry) (e : PyError) :
  load_evaluation_samples fs = Raise e ->
  (e = NotADirectoryError /\ exists content,
     fs !! SAMPLES_DIR = Some (File content)) \/
  (exists cat dir,
     visited fs cat dir /\
     resolve_text_prompt fs cat dir (group_path cat dir) = Raise e /\
     ((e = IsADirectoryError /\ exists names,
         fs !! Py.path_join (group_path cat dir) "text_prompt.txt"
           = Some (Directory names)) \/
      (e = UnicodeDecodeError /\
         fs !! Py.path_join (group_path cat dir) "text_prompt.txt"
           = Some (File Undecodable)) \/
      (fs !! Py.path_join (group_path cat dir) "text_prompt.txt" = None /\
       ((e = ValueError /\ sample_num_of dir = Raise ValueError) \/
        (e = IndexError /\ exists n,
           sample_num_of dir = Ok n /\ n < -2 /\
           is_Some (dict_get prompts cat)))))).
Proof.
  unfold load_evaluation_samples, Os.path_exists.
  destruct (fs !! SAMPLES_DIR) as [[content|categories]|] eqn:Hroot;
    cbn [negb]; [| |discriminate].
  { unfold Os.listdir. rewrite Hroot. cbn [bind]. intros [= <-].
    left. eauto. }
  assert (Hls : Os.listdir fs SAMPLES_DIR = Ok categories)
    by (unfold Os.listdir; now rewrite Hroot).
  rewrite Hls. cbn [bind].
  destruct (for_each (load_category fs) categories) as [samples|e'] eqn:Hall;
    cbn [bind]; [discriminate|].
  intros [= ->]. right.
  apply for_each_raises in Hall as (cat & Hcat & Hbody).
  unfold load_category in Hbody.
  destruct (Os.path_isdir fs (Py.path_join SAMPLES_DIR cat)) eqn:Hdir;
    cbn [negb] in Hbody; [|discriminate].
  assert (Hnames : exists names,
    Os.listdir fs (Py.path_join SAMPLES_DIR cat) = Ok names).
  { unfold Os.path_isdir in Hdir. unfold Os.listdir.
    destruct (fs !! Py.path_join SAMPLES_DIR cat) as [[|names]|];
      try discriminate. eauto. }
  destruct Hnames as [names Hnames]. rewrite Hnames in Hbody.
  cbn [bind] in Hbody.
  apply for_each_raises in Hbody as (dir & Hin & Hgroup).
  unfold load_group in Hgroup. fold (group_path cat dir) in Hgroup.
  destruct (Os.path_isdir fs (group_path cat dir)) eqn:Hdir2;
    cbn [negb] in Hgroup; [|discriminate].
  destruct (resolve_text_prompt fs cat dir (group_path cat dir))
    as [prompt|e'] eqn:Hprompt; cbn [bind] in Hgroup; [discriminate|].
  injection Hgroup as ->.
  exists cat, dir. split; [exists categories, names; auto 10|].
  split; [exact Hprompt|].
  unfold resolve_text_prompt, Os.path_exists, Os.read_text in Hprompt.
  destruct (fs !! Py.path_join (group_path cat dir) "text_prompt.txt")
    as [[[content|]|names']|] eqn:Hfile; cbn [bind] in Hprompt.
  - discriminate.
  - injection Hprompt as <-. right. left. auto.
  - injection Hprompt as <-. left. eauto.
  - right. right. split; [reflexivity|].
    destruct (sample_num_of dir) as [n|e'] eqn:Hnum; cbn [bind] in Hprompt.
    + right.
      assert (Hcases : e = IndexError /\ n < -2 /\
                       is_Some (dict_get prompts cat)).
      { unfold get_demo_text_prompt in Hprompt.
        destruct (dict_get prompts cat) as [prompt_list|] eqn:Hget;
          [|discriminate].
        pose proof (dict_get_prompts_length _ _ Hget) as Hlen.
        destruct prompt_list as [|first [|second [|]]]; try discriminate.
        cbn [length] in Hprompt. change (Z.of_nat 2) with 2 in Hprompt.
        destruct (Z.leb_spec 2 n); [discriminate|].
        unfold Py.index in Hprompt. cbn [length] in Hprompt.
        change (Z.of_nat 2) with 2 in Hprompt.
        destruct (Z.ltb_spec n 0).
        - destruct (Z.leb_spec 0 (n + 2)).
          + destruct (Z.ltb_spec (n + 2) 2); [|lia].
            cbn [andb] in Hprompt.
            assert (Hn : n = -2 \/ n = -1) by lia.
            destruct Hn as [-> | ->]; discriminate.
          + cbn [andb] in Hprompt. injection Hprompt as <-.
            repeat split; [lia | eauto].
        - destruct (Z.leb_spec 0 n); [|lia].
          destruct (Z.ltb_spec n 2); [|lia]. cbn [andb] in Hprompt.
          assert (Hn : n = 0 \/ n = 1) by lia.
          destruct Hn as [-> | ->]; discriminate. }
      destruct Hcases as (-> & Hlow & Hknown). split; [reflexivity|].
      exists n. auto.
    + injection Hprompt as Heq. rewrite <- Heq. left.
      assert (He : e' = ValueError).
      { unfold sample_num_of in Hnum.
        destruct (Py.contains "_" dir); [|discriminate].
        now apply int_error in Hnum. }
      rewrite He in *. split; reflexivity.
Qed.

Lemma loader_exceptions_witness :
  let fs := Corpus.undecodable_prompt in
  let e := UnicodeDecodeError in
  (e = NotADirectoryError /\ exists content,
     fs !! SAMPLES_DIR = Some (File content)) \/
  (exists cat dir,
     visited fs cat dir /\
     resolve_text_prompt fs cat dir (group_path cat dir) = Raise e /\
     ((e = IsADirectoryError /\ exists names,
         fs !! Py.path_join (group_path cat dir) "text_prompt.txt"
           = Some (Directory names)) \/
      (e = UnicodeDecodeError /\
         fs !! Py.path_join (group_path cat dir) "text_prompt.txt"
           = Some (File Undecodable)) \/
      (fs !! Py.path_join (group_path cat dir) "text_prompt.txt" = None /\
       ((e = ValueError /\ sample_num_of dir = Raise ValueError) \/
        (e = IndexError /\ exists n,
           sample_num_of dir = Ok n /\ n < -2 /\
           is_Some (dict_get prompts cat)))))).
Proof.
  intros fs e. apply (loader_exceptions fs e).
  vm_compute. reflexivity.
Defined.

(** ** Audio files that went missing *)

(** X25. An audio file that is gone when the page is drawn costs a warning,
    not the session: the page of the current sample is drawn all the same,
    state and results directory stay as they are, and the messages shown
    are exactly one warning per missing file, naming its path (none when
    both files are there). *)
Theorem missing_audio_is_warned (env : Env) (ss : SessionState)
    (files : gmap string FileContent) (c : Z) :
  session_inv ss -> Active ss c ->
  exists sample r,
    current_sample ss = Ok sample /\
    interact env ss files no_input = Ok r /\
    state r = ss /\ store r = files /\
    (shown r = [] <->
       Os.path_exists (fs env) (anechoic_path sample) = true /\
       Os.path_exists (fs env) (reverb_path sample) = true) /\
    (forall m, m ∈ shown r <->
       (Os.path_exists (fs env) (anechoic_path sample) = false /\
        m = st_warning ("Anechoic audio file not found: "
                        +:+ anechoic_path sample)) \/
       (Os.path_exists (fs env) (reverb_path sample) = false /\
        m = st_warning ("Reverb audio file not found: "
                        +:+ reverb_path sample))).
Proof.
  intros [Hwf Hok] Hact.
  destruct (current_sample_Ok _ _ Hwf Hact) as (sample & Hcur & _).
  exists sample. eexists. split; [exact Hcur|]. split.
  - unfold interact. rewrite main_loaded by apply Hwf.
    rewrite (eval_stay env ss files no_input c sample Hact Hcur
               ltac:(now left)).
    reflexivity.
  - cbn [state store shown]. split; [reflexivity|]. split; [reflexivity|].
    unfold audio_warnings.
    destruct (Os.path_exists (fs env) (anechoic_path sample)),
             (Os.path_exists (fs env) (reverb_path sample)); cbn [app].
    + split; [split; auto|]. intros m. split.
      * intros H. inversion H.
      * intros [[H _]|[H _]]; discriminate H.
    + split; [split; [discriminate | intros [_ H]; discriminate H]|].
      intros m. rewrite list_elem_of_singleton. split.
      * intros ->. right. auto.
      * intros [[H _]|[_ H]]; [discriminate H | exact H].
    + split; [split; [discriminate | intros [H _]; discriminate H]|].
      intros m. rewrite list_elem_of_singleton. split.
      * intros ->. left. auto.
      * intros [[_ H]|[H _]]; [exact H | discriminate H].
    + split; [split; [discriminate | intros [H _]; discriminate H]|].
      intros m. rewrite elem_of_cons, list_elem_of_singleton. split.
      * intros [-> | ->]; [left | right]; auto.
      * intros [[_ H]|[_ H]]; auto.
Qed.

Lemma missing_audio_is_warned_witness :
  exists sample r,
    current_sample Corpus.at_first = Ok sample /\
    interact (Corpus.env_of Corpus.empty) Corpus.at_first ∅ no_input = Ok r /\
    state r = Corpus.at_first /\
    length (shown r) = 2%nat.
Proof.
  destruct (missing_audio_is_warned (Corpus.env_of Corpus.empty)
              Corpus.at_first ∅ 0 at_first_inv)
    as (sample & r & Hcur & Hr & Hst & _).
  - split; [reflexivity | simpl; lia].
  - exists sample, r. split; [exact Hcur|]. split; [exact Hr|].
    split; [exact Hst|].
    vm_compute in Hr. injection Hr as <-. reflexivity.
Defined.
